(** * oai-batch-rate: the batch processor and its fixed-window rate limiter

    A shallow embedding of [rate_limiters.py] and [batch_processor.py],
    of [timer.py], and of the two functions of [app.py] that drive them,
    [start_processing] and [update_metrics].

    Conventions of the embedding.
    - Wall-clock and monotonic clock readings ([time.time()],
      [time.monotonic()]) are rationals, passed explicitly to every
      operation that reads a clock, one argument per reading.  A Python
      float is the rational it denotes, and comparisons of floats are exact.
    - The rates and the token average of a progress snapshot, which the code
      truncates or rounds, are computed as the code computes them: every
      float operation of [_calculate_tpm], [_calculate_rpm],
      [_calculate_qps] and of the average in [get_progress] is rounded to
      the nearest binary64 value, ties to even ([Py.double]), and a token
      amount, a token rate or an average beyond the range of binary64 makes
      the operation raise, as [OverflowError] does in the code.  Clock
      readings are taken to be of a magnitude, such as that of seconds
      since the epoch, at which neither the difference of two of them nor
      a count divided by such a difference leaves the normal range of
      binary64.
    - The arithmetic of the limiter on clock readings, window sizes and
      quotas, the subtraction of two monotonic readings, and the percentage
      of the dashboard are taken without rounding error.
    - Event counters (they start at 0 and are only ever incremented) are [N];
      token amounts and the configured caps are Python ints, [Z].
    - A [deque] is a list whose head is the left end.
    - An operation that can raise returns an [option]; [None] is the raised
      exception.
    - One iteration of a worker's loop is one step; the task function is
      opaque and its behaviour in that iteration is an input of the step. *)

From Stdlib Require Import ZArith NArith QArith Qround Qabs Qpower Lqa Lia List Bool.
From Stdlib Require Import Ascii String Sorted.
Import ListNotations.

Local Open Scope Q_scope.

(** ** Python built-ins used by the two modules *)

Module Py.

Definition ge (a b : Q) : bool := Qle_bool b a.
Definition lt (a b : Q) : bool := negb (Qle_bool b a).
Definition gt (a b : Q) : bool := negb (Qle_bool a b).

(** [int(x)]: truncation toward zero. *)
Definition int (x : Q) : Z :=
  if lt x 0 then Qceiling x else Qfloor x.

(** [round(x)]: nearest integer, ties to the even one. *)
Definition round (x : Q) : Z :=
  let f := Qfloor x in
  let r := x - inject_Z f in
  if lt r (1 # 2) then f
  else if gt r (1 # 2) then (f + 1)%Z
  else if Z.even f then f else (f + 1)%Z.

(** *** Binary64 arithmetic *)

Definition pow2 (e : Z) : Q := 2 ^ e.

(** The exponent [b] with [2^b <= a < 2^(b+1)], for [a > 0]: the difference
    of the bit lengths of numerator and denominator, or one less.  Both
    bounds are checked; [None] does not occur for [a > 0]. *)
Definition binade (a : Q) : option Z :=
  let k := (Z.log2 (Qnum a) - Z.log2 (Zpos (Qden a)))%Z in
  if Qle_bool (pow2 (k + 1)) a then None
  else if Qle_bool (pow2 k) a then Some k
  else if Qle_bool (pow2 (k - 1)) a then Some (k - 1)%Z
  else None.

(** The nearest number with a significand of 53 bits, ties to the even
    significand: with [2^b <= |x| < 2^(b+1)] these numbers are spaced by
    [2^(b-52)] around [x], and [|x|] is rounded to the nearest multiple of
    that.  This is the binary64 result wherever its magnitude is in the
    normal range, from [2^-1022] up to, and not including, [2^1024]. *)
Definition double (x : Q) : Q :=
  if Qeq_bool x 0 then 0
  else
    match binade (Qabs x) with
    | Some b =>
        let ulp := pow2 (b - 52) in
        let r := inject_Z (round (Qabs x / ulp)) * ulp in
        if Qle_bool 0 x then r else - r
    | None => x
    end.

(** A rounded result of magnitude [2^1024] or more is beyond the largest
    double. *)
Definition finite (x : Q) : bool := negb (Qle_bool (pow2 1024) (Qabs x)).

(** [float(n)] for an int [n], as in [n / x] with a float [x]; [None] is
    [OverflowError]: int too large to convert to float. *)
Definition float_of_int (n : Z) : option Q :=
  let x := double (inject_Z n) in
  if finite x then Some x else None.

(** [float(n)] for the length of a container or a count of events, which
    is below [2^63] and always converts. *)
Definition float_of_count (n : Z) : Q := double (inject_Z n).

(** [x - y], [x * y] and [x / y] on floats.  A quotient or a product
    beyond the range is [inf] in the code; here it is a number that is not
    [finite]. *)
Definition fsub (x y : Q) : Q := double (x - y).
Definition fmul (x y : Q) : Q := double (x * y).
Definition fdiv (x y : Q) : Q := double (x / y).

(** [int(x)] on a float; [None] is [OverflowError]: cannot convert float
    infinity to integer. *)
Definition int_of_float (x : Q) : option Z :=
  if finite x then Some (int x) else None.

(** [n / m] on ints, [m] not zero: the quotient, rounded once, and whether
    it is too large for a float, in which case the division raises
    [OverflowError]. *)
Definition truediv_int (n m : Z) : Q := double (inject_Z n / inject_Z m).
Definition truediv_int_overflows (n m : Z) : bool :=
  negb (finite (truediv_int n m)).

(** [round(x, 2)] on a float: the exact value of [x] rounded to two
    decimals, ties to even, and the double nearest to that. *)
Definition round2 (x : Q) : Q := double (inject_Z (round (x * 100)) / 100).

(** Truthiness of an optional number: [None] and [0] are falsy. *)
Definition truthy (tokens : option Z) : bool :=
  match tokens with
  | Some t => negb (t =? 0)%Z
  | None => false
  end.

(** Truthiness of an optional string: [None] and [''] are falsy. *)
Definition truthy_str (e : option string) : bool :=
  match e with
  | Some (String _ _) => true
  | _ => false
  end.

(** [needle in hay] on strings. *)
Fixpoint contains (needle hay : string) : bool :=
  match hay with
  | EmptyString => prefix needle EmptyString
  | String _ rest => prefix needle hay || contains needle rest
  end.

Definition lower_ascii (c : ascii) : ascii :=
  let n := nat_of_ascii c in
  if (65 <=? n)%nat && (n <=? 90)%nat then ascii_of_nat (n + 32) else c.

(** [s.lower()] on ASCII text. *)
Fixpoint lower (s : string) : string :=
  match s with
  | EmptyString => EmptyString
  | String c rest => String (lower_ascii c) (lower rest)
  end.

(** [while d and old(d[0]): d.popleft()] *)
Fixpoint popleft_while {A : Type} (old : A -> bool) (d : list A) : list A :=
  match d with
  | [] => []
  | x :: rest => if old x then popleft_while old rest else d
  end.

(** [sum(1 for x in d if keep(x))] *)
Definition count_if {A : Type} (keep : A -> bool) (d : list A) : N :=
  N.of_nat (List.length (filter keep d)).

(** [sum(tokens for ts, tokens in d if keep(ts))] *)
Definition sum_tokens_if (keep : Q -> bool) (d : list (Q * Z)) : Z :=
  fold_right (fun e acc => (snd e + acc)%Z) 0%Z
             (filter (fun e => keep (fst e)) d).

Definition sum_tokens (d : list (Q * Z)) : Z :=
  fold_right (fun e acc => (snd e + acc)%Z) 0%Z d.

End Py.

(** ** [rate_limiters.py]: class [FixedWindowRateLimiter] *)

Module RateLimiter.

Record FixedWindowRateLimiter : Type := mkLimiter {
  max_rpm : Z;
  max_tpm : Z;
  rpm_window_size : Q;
  tpm_window_size : Q;
  request_timestamps : list Q;
  token_usage : list (Q * Z);
  rpm_window_start_time : Q;
  rpm_window_requests : N;
  tpm_window_start_time : Q;
  tpm_window_tokens : Z;
  current_rpm : N;
  current_tpm : Z
}.

(** [__init__]; the two window start times are two clock readings. *)
Definition init (max_rpm max_tpm : Z) (rpm_window_size tpm_window_size : Q)
  (t_rpm t_tpm : Q) : FixedWindowRateLimiter :=
  mkLimiter max_rpm max_tpm rpm_window_size tpm_window_size
            [] [] t_rpm 0%N t_tpm 0%Z 0%N 0%Z.

(** Field updates. *)
Definition set_rpm_window (start : Q) (n : N) (s : FixedWindowRateLimiter) :=
  mkLimiter (max_rpm s) (max_tpm s) (rpm_window_size s) (tpm_window_size s)
            (request_timestamps s) (token_usage s)
            start n (tpm_window_start_time s) (tpm_window_tokens s)
            (current_rpm s) (current_tpm s).

Definition set_tpm_window (start : Q) (n : Z) (s : FixedWindowRateLimiter) :=
  mkLimiter (max_rpm s) (max_tpm s) (rpm_window_size s) (tpm_window_size s)
            (request_timestamps s) (token_usage s)
            (rpm_window_start_time s) (rpm_window_requests s) start n
            (current_rpm s) (current_tpm s).

Definition set_histories (ts : list Q) (tu : list (Q * Z))
  (s : FixedWindowRateLimiter) :=
  mkLimiter (max_rpm s) (max_tpm s) (rpm_window_size s) (tpm_window_size s)
            ts tu
            (rpm_window_start_time s) (rpm_window_requests s)
            (tpm_window_start_time s) (tpm_window_tokens s)
            (current_rpm s) (current_tpm s).

Definition set_current (rpm : N) (tpm : Z) (s : FixedWindowRateLimiter) :=
  mkLimiter (max_rpm s) (max_tpm s) (rpm_window_size s) (tpm_window_size s)
            (request_timestamps s) (token_usage s)
            (rpm_window_start_time s) (rpm_window_requests s)
            (tpm_window_start_time s) (tpm_window_tokens s)
            rpm tpm.

Definition set_caps (rpm tpm : Z) (s : FixedWindowRateLimiter) :=
  mkLimiter rpm tpm (rpm_window_size s) (tpm_window_size s)
            (request_timestamps s) (token_usage s)
            (rpm_window_start_time s) (rpm_window_requests s)
            (tpm_window_start_time s) (tpm_window_tokens s)
            (current_rpm s) (current_tpm s).

(** [_refresh_windows] *)
Definition _refresh_windows (current_time : Q) (s : FixedWindowRateLimiter)
  : FixedWindowRateLimiter :=
  let s1 :=
    if Py.ge (current_time - rpm_window_start_time s) (rpm_window_size s)
    then set_rpm_window current_time 0%N s
    else s in
  let s2 :=
    if Py.ge (current_time - tpm_window_start_time s1) (tpm_window_size s1)
    then set_tpm_window current_time 0%Z s1
    else s1 in
  let cutoff_time := current_time - 60 in
  set_histories
    (Py.popleft_while (fun ts => Py.lt ts cutoff_time) (request_timestamps s2))
    (Py.popleft_while (fun e => Py.lt (fst e) cutoff_time) (token_usage s2))
    s2.

(** [_calculate_rates] *)
Definition _calculate_rates (current_time : Q) (s : FixedWindowRateLimiter)
  : FixedWindowRateLimiter :=
  let cutoff_time := current_time - 60 in
  let request_count :=
    Py.count_if (fun ts => Py.ge ts cutoff_time) (request_timestamps s) in
  let token_count :=
    Py.sum_tokens_if (fun ts => Py.ge ts cutoff_time) (token_usage s) in
  set_current request_count token_count s.

(** [_calculate_window_limits] *)
Definition _calculate_window_limits (s : FixedWindowRateLimiter) : Q * Q :=
  let rpm_window_max_requests :=
    if (max_rpm s >? 0)%Z
    then (inject_Z (max_rpm s) * rpm_window_size s) / 60 else 0 in
  let tpm_window_max_tokens :=
    if (max_tpm s >? 0)%Z
    then (inject_Z (max_tpm s) * tpm_window_size s) / 60 else 0 in
  (rpm_window_max_requests, tpm_window_max_tokens).

(** [_calculate_window_rates]; [None] is the [ZeroDivisionError] of
    [60 / window_size]. *)
Definition _calculate_window_rates (current_time : Q)
  (s : FixedWindowRateLimiter) : option (Q * Q) :=
  let rpm_window_cutoff := current_time - rpm_window_size s in
  let rpm_window_request_count :=
    Py.count_if (fun ts => Py.ge ts rpm_window_cutoff) (request_timestamps s) in
  if Qeq_bool (rpm_window_size s) 0 then None else
  let scaled_rpm :=
    inject_Z (Z.of_N rpm_window_request_count) * (60 / rpm_window_size s) in
  let tpm_window_cutoff := current_time - tpm_window_size s in
  let tpm_window_token_count :=
    Py.sum_tokens_if (fun ts => Py.ge ts tpm_window_cutoff) (token_usage s) in
  if Qeq_bool (tpm_window_size s) 0 then None else
  let scaled_tpm :=
    inject_Z tpm_window_token_count * (60 / tpm_window_size s) in
  Some (scaled_rpm, scaled_tpm).

(** [should_limit]: the state after the call and the returned boolean. *)
Definition should_limit (current_time : Q) (tokens : option Z)
  (s : FixedWindowRateLimiter) : FixedWindowRateLimiter * bool :=
  let s' := _refresh_windows current_time s in
  let '(rpm_window_max_requests, tpm_window_max_tokens) :=
    _calculate_window_limits s' in
  if Py.gt rpm_window_max_requests 0
     && Py.ge (inject_Z (Z.of_N (rpm_window_requests s')))
              rpm_window_max_requests
  then (s', true)
  else if Py.gt tpm_window_max_tokens 0
          && Py.truthy tokens
          && match tokens with
             | Some t => Py.gt (inject_Z (tpm_window_tokens s' + t))
                               tpm_window_max_tokens
             | None => false
             end
  then (s', true)
  else (s', false).

(** [record_request]; [_calculate_rates] reads the clock a second time. *)
Definition record_request (current_time t_rates : Q) (tokens : option Z)
  (s : FixedWindowRateLimiter) : FixedWindowRateLimiter :=
  let s1 :=
    set_histories (request_timestamps s ++ [current_time]) (token_usage s) s in
  let s2 :=
    match tokens with
    | Some t =>
        if Py.truthy tokens
        then set_tpm_window (tpm_window_start_time s1)
                            (tpm_window_tokens s1 + t)%Z
               (set_histories (request_timestamps s1)
                              (token_usage s1 ++ [(current_time, t)]) s1)
        else s1
    | None => s1
    end in
  let s3 :=
    set_rpm_window (rpm_window_start_time s2)
                   (rpm_window_requests s2 + 1)%N s2 in
  _calculate_rates t_rates s3.

(** The dictionary returned by [get_current_rates]. *)
Record RateSnapshot : Type := mkRateSnapshot {
  rs_rpm : Z;
  rs_tpm : Z;
  rs_max_rpm : Z;
  rs_max_tpm : Z;
  rs_rpm_window_size : Q;
  rs_tpm_window_size : Q;
  rs_rpm_window_requests : N;
  rs_tpm_window_tokens : Z;
  rs_rpm_window_max_requests : Q;
  rs_tpm_window_max_tokens : Q;
  rs_rpm_window_start_time : Q;
  rs_tpm_window_start_time : Q;
  rs_window_rpm : Z;
  rs_window_tpm : Z
}.

(** [get_current_rates]; three clock readings, one per helper. *)
Definition get_current_rates (t_refresh t_rates t_window : Q)
  (s : FixedWindowRateLimiter)
  : FixedWindowRateLimiter * option RateSnapshot :=
  let s1 := _refresh_windows t_refresh s in
  let s2 := _calculate_rates t_rates s1 in
  match _calculate_window_rates t_window s2 with
  | None => (s2, None)
  | Some (window_rpm, window_tpm) =>
      let '(rpm_window_max_requests, tpm_window_max_tokens) :=
        _calculate_window_limits s2 in
      (s2, Some (mkRateSnapshot
                   (Z.of_N (current_rpm s2)) (current_tpm s2)
                   (max_rpm s2) (max_tpm s2)
                   (rpm_window_size s2) (tpm_window_size s2)
                   (rpm_window_requests s2) (tpm_window_tokens s2)
                   rpm_window_max_requests tpm_window_max_tokens
                   (rpm_window_start_time s2) (tpm_window_start_time s2)
                   (Py.int window_rpm) (Py.int window_tpm)))
  end.

(** [reset]; the two window start times are two clock readings. *)
Definition reset (t_rpm t_tpm : Q) (s : FixedWindowRateLimiter)
  : FixedWindowRateLimiter :=
  mkLimiter (max_rpm s) (max_tpm s) (rpm_window_size s) (tpm_window_size s)
            [] [] t_rpm 0%N t_tpm 0%Z 0%N 0%Z.

End RateLimiter.

(** ** [batch_processor.py]: class [BatchProcessor] *)

Module Processor.

(** A queued unit [(task_func, args, kwargs)]: the task function, by name,
    and its arguments. *)
Record Task : Type := mkTask {
  task_func : string;
  args : list Z
}.

(** The record a task function returns, [{'task_id': .., 'tokens': ..}];
    [tokens = None] stands for a record without the ['tokens'] key.  Token
    amounts are integers. *)
Record TaskResult : Type := mkTaskResult {
  task_id : Z;
  tokens : option Z
}.

(** What the call of the task function does in one iteration: it
    returns a record (or [None]), or raises an exception whose [str()] is
    [msg]. *)
Inductive Execution : Type :=
| Returns (r : option TaskResult)
| Raises (msg : string).

(** An entry of the results log. *)
Record TaskOutcome : Type := mkOutcome {
  executor_id : nat;
  task_result : option TaskResult;
  execution_time : Q;
  error : option string;
  status : string
}.

(** [min_tokens] starts at [float('inf')]. *)
Inductive TokenMin : Type :=
| Infinity
| Finite (n : Z).

(** [min(self.min_tokens, tokens)] *)
Definition min_with (m : TokenMin) (t : Z) : TokenMin :=
  match m with
  | Infinity => Finite t
  | Finite n => Finite (Z.min n t)
  end.

Record BatchProcessor : Type := mkProcessor {
  task_queue : list Task;
  rate_limit_mode : string;
  rate_limiter : option RateLimiter.FixedWindowRateLimiter;
  num_executors : nat;
  executors : nat;
  results : list TaskOutcome;
  completed_tasks : N;
  total_tasks : N;
  error_count : N;
  requeued_tasks : N;
  total_tokens : Z;
  min_tokens : TokenMin;
  max_tokens : Z;
  token_count : N;
  token_history : list (Q * Z);
  request_history : list Q;
  query_history : list Q;
  tpm_window_seconds : Q;
  rpm_window_seconds : Q;
  last_qps_calculation_time : Q;
  queries_since_last_calculation : N;
  instantaneous_qps : Q;
  running : bool
}.

(** Field updates. *)
Definition set_task_queue (v : list Task) (s : BatchProcessor)
  : BatchProcessor :=
  mkProcessor v (rate_limit_mode s) (rate_limiter s) (num_executors s)
    (executors s) (results s) (completed_tasks s) (total_tasks s)
    (error_count s) (requeued_tasks s) (total_tokens s) (min_tokens s)
    (max_tokens s) (token_count s) (token_history s) (request_history s)
    (query_history s) (tpm_window_seconds s) (rpm_window_seconds s)
    (last_qps_calculation_time s) (queries_since_last_calculation s)
    (instantaneous_qps s) (running s).

Definition set_rate_limit_mode (v : string) (s : BatchProcessor)
  : BatchProcessor :=
  mkProcessor (task_queue s) v (rate_limiter s) (num_executors s)
    (executors s) (results s) (completed_tasks s) (total_tasks s)
    (error_count s) (requeued_tasks s) (total_tokens s) (min_tokens s)
    (max_tokens s) (token_count s) (token_history s) (request_history s)
    (query_history s) (tpm_window_seconds s) (rpm_window_seconds s)
    (last_qps_calculation_time s) (queries_since_last_calculation s)
    (instantaneous_qps s) (running s).

Definition set_rate_limiter (v : option RateLimiter.FixedWindowRateLimiter) (s : BatchProcessor)
  : BatchProcessor :=
  mkProcessor (task_queue s) (rate_limit_mode s) v (num_executors s)
    (executors s) (results s) (completed_tasks s) (total_tasks s)
    (error_count s) (requeued_tasks s) (total_tokens s) (min_tokens s)
    (max_tokens s) (token_count s) (token_history s) (request_history s)
    (query_history s) (tpm_window_seconds s) (rpm_window_seconds s)
    (last_qps_calculation_time s) (queries_since_last_calculation s)
    (instantaneous_qps s) (running s).

Definition set_executors (v : nat) (s : BatchProcessor)
  : BatchProcessor :=
  mkProcessor (task_queue s) (rate_limit_mode s) (rate_limiter s)
    (num_executors s) v (results s) (completed_tasks s) (total_tasks s)
    (error_count s) (requeued_tasks s) (total_tokens s) (min_tokens s)
    (max_tokens s) (token_count s) (token_history s) (request_history s)
    (query_history s) (tpm_window_seconds s) (rpm_window_seconds s)
    (last_qps_calculation_time s) (queries_since_last_calculation s)
    (instantaneous_qps s) (running s).

Definition set_results (v : list TaskOutcome) (s : BatchProcessor)
  : BatchProcessor :=
  mkProcessor (task_queue s) (rate_limit_mode s) (rate_limiter s)
    (num_executors s) (executors s) v (completed_tasks s) (total_tasks s)
    (error_count s) (requeued_tasks s) (total_tokens s) (min_tokens s)
    (max_tokens s) (token_count s) (token_history s) (request_history s)
    (query_history s) (tpm_window_seconds s) (rpm_window_seconds s)
    (last_qps_calculation_time s) (queries_since_last_calculation s)
    (instantaneous_qps s) (running s).

Definition set_completed_tasks (v : N) (s : BatchProcessor)
  : BatchProcessor :=
  mkProcessor (task_queue s) (rate_limit_mode s) (rate_limiter s)
    (num_executors s) (executors s) (results s) v (total_tasks s)
    (error_count s) (requeued_tasks s) (total_tokens s) (min_tokens s)
    (max_tokens s) (token_count s) (token_history s) (request_history s)
    (query_history s) (tpm_window_seconds s) (rpm_window_seconds s)
    (last_qps_calculation_time s) (queries_since_last_calculation s)
    (instantaneous_qps s) (running s).

Definition set_total_tasks (v : N) (s : BatchProcessor)
  : BatchProcessor :=
  mkProcessor (task_queue s) (rate_limit_mode s) (rate_limiter s)
    (num_executors s) (executors s) (results s) (completed_tasks s) v
    (error_count s) (requeued_tasks s) (total_tokens s) (min_tokens s)
    (max_tokens s) (token_count s) (token_history s) (request_history s)
    (query_history s) (tpm_window_seconds s) (rpm_window_seconds s)
    (last_qps_calculation_time s) (queries_since_last_calculation s)
    (instantaneous_qps s) (running s).

Definition set_error_count (v : N) (s : BatchProcessor)
  : BatchProcessor :=
  mkProcessor (task_queue s) (rate_limit_mode s) (rate_limiter s)
    (num_executors s) (executors s) (results s) (completed_tasks s)
    (total_tasks s) v (requeued_tasks s) (total_tokens s) (min_tokens s)
    (max_tokens s) (token_count s) (token_history s) (request_history s)
    (query_history s) (tpm_window_seconds s) (rpm_window_seconds s)
    (last_qps_calculation_time s) (queries_since_last_calculation s)
    (instantaneous_qps s) (running s).

Definition set_requeued_tasks (v : N) (s : BatchProcessor)
  : BatchProcessor :=
  mkProcessor (task_queue s) (rate_limit_mode s) (rate_limiter s)
    (num_executors s) (executors s) (results s) (completed_tasks s)
    (total_tasks s) (error_count s) v (total_tokens s) (min_tokens s)
    (max_tokens s) (token_count s) (token_history s) (request_history s)
    (query_history s) (tpm_window_seconds s) (rpm_window_seconds s)
    (last_qps_calculation_time s) (queries_since_last_calculation s)
    (instantaneous_qps s) (running s).

Definition set_total_tokens (v : Z) (s : BatchProcessor)
  : BatchProcessor :=
  mkProcessor (task_queue s) (rate_limit_mode s) (rate_limiter s)
    (num_executors s) (executors s) (results s) (completed_tasks s)
    (total_tasks s) (error_count s) (requeued_tasks s) v (min_tokens s)
    (max_tokens s) (token_count s) (token_history s) (request_history s)
    (query_history s) (tpm_window_seconds s) (rpm_window_seconds s)
    (last_qps_calculation_time s) (queries_since_last_calculation s)
    (instantaneous_qps s) (running s).

Definition set_min_tokens (v : TokenMin) (s : BatchProcessor)
  : BatchProcessor :=
  mkProcessor (task_queue s) (rate_limit_mode s) (rate_limiter s)
    (num_executors s) (executors s) (results s) (completed_tasks s)
    (total_tasks s) (error_count s) (requeued_tasks s) (total_tokens s) v
    (max_tokens s) (token_count s) (token_history s) (request_history s)
    (query_history s) (tpm_window_seconds s) (rpm_window_seconds s)
    (last_qps_calculation_time s) (queries_since_last_calculation s)
    (instantaneous_qps s) (running s).

Definition set_max_tokens (v : Z) (s : BatchProcessor)
  : BatchProcessor :=
  mkProcessor (task_queue s) (rate_limit_mode s) (rate_limiter s)
    (num_executors s) (executors s) (results s) (completed_tasks s)
    (total_tasks s) (error_count s) (requeued_tasks s) (total_tokens s)
    (min_tokens s) v (token_count s) (token_history s) (request_history s)
    (query_history s) (tpm_window_seconds s) (rpm_window_seconds s)
    (last_qps_calculation_time s) (queries_since_last_calculation s)
    (instantaneous_qps s) (running s).

Definition set_token_count (v : N) (s : BatchProcessor)
  : BatchProcessor :=
  mkProcessor (task_queue s) (rate_limit_mode s) (rate_limiter s)
    (num_executors s) (executors s) (results s) (completed_tasks s)
    (total_tasks s) (error_count s) (requeued_tasks s) (total_tokens s)
    (min_tokens s) (max_tokens s) v (token_history s) (request_history s)
    (query_history s) (tpm_window_seconds s) (rpm_window_seconds s)
    (last_qps_calculation_time s) (queries_since_last_calculation s)
    (instantaneous_qps s) (running s).

Definition set_token_history (v : list (Q * Z)) (s : BatchProcessor)
  : BatchProcessor :=
  mkProcessor (task_queue s) (rate_limit_mode s) (rate_limiter s)
    (num_executors s) (executors s) (results s) (completed_tasks s)
    (total_tasks s) (error_count s) (requeued_tasks s) (total_tokens s)
    (min_tokens s) (max_tokens s) (token_count s) v (request_history s)
    (query_history s) (tpm_window_seconds s) (rpm_window_seconds s)
    (last_qps_calculation_time s) (queries_since_last_calculation s)
    (instantaneous_qps s) (running s).

Definition set_request_history (v : list Q) (s : BatchProcessor)
  : BatchProcessor :=
  mkProcessor (task_queue s) (rate_limit_mode s) (rate_limiter s)
    (num_executors s) (executors s) (results s) (completed_tasks s)
    (total_tasks s) (error_count s) (requeued_tasks s) (total_tokens s)
    (min_tokens s) (max_tokens s) (token_count s) (token_history s) v
    (query_history s) (tpm_window_seconds s) (rpm_window_seconds s)
    (last_qps_calculation_time s) (queries_since_last_calculation s)
    (instantaneous_qps s) (running s).

Definition set_query_history (v : list Q) (s : BatchProcessor)
  : BatchProcessor :=
  mkProcessor (task_queue s) (rate_limit_mode s) (rate_limiter s)
    (num_executors s) (executors s) (results s) (completed_tasks s)
    (total_tasks s) (error_count s) (requeued_tasks s) (total_tokens s)
    (min_tokens s) (max_tokens s) (token_count s) (token_history s)
    (request_history s) v (tpm_window_seconds s) (rpm_window_seconds s)
    (last_qps_calculation_time s) (queries_since_last_calculation s)
    (instantaneous_qps s) (running s).

Definition set_last_qps_calculation_time (v : Q) (s : BatchProcessor)
  : BatchProcessor :=
  mkProcessor (task_queue s) (rate_limit_mode s) (rate_limiter s)
    (num_executors s) (executors s) (results s) (completed_tasks s)
    (total_tasks s) (error_count s) (requeued_tasks s) (total_tokens s)
    (min_tokens s) (max_tokens s) (token_count s) (token_history s)
    (request_history s) (query_history s) (tpm_window_seconds s)
    (rpm_window_seconds s) v (queries_since_last_calculation s)
    (instantaneous_qps s) (running s).

Definition set_queries_since_last_calculation (v : N) (s : BatchProcessor)
  : BatchProcessor :=
  mkProcessor (task_queue s) (rate_limit_mode s) (rate_limiter s)
    (num_executors s) (executors s) (results s) (completed_tasks s)
    (total_tasks s) (error_count s) (requeued_tasks s) (total_tokens s)
    (min_tokens s) (max_tokens s) (token_count s) (token_history s)
    (request_history s) (query_history s) (tpm_window_seconds s)
    (rpm_window_seconds s) (last_qps_calculation_time s) v
    (instantaneous_qps s) (running s).

Definition set_instantaneous_qps (v : Q) (s : BatchProcessor)
  : BatchProcessor :=
  mkProcessor (task_queue s) (rate_limit_mode s) (rate_limiter s)
    (num_executors s) (executors s) (results s) (completed_tasks s)
    (total_tasks s) (error_count s) (requeued_tasks s) (total_tokens s)
    (min_tokens s) (max_tokens s) (token_count s) (token_history s)
    (request_history s) (query_history s) (tpm_window_seconds s)
    (rpm_window_seconds s) (last_qps_calculation_time s)
    (queries_since_last_calculation s) v (running s).

Definition set_running (v : bool) (s : BatchProcessor)
  : BatchProcessor :=
  mkProcessor (task_queue s) (rate_limit_mode s) (rate_limiter s)
    (num_executors s) (executors s) (results s) (completed_tasks s)
    (total_tasks s) (error_count s) (requeued_tasks s) (total_tokens s)
    (min_tokens s) (max_tokens s) (token_count s) (token_history s)
    (request_history s) (query_history s) (tpm_window_seconds s)
    (rpm_window_seconds s) (last_qps_calculation_time s)
    (queries_since_last_calculation s) (instantaneous_qps s) v.

(** [self.rate_limit_mode == "limited" and self.rate_limiter] *)
Definition limiter_active (s : BatchProcessor)
  : option RateLimiter.FixedWindowRateLimiter :=
  if String.eqb (rate_limit_mode s) "limited" then rate_limiter s else None.

(** [add_task] *)
Definition add_task (task : Task) (s : BatchProcessor) : BatchProcessor :=
  let s := set_task_queue (task_queue s ++ [task]) s in
  set_total_tasks (total_tasks s + 1)%N s.

(** The clock readings of one worker iteration, in program order:
    [should_limit], [time.monotonic()] before the call, the query-history
    stamp, [record_request] and its [_calculate_rates],
    [time.monotonic()] after the call, the request-history stamp and the
    token-history stamp. *)
Record WorkerClock : Type := mkWorkerClock {
  t_gate : Q;
  m_start : Q;
  t_query : Q;
  t_record : Q;
  t_rates : Q;
  m_end : Q;
  t_request : Q;
  t_token : Q
}.

(** [self.task_queue.put((task_func, args, kwargs))] followed by
    [self.requeued_tasks += 1] *)
Definition requeue (task : Task) (s : BatchProcessor) : BatchProcessor :=
  let s := set_task_queue (task_queue s ++ [task]) s in
  set_requeued_tasks (requeued_tasks s + 1)%N s.

(** The admission gate of the worker: the state after [should_limit()] and
    whether the task is to be put back. *)
Definition admission_gate (clk : WorkerClock) (s : BatchProcessor)
  : BatchProcessor * bool :=
  match limiter_active s with
  | Some l =>
      let '(l', should_limit) :=
        RateLimiter.should_limit (t_gate clk) None l in
      (set_rate_limiter (Some l') s, should_limit)
  | None => (s, false)
  end.

(** ["429" in error and "rate limit" in error.lower()] *)
Definition is_rate_limit_error (error : string) : bool :=
  Py.contains "429" error && Py.contains "rate limit" (Py.lower error).

(** The [try] block around the call and its [except] clause: the state, the
    local variables [task_result] and [error], and the flag [requeued]. *)
Definition execute_task (task : Task) (clk : WorkerClock) (exec : Execution)
  (s : BatchProcessor)
  : BatchProcessor * option TaskResult * option string * bool :=
  let s := set_query_history (query_history s ++ [t_query clk]) s in
  let s :=
    set_queries_since_last_calculation
      (queries_since_last_calculation s + 1)%N s in
  match exec with
  | Returns task_result =>
      let s :=
        match limiter_active s with
        | Some l =>
            let tokens :=
              match task_result with
              | Some r => match tokens r with Some t => t | None => 0%Z end
              | None => 0%Z
              end in
            set_rate_limiter
              (Some (RateLimiter.record_request
                       (t_record clk) (t_rates clk) (Some tokens) l)) s
        | None => s
        end in
      (s, task_result, None, false)
  | Raises msg =>
      let error := msg in
      if is_rate_limit_error error
      then (requeue task s, None, Some error, true)
      else (s, None, Some error, false)
  end.

(** The block [if not requeued: with self.lock: ...] *)
Definition store_result (executor_id : nat) (clk : WorkerClock)
  (task_result : option TaskResult) (execution_time : Q)
  (error : option string) (s : BatchProcessor) : BatchProcessor :=
  let failed := Py.truthy_str error in
  let s :=
    set_results
      (results s ++ [mkOutcome executor_id task_result execution_time error
                               (if failed then "error" else "success")]) s in
  let s := set_completed_tasks (completed_tasks s + 1)%N s in
  let s :=
    if failed
    then set_error_count (error_count s + 1)%N s
    else set_request_history (request_history s ++ [t_request clk]) s in
  if negb failed then
    match task_result with
    | Some r =>
        match tokens r with
        | Some tokens =>
            let s := set_total_tokens (total_tokens s + tokens)%Z s in
            let s := set_min_tokens (min_with (min_tokens s) tokens) s in
            let s := set_max_tokens (Z.max (max_tokens s) tokens) s in
            let s := set_token_count (token_count s + 1)%N s in
            set_token_history (token_history s ++ [(t_token clk, tokens)]) s
        | None => s
        end
    | None => s
    end
  else s.

(** One pass through the body of the [while self.running] loop of
    [_executor_worker].  An empty queue is the [queue.Empty] of the timed
    [get]. *)
Definition _executor_worker_iteration (executor_id : nat) (clk : WorkerClock)
  (exec : Execution) (s : BatchProcessor) : BatchProcessor :=
  match task_queue s with
  | [] => s
  | task :: rest =>
      let s := set_task_queue rest s in
      let '(s, should_limit) := admission_gate clk s in
      if should_limit then requeue task s
      else
        let '(s, task_result, error, requeued) :=
          execute_task task clk exec s in
        let execution_time := m_end clk - m_start clk in
        if negb requeued
        then store_result executor_id clk task_result execution_time error s
        else s
  end.

(** [start]; the two readings are those of the limiter's [reset]. *)
Definition start (t_rpm t_tpm : Q) (s : BatchProcessor) : BatchProcessor :=
  let s := set_running true s in
  let s := set_executors 0%nat s in
  let s := set_results [] s in
  let s := set_completed_tasks 0%N s in
  let s := set_error_count 0%N s in
  let s := set_requeued_tasks 0%N s in
  let s :=
    match rate_limiter s with
    | Some l => set_rate_limiter (Some (RateLimiter.reset t_rpm t_tpm l)) s
    | None => s
    end in
  set_executors (num_executors s) s.

(** [stop] *)
Definition stop (s : BatchProcessor) : BatchProcessor :=
  set_running false s.

(** [reset]; [t_qps] is the reading stored in [last_qps_calculation_time]. *)
Definition reset (num_executors : nat) (t_qps t_rpm t_tpm : Q)
  (s : BatchProcessor) : BatchProcessor :=
  let s := stop s in
  mkProcessor [] (rate_limit_mode s)
    (match rate_limiter s with
     | Some l => Some (RateLimiter.reset t_rpm t_tpm l)
     | None => None
     end)
    num_executors 0%nat [] 0%N 0%N 0%N 0%N 0%Z Infinity 0%Z 0%N [] [] []
    60 10 t_qps 0%N 0 false.

(** [__init__]; the limiter, when there is one, is built with the default
    window sizes (10 s for requests, 60 s for tokens). *)
Definition init (num_executors : nat) (rate_limit_mode : string)
  (max_rpm max_tpm : Z) (t_rpm0 t_tpm0 t_qps t_rpm t_tpm : Q)
  : BatchProcessor :=
  let rate_limiter :=
    if String.eqb rate_limit_mode "limited"
    then Some (RateLimiter.init max_rpm max_tpm 10 60 t_rpm0 t_tpm0)
    else None in
  reset num_executors t_qps t_rpm t_tpm
    (mkProcessor [] rate_limit_mode rate_limiter 0%nat 0%nat [] 0%N 0%N 0%N
       0%N 0%Z Infinity 0%Z 0%N [] [] [] 60 10 0 0%N 0 false).

(** [set_rate_limits] *)
Definition set_rate_limits (mode : string) (max_rpm max_tpm : Z)
  (t_rpm t_tpm : Q) (s : BatchProcessor) : BatchProcessor :=
  let s := set_rate_limit_mode mode s in
  if String.eqb mode "limited" then
    match rate_limiter s with
    | Some l =>
        set_rate_limiter
          (Some (RateLimiter.reset t_rpm t_tpm
                   (RateLimiter.set_caps max_rpm max_tpm l))) s
    | None =>
        set_rate_limiter
          (Some (RateLimiter.init max_rpm max_tpm 10 60 t_rpm t_tpm)) s
    end
  else set_rate_limiter None s.

(** [_calculate_tpm]; [None] is an exception: [OverflowError] when the sum
    of the tokens does not convert to a float, [ZeroDivisionError] of
    [tokens_in_window / window_duration], or [OverflowError] of [int(tpm)]
    when the quotient or the product has left the range. *)
Definition _calculate_tpm (current_time : Q) (s : BatchProcessor)
  : BatchProcessor * option Z :=
  match token_history s with
  | [] => (s, Some 0%Z)
  | _ :: _ =>
      let window_start := Py.fsub current_time (tpm_window_seconds s) in
      let s :=
        set_token_history
          (Py.popleft_while (fun e => Py.lt (fst e) window_start)
                            (token_history s)) s in
      match token_history s with
      | [] => (s, Some 0%Z)
      | oldest :: _ =>
          let tokens_in_window := Py.sum_tokens (token_history s) in
          let window_duration := Py.fsub current_time (fst oldest) in
          match Py.float_of_int tokens_in_window with
          | None => (s, None)
          | Some tokens_in_window =>
              if Qeq_bool window_duration 0 then (s, None)
              else
                let tpm :=
                  Py.fmul (Py.fdiv tokens_in_window window_duration) 60 in
                (s, Py.int_of_float tpm)
          end
      end
  end.

(** [_calculate_rpm].  The quotient is at most the length of the history,
    the divisor being at least 1: nothing leaves the range here. *)
Definition _calculate_rpm (current_time : Q) (s : BatchProcessor)
  : BatchProcessor * Z :=
  match request_history s with
  | [] => (s, 0%Z)
  | _ :: _ =>
      let window_start := Py.fsub current_time (rpm_window_seconds s) in
      let s :=
        set_request_history
          (Py.popleft_while (fun ts => Py.lt ts window_start)
                            (request_history s)) s in
      match request_history s with
      | [] => (s, 0%Z)
      | oldest :: _ =>
          let window_duration := Py.fsub current_time oldest in
          if Py.lt window_duration 1 then (s, 0%Z)
          else
            let rpm :=
              Py.fmul
                (Py.fdiv
                   (Py.float_of_count
                      (Z.of_nat (List.length (request_history s))))
                   window_duration) 60 in
            (s, Py.int rpm)
      end
  end.

(** [_calculate_qps]; [0.1] is the double nearest to one tenth.  The
    quotient is at most about ten times the counter. *)
Definition _calculate_qps (current_time : Q) (s : BatchProcessor)
  : BatchProcessor * Q :=
  let time_diff := Py.fsub current_time (last_qps_calculation_time s) in
  let s :=
    if Py.ge time_diff (Py.double (1 # 10)) then
      let s :=
        if (0 <? queries_since_last_calculation s)%N
        then set_instantaneous_qps
               (Py.fdiv
                  (Py.float_of_count
                     (Z.of_N (queries_since_last_calculation s)))
                  time_diff) s
        else set_instantaneous_qps 0 s in
      let s := set_last_qps_calculation_time current_time s in
      set_queries_since_last_calculation 0%N s
    else s in
  (s, Py.round2 (instantaneous_qps s)).

(** The dictionary returned by [get_progress]; [rate_limit_info = None] is
    the empty dictionary. *)
Record Progress : Type := mkProgress {
  p_completed : N;
  p_total : N;
  p_queue_size : nat;
  p_results : list TaskOutcome;
  p_error_count : N;
  p_requeued_tasks : N;
  p_total_tokens : Z;
  p_min_tokens : TokenMin;
  p_max_tokens : Z;
  p_avg_tokens : Z;
  p_tpm : Z;
  p_rpm : Z;
  p_qps : Q;
  p_rate_limit_mode : string;
  p_rate_limit_info : option RateLimiter.RateSnapshot
}.

(** The clock readings of one [get_progress], in program order: the three of
    [get_current_rates], then [_calculate_tpm], [_calculate_rpm] and
    [_calculate_qps]. *)
Record ProgressClock : Type := mkProgressClock {
  t_refresh : Q;
  t_limiter_rates : Q;
  t_window : Q;
  t_tpm : Q;
  t_rpm : Q;
  t_qps : Q
}.

(** The average reported by [get_progress]:
    [round(self.total_tokens / self.token_count)] if [token_count > 0],
    else 0; and whether the division raises [OverflowError]. *)
Definition progress_avg_tokens (s : BatchProcessor) : Z :=
  if (0 <? token_count s)%N
  then Py.round (Py.truediv_int (total_tokens s) (Z.of_N (token_count s)))
  else 0%Z.

Definition progress_avg_overflows (s : BatchProcessor) : bool :=
  (0 <? token_count s)%N
  && Py.truediv_int_overflows (total_tokens s) (Z.of_N (token_count s)).

(** The minimum reported by [get_progress]:
    [0 if self.min_tokens == float('inf') else self.min_tokens]. *)
Definition progress_min_tokens (s : BatchProcessor) : TokenMin :=
  match min_tokens s with
  | Infinity => Finite 0
  | Finite n => Finite n
  end.

(** The limiter part of [get_progress]: the state after
    [get_current_rates] and its result; the outer [None] is the exception it
    can raise, [Some None] the empty dictionary. *)
Definition progress_rate_limit_info (clk : ProgressClock) (s : BatchProcessor)
  : BatchProcessor * option (option RateLimiter.RateSnapshot) :=
  match limiter_active s with
  | Some l =>
      let '(l', info) :=
        RateLimiter.get_current_rates
          (t_refresh clk) (t_limiter_rates clk) (t_window clk) l in
      (set_rate_limiter (Some l') s,
       match info with Some i => Some (Some i) | None => None end)
  | None => (s, Some None)
  end.

(** [get_progress]; [None] is an exception raised by the division of the
    average, by [get_current_rates] or by [_calculate_tpm], after the state
    changes made up to that point. *)
Definition get_progress (clk : ProgressClock) (s : BatchProcessor)
  : BatchProcessor * option Progress :=
  if progress_avg_overflows s then (s, None)
  else
    let avg_tokens := progress_avg_tokens s in
    let min_tokens := progress_min_tokens s in
    let '(s, rate_limit_info) := progress_rate_limit_info clk s in
    match rate_limit_info with
    | None => (s, None)
    | Some rate_limit_info =>
        let s0 := s in
        let '(s, tpm) := _calculate_tpm (t_tpm clk) s in
        match tpm with
        | None => (s, None)
        | Some tpm =>
            let '(s, rpm) := _calculate_rpm (t_rpm clk) s in
            let '(s, qps) := _calculate_qps (t_qps clk) s in
            (s, Some (mkProgress
                        (completed_tasks s0) (total_tasks s0)
                        (List.length (task_queue s0)) (results s0)
                        (error_count s0) (requeued_tasks s0)
                        (total_tokens s0)
                        min_tokens (max_tokens s0) avg_tokens
                        tpm rpm qps (rate_limit_mode s0) rate_limit_info))
        end
    end.

(** [remaining_tasks]: [total_tasks - completed_tasks] on Python ints. *)
Definition remaining_tasks (s : BatchProcessor) : Z :=
  (Z.of_N (total_tasks s) - Z.of_N (completed_tasks s))%Z.

(** The operations on a processor: the public methods and one iteration of
    a worker, each with the clock readings and inputs it consumes. *)
Inductive Op : Type :=
| OpAddTask (task : Task)
| OpWorker (executor_id : nat) (clk : WorkerClock) (exec : Execution)
| OpStart (t_rpm t_tpm : Q)
| OpStop
| OpReset (num_executors : nat) (t_qps t_rpm t_tpm : Q)
| OpSetRateLimits (mode : string) (max_rpm max_tpm : Z) (t_rpm t_tpm : Q)
| OpGetProgress (clk : ProgressClock).

Definition apply (op : Op) (s : BatchProcessor) : BatchProcessor :=
  match op with
  | OpAddTask task => add_task task s
  | OpWorker executor_id clk exec =>
      _executor_worker_iteration executor_id clk exec s
  | OpStart t_rpm t_tpm => start t_rpm t_tpm s
  | OpStop => stop s
  | OpReset n t_qps t_rpm t_tpm => reset n t_qps t_rpm t_tpm s
  | OpSetRateLimits mode max_rpm max_tpm t_rpm t_tpm =>
      set_rate_limits mode max_rpm max_tpm t_rpm t_tpm s
  | OpGetProgress clk => fst (get_progress clk s)
  end.

(** A worker iteration needs a worker: [start] has spawned one. *)
Definition enabled (op : Op) (s : BatchProcessor) : bool :=
  match op with
  | OpWorker executor_id _ _ => (executor_id <? executors s)%nat
  | _ => true
  end.

(** The states a processor can be in: those of a freshly constructed one
    and those reached from them by enabled operations. *)
Inductive reachable : BatchProcessor -> Prop :=
| reachable_init num_executors rate_limit_mode max_rpm max_tpm
                 t_rpm0 t_tpm0 t_qps t_rpm t_tpm :
    reachable (init num_executors rate_limit_mode max_rpm max_tpm
                    t_rpm0 t_tpm0 t_qps t_rpm t_tpm)
| reachable_step op s :
    reachable s -> enabled op s = true -> reachable (apply op s).

End Processor.

(** ** [timer.py]: class [Timer] *)

Module Timer.

Record Timer : Type := mkTimer {
  start_time : option Q;
  end_time : option Q;
  running : bool
}.

(** [__init__] *)
Definition init : Timer := mkTimer None None false.

(** [start]; [m] is the reading of [time.monotonic()]. *)
Definition start (m : Q) (t : Timer) : Timer := mkTimer (Some m) None true.

(** [stop]; the clock is read only when the timer is running. *)
Definition stop (m : Q) (t : Timer) : Timer :=
  if running t then mkTimer (start_time t) (Some m) false else t.

(** Truthiness of an optional float: [None] and [0.0] are falsy. *)
Definition truthy_time (x : option Q) : bool :=
  match x with
  | Some v => negb (Qeq_bool v 0)
  | None => false
  end.

(** [elapsed]; [None] is the [TypeError] of subtracting [None]. *)
Definition elapsed (m : Q) (t : Timer) : option Q :=
  if running t then
    match start_time t with
    | Some s => Some (m - s)
    | None => None
    end
  else if truthy_time (start_time t) && truthy_time (end_time t) then
    match start_time t, end_time t with
    | Some s, Some e => Some (e - s)
    | _, _ => None
    end
  else Some 0.

(** [reset] *)
Definition reset (t : Timer) : Timer := mkTimer None None false.

(** The methods of a timer, and the timers they lead to from a new one. *)
Inductive Op : Type :=
| OpStart (m : Q)
| OpStop (m : Q)
| OpReset.

Definition apply (op : Op) (t : Timer) : Timer :=
  match op with
  | OpStart m => start m t
  | OpStop m => stop m t
  | OpReset => reset t
  end.

Definition run (ops : list Op) (t : Timer) : Timer :=
  fold_left (fun acc op => apply op acc) ops t.

End Timer.

(** ** [app.py]: the session state and its two drivers *)

Module App.

Definition MAX_HISTORY : nat := 60.

(** The part of [st.session_state] that [start_processing] and
    [update_metrics] use. *)
Record Session : Type := mkSession {
  processor : Processor.BatchProcessor;
  timer : Timer.Timer;
  prev_completed_tasks : N;
  prev_queue_size : nat;
  prev_tokens : Z;
  prev_tpm : Z;
  prev_rpm : Z;
  prev_qps : Q;
  tpm_history : list Z;
  rpm_history : list Z;
  token_history : list Z;
  metric_times : list Q
}.

(** The clock readings of one [start_processing], in program order: those
    of [reset], of [set_rate_limits], of [start], and of the timer. *)
Record StartClock : Type := mkStartClock {
  c_reset_qps : Q;
  c_reset_rpm : Q;
  c_reset_tpm : Q;
  c_limits_rpm : Q;
  c_limits_tpm : Q;
  c_start_rpm : Q;
  c_start_tpm : Q;
  c_timer : Q
}.

(** [for i in range(num_tasks): processor.add_task(openai_task, i)] *)
Definition add_tasks (num_tasks : nat) (p : Processor.BatchProcessor)
  : Processor.BatchProcessor :=
  fold_left
    (fun acc i =>
       Processor.add_task (Processor.mkTask "openai_task" [Z.of_nat i]) acc)
    (seq 0 num_tasks) p.

(** [start_processing] *)
Definition start_processing (num_executors num_tasks : nat)
  (rate_limit_mode : string) (max_rpm max_tpm : Z) (clk : StartClock)
  (sess : Session) : Session :=
  let p := processor sess in
  let p :=
    Processor.reset num_executors
      (c_reset_qps clk) (c_reset_rpm clk) (c_reset_tpm clk) p in
  let p :=
    Processor.set_rate_limits rate_limit_mode max_rpm max_tpm
      (c_limits_rpm clk) (c_limits_tpm clk) p in
  let p := add_tasks num_tasks p in
  let p := Processor.start (c_start_rpm clk) (c_start_tpm clk) p in
  let t := Timer.start (c_timer clk) (timer sess) in
  mkSession p t 0%N 0%nat 0%Z 0%Z 0%Z 0 [] [] [] [].

(** [lst[-n:]] *)
Definition last_n {A : Type} (n : nat) (l : list A) : list A :=
  skipn (List.length l - n) l.

(** The dictionary returned by [update_metrics]. *)
Record Metrics : Type := mkMetrics {
  m_progress : Processor.Progress;
  m_current_time : Q;
  m_completed_delta : Z;
  m_queue_size_delta : Z;
  m_tpm : Z;
  m_tpm_delta : Z;
  m_rpm : Z;
  m_rpm_delta : Z;
  m_qps : Q;
  m_tokens : Z;
  m_tokens_delta : Z
}.

(** [update_metrics]; [None] is an exception raised by [get_progress],
    after which only the processor has changed. *)
Definition update_metrics (clk : Processor.ProgressClock) (current_time : Q)
  (sess : Session) : Session * option Metrics :=
  let '(p, progress) := Processor.get_progress clk (processor sess) in
  match progress with
  | None =>
      (mkSession p (timer sess) (prev_completed_tasks sess)
         (prev_queue_size sess) (prev_tokens sess) (prev_tpm sess)
         (prev_rpm sess) (prev_qps sess) (tpm_history sess)
         (rpm_history sess) (token_history sess) (metric_times sess),
       None)
  | Some progress =>
      let completed_delta :=
        (Z.of_N (Processor.p_completed progress)
         - Z.of_N (prev_completed_tasks sess))%Z in
      let queue_size_delta :=
        (Z.of_nat (Processor.p_queue_size progress)
         - Z.of_nat (prev_queue_size sess))%Z in
      let tpm := Processor.p_tpm progress in
      let tpm_delta := (tpm - prev_tpm sess)%Z in
      let rpm := Processor.p_rpm progress in
      let rpm_delta := (rpm - prev_rpm sess)%Z in
      let qps := Processor.p_qps progress in
      let tokens := Processor.p_total_tokens progress in
      let tokens_delta := Z.max (tokens - prev_tokens sess) 0 in
      let tpm_history := tpm_history sess ++ [tpm] in
      let rpm_history := rpm_history sess ++ [rpm] in
      let token_history := token_history sess ++ [tokens_delta] in
      let metric_times := metric_times sess ++ [current_time] in
      let trim := (MAX_HISTORY <? List.length tpm_history)%nat in
      (mkSession p (timer sess)
         (Processor.p_completed progress) (Processor.p_queue_size progress)
         tokens tpm rpm qps
         (if trim then last_n MAX_HISTORY tpm_history else tpm_history)
         (if trim then last_n MAX_HISTORY rpm_history else rpm_history)
         (if trim then last_n MAX_HISTORY token_history else token_history)
         (if trim then last_n MAX_HISTORY metric_times else metric_times),
       Some (mkMetrics progress current_time completed_delta
               queue_size_delta tpm tpm_delta rpm rpm_delta qps tokens
               tokens_delta))
  end.

(** [progress_pct] of [render_main_dashboard], computed when
    [progress['total'] > 0]:
    [min(100, int(100 * completed / total))]. *)
Definition progress_pct (progress : Processor.Progress) : option Z :=
  if (0 <? Processor.p_total progress)%N
  then Some (Z.min 100
               (Py.int (inject_Z (100 * Z.of_N (Processor.p_completed progress))
                        / inject_Z (Z.of_N (Processor.p_total progress)))))
  else None.

End App.

(** ** The claims' conditions, in the specification's words, and sample states *)

Module LimiterSpec.
Import RateLimiter.


(** The quota of a window as the specification words it:
    [cap_per_minute * window_size / 60]. *)
Definition request_quota (s : FixedWindowRateLimiter) : Q :=
  inject_Z (max_rpm s) * rpm_window_size s / 60.




(** [K] successive calls [record_request(tokens=T)], one pair of clock
    readings per call. *)
Definition record_requests (calls : list (Q * Q)) (T : Z)
  (s : FixedWindowRateLimiter) : FixedWindowRateLimiter :=
  fold_left (fun acc c => record_request (fst c) (snd c) (Some T) acc) calls s.

(** A limiter with a token cap of 60 per minute that has recorded one
    request of 100 tokens. *)
Definition over_quota : FixedWindowRateLimiter :=
  record_request 0 0 (Some 100%Z) (init 0 60 10 60 0 0).

(** A limiter that has recorded one request at time 0. *)
Definition one_request : FixedWindowRateLimiter :=
  record_request 0 0 None (init 0 0 10 60 0 0).

End LimiterSpec.

Module ProcessorSpec.
Import Processor.

(** The rate over what is left of a history, in the specification's words:
    the amount scaled by [60 / (now - oldest)], truncated to an integer. *)
Definition scaled_rate (amount : Z) (now oldest : Q) : Z :=
  Py.int (inject_Z amount * (60 / (now - oldest))).

(** The rate as the code computes it, in doubles, from the amount as a
    float and the span it covers: the quotient, rounded, times 60, rounded,
    and truncated to an integer. *)
Definition rate_in_doubles (amount span : Q) : Z :=
  Py.int (Py.fmul (Py.fdiv amount span) 60).

(** Sample inputs: one task, and clocks on which every reading of an
    operation falls on the same instant. *)
Definition a_task : Task := mkTask "openai_task" [1%Z].

Definition all_at (t : Q) : WorkerClock := mkWorkerClock t t t t t t t t.

Definition snapshot_at (t : Q) : ProgressClock := mkProgressClock t t t t t t.

(** A processor constructed at time 0, given one task and started. *)
Definition started : BatchProcessor :=
  Processor.start 0 0
    (add_task a_task (Processor.init 2 "unlimited" 0 0 0 0 0 0 0)).

(** The same processor after worker 0 ran the task at time 10 and the task
    returned a record with 42 tokens. *)
Definition after_success : BatchProcessor :=
  _executor_worker_iteration 0 (all_at 10)
    (Returns (Some (mkTaskResult 1 (Some 42%Z)))) started.

(** The same, had the task returned a record with 41 tokens. *)
Definition after_41_tokens : BatchProcessor :=
  _executor_worker_iteration 0 (all_at 10)
    (Returns (Some (mkTaskResult 1 (Some 41%Z)))) started.

(** A processor in limited mode with a cap of 6 requests per minute, that
    is one request per 10 s window, given two tasks and started; and the
    same after worker 0 ran the first task at time 1. *)
Definition started_limited : BatchProcessor :=
  Processor.start 0 0
    (add_task a_task
       (add_task a_task (Processor.init 2 "limited" 6 0 0 0 0 0 0))).

Definition limited_after_one : BatchProcessor :=
  _executor_worker_iteration 0 (all_at 1)
    (Returns (Some (mkTaskResult 1 (Some 42%Z)))) started_limited.

(** Two states agree on the fields no reporting helper writes. *)
Definition same_books (s s' : BatchProcessor) : Prop :=
  task_queue s' = task_queue s
  /\ results s' = results s
  /\ completed_tasks s' = completed_tasks s
  /\ total_tasks s' = total_tasks s
  /\ error_count s' = error_count s
  /\ requeued_tasks s' = requeued_tasks s
  /\ min_tokens s' = min_tokens s
  /\ token_count s' = token_count s
  /\ tpm_window_seconds s' = tpm_window_seconds s
  /\ rpm_window_seconds s' = rpm_window_seconds s.

End ProcessorSpec.

(** ** Conditions used by the further properties *)

Module MoreSpec.
Import RateLimiter Processor.

(** A history is time-ordered: no entry is older than the one before it. *)
Definition time_ordered (d : list Q) : Prop := Sorted Qle d.

Definition usage_time_ordered (d : list (Q * Z)) : Prop :=
  Sorted (fun a b => fst a <= fst b) d.

(** The request-window counter is below quota + 1, when there is a cap. *)
Definition within_request_quota (l : FixedWindowRateLimiter) : Prop :=
  (0 < max_rpm l)%Z ->
  inject_Z (Z.of_N (rpm_window_requests l))
  < inject_Z (max_rpm l) * rpm_window_size l / 60 + 1.

(** Successive calls of [record_request], each with its two clock readings
    and its [tokens] argument. *)
Definition record_all (calls : list (Q * Q * option Z))
  (l : FixedWindowRateLimiter) : FixedWindowRateLimiter :=
  fold_left
    (fun acc c => record_request (fst (fst c)) (snd (fst c)) (snd c) acc)
    calls l.

(** Every submitted task is either still queued or counted as completed. *)
Definition conserved (s : BatchProcessor) : Prop :=
  total_tasks s = (completed_tasks s + N.of_nat (List.length (task_queue s)))%N.

(** The token statistics fit together: without a token-bearing result the
    minimum is infinity and everything else 0; with one, the minimum is at
    most the maximum and the running sum lies between count times the
    minimum and count times the maximum. *)
Definition token_stats_consistent (s : BatchProcessor) : Prop :=
  match min_tokens s with
  | Infinity =>
      token_count s = 0%N /\ total_tokens s = 0%Z /\ max_tokens s = 0%Z
  | Finite m =>
      (0 < token_count s)%N
      /\ (m <= max_tokens s)%Z
      /\ (Z.of_N (token_count s) * m <= total_tokens s)%Z
      /\ (total_tokens s <= Z.of_N (token_count s) * max_tokens s)%Z
  end.


(** A processor whose only task returned a record with [2^53 + 1] tokens,
    one more than the integers a double counts exactly. *)
Definition after_large_result : BatchProcessor :=
  _executor_worker_iteration 0 (ProcessorSpec.all_at 10)
    (Returns (Some (mkTaskResult 1 (Some (2 ^ 53 + 1)%Z))))
    ProcessorSpec.started.

(** A limiter exists exactly in limited mode, and has the default window
    sizes. *)
Definition limiter_matches_mode (s : BatchProcessor) : Prop :=
  match rate_limiter s with
  | Some l =>
      rate_limit_mode s = "limited"%string
      /\ rpm_window_size l = 10 /\ tpm_window_size l = 60
  | None => rate_limit_mode s <> "limited"%string
  end.

(** A step that keeps the mode, keeps a limiter when there is one and does
    not create one, and leaves the limiter's caps and window sizes alone. *)
Definition keeps_limiter_config (s s' : BatchProcessor) : Prop :=
  rate_limit_mode s' = rate_limit_mode s
  /\ match rate_limiter s, rate_limiter s' with
     | None, None => True
     | Some l, Some l' =>
         rpm_window_size l' = rpm_window_size l
         /\ tpm_window_size l' = tpm_window_size l
         /\ max_rpm l' = max_rpm l
         /\ max_tpm l' = max_tpm l
     | _, _ => False
     end.

(** The tasks [(openai_task, i)] for [count] successive [i] from [first]. *)
Definition numbered_tasks (first count : nat) : list Task :=
  map (fun i => mkTask "openai_task" [Z.of_nat i]) (seq first count).

End MoreSpec.

(** ** Facts about the built-ins *)

Module PyFacts.
Import Py.

Lemma ge_true a b : ge a b = true <-> b <= a.
Proof. unfold ge. apply Qle_bool_iff. Qed.

Lemma ge_false a b : ge a b = false <-> a < b.
Proof.
  unfold ge. split; intro H.
  - apply Qnot_le_lt. intro L. apply Qle_bool_iff in L. congruence.
  - destruct (Qle_bool b a) eqn:E; trivial.
    apply Qle_bool_iff in E. lra.
Qed.

Lemma lt_true a b : lt a b = true <-> a < b.
Proof.
  unfold lt. rewrite negb_true_iff. apply (ge_false a b).
Qed.

Lemma lt_false a b : lt a b = false <-> b <= a.
Proof. unfold lt. rewrite negb_false_iff. apply Qle_bool_iff. Qed.

Lemma gt_true a b : gt a b = true <-> b < a.
Proof. unfold gt. rewrite negb_true_iff. apply (ge_false b a). Qed.

Lemma gt_false a b : gt a b = false <-> a <= b.
Proof. unfold gt. rewrite negb_false_iff. apply Qle_bool_iff. Qed.


Lemma popleft_while_split {A : Type} (old : A -> bool) (d : list A) :
  exists gone,
    d = gone ++ popleft_while old d
    /\ Forall (fun x => old x = true) gone
    /\ (forall x rest, popleft_while old d = x :: rest -> old x = false).
Proof.
  induction d as [|x rest IH]; simpl.
  - exists []. repeat split; [constructor | discriminate].
  - destruct (old x) eqn:E.
    + destruct IH as (gone & Hd & Hall & Hhd).
      exists (x :: gone). repeat split.
      * simpl. now rewrite <- Hd.
      * now constructor.
      * exact Hhd.
    + exists []. repeat split; [constructor |].
      intros y r Heq. now inversion Heq; subst.
Qed.




(** *** Rounding to the nearest integer *)

Lemma round_between (m M : Z) (x : Q) :
  inject_Z m <= x -> x <= inject_Z M -> (m <= round x <= M)%Z.
Proof.
  intros Hm HM. unfold round.
  pose proof (Qfloor_le x) as Fl. pose proof (Qlt_floor x) as Fu.
  assert (Lo : (m <= Qfloor x)%Z).
  { rewrite <- (Qfloor_Z m). now apply Qfloor_resp_le. }
  assert (Hi : (Qfloor x <= M)%Z).
  { rewrite <- (Qfloor_Z M). now apply Qfloor_resp_le. }
  assert (Up : inject_Z (Qfloor x) < x -> (Qfloor x + 1 <= M)%Z).
  { intro Hlt. assert (H : inject_Z (Qfloor x) < inject_Z M) by lra.
    rewrite <- Zlt_Qlt in H. lia. }
  destruct (lt (x - inject_Z (Qfloor x)) (1 # 2)) eqn:L1; [lia|].
  apply lt_false in L1.
  assert (Hlt : inject_Z (Qfloor x) < x) by lra.
  specialize (Up Hlt).
  destruct (gt _ _); [lia|]. destruct (Z.even _); lia.
Qed.

Lemma round_le (M : Z) (x : Q) : x <= inject_Z M -> (round x <= M)%Z.
Proof.
  intro H.
  apply (round_between (Qfloor x) M x); [apply Qfloor_le | exact H].
Qed.

Lemma round_ge (m : Z) (x : Q) : inject_Z m <= x -> (m <= round x)%Z.
Proof.
  intro H.
  apply (round_between m (Qceiling x) x); [exact H | apply Qle_ceiling].
Qed.

(** *** Rounding to a double *)

Lemma pow2_pos e : 0 < pow2 e.
Proof. apply Qpower_0_lt. reflexivity. Qed.

Lemma pow2_plus a b : pow2 (a + b) == pow2 a * pow2 b.
Proof. apply Qpower_plus. discriminate. Qed.

Lemma pow2_le a b : (a <= b)%Z -> pow2 a <= pow2 b.
Proof. intro H. apply Qpower_le_compat_l; [exact H | discriminate]. Qed.

Lemma pow2_Z e : (0 <= e)%Z -> pow2 e == inject_Z (2 ^ e).
Proof. intro H. unfold pow2. now rewrite Zpower_Qpower. Qed.

Lemma binade_bounds a b :
  binade a = Some b -> pow2 b <= a /\ a < pow2 (b + 1).
Proof.
  unfold binade.
  set (k := (Z.log2 (Qnum a) - Z.log2 (Z.pos (Qden a)))%Z).
  destruct (Qle_bool (pow2 (k + 1)) a) eqn:E1; [discriminate|].
  destruct (Qle_bool (pow2 k) a) eqn:E2.
  - intro H. inversion H; subst b. split.
    + now apply Qle_bool_iff.
    + now apply (ge_false a (pow2 (k + 1))).
  - destruct (Qle_bool (pow2 (k - 1)) a) eqn:E3; [|discriminate].
    intro H. inversion H; subst b. split.
    + now apply Qle_bool_iff.
    + replace (k - 1 + 1)%Z with k by lia.
      now apply (ge_false a (pow2 k)).
Qed.

(** Rounding to a multiple of [ulp] does not cross a multiple of [ulp]. *)
Lemma round_grid (a ulp : Q) (k : Z) :
  0 < ulp ->
  (a <= inject_Z k * ulp ->
   inject_Z (round (a / ulp)) * ulp <= inject_Z k * ulp)
  /\ (inject_Z k * ulp <= a ->
      inject_Z k * ulp <= inject_Z (round (a / ulp)) * ulp).
Proof.
  intro U. split; intro H.
  - assert (R : (round (a / ulp) <= k)%Z).
    { apply round_le. apply Qle_shift_div_r; assumption. }
    rewrite Zle_Qle in R. nra.
  - assert (R : (k <= round (a / ulp))%Z).
    { apply round_ge. apply Qle_shift_div_l; assumption. }
    rewrite Zle_Qle in R. nra.
Qed.

(** What [double] returns, by the sign of its argument. *)
Lemma double_cases (x : Q) :
  (x == 0 /\ double x = 0)
  \/ (~ x == 0 /\ binade (Qabs x) = None /\ double x = x)
  \/ exists b,
      binade (Qabs x) = Some b
      /\ ((0 < x
           /\ double x
              = inject_Z (round (Qabs x / pow2 (b - 52))) * pow2 (b - 52)
           /\ Qabs x == x)
          \/ (x < 0
              /\ double x
                 = - (inject_Z (round (Qabs x / pow2 (b - 52)))
                      * pow2 (b - 52))
              /\ Qabs x == - x)).
Proof.
  unfold double.
  destruct (Qeq_bool x 0) eqn:Z0.
  - left. apply Qeq_bool_iff in Z0. now split.
  - right. apply Qeq_bool_neq in Z0.
    destruct (binade (Qabs x)) as [b|] eqn:B.
    + right. exists b. split; [reflexivity|].
      destruct (Qle_bool 0 x) eqn:S.
      * left. apply Qle_bool_iff in S.
        repeat split; [lra | now apply Qabs_pos].
      * right. apply (ge_false x 0) in S.
        repeat split; [exact S | apply Qabs_neg; lra].
    + left. now repeat split.
Qed.

(** The significand: in the binade [b] the rounded magnitude stays between
    [2^b] and [2^(b+1)]. *)
Lemma pow2_ulp b : inject_Z (2 ^ 52) * pow2 (b - 52) == pow2 b.
Proof.
  rewrite <- (pow2_Z 52) by lia. rewrite <- pow2_plus.
  now replace (52 + (b - 52))%Z with b by lia.
Qed.

Lemma magnitude_ge (a : Q) (b : Z) :
  pow2 b <= a ->
  pow2 b <= inject_Z (round (a / pow2 (b - 52))) * pow2 (b - 52).
Proof.
  intro H. rewrite <- (pow2_ulp b) at 1.
  apply round_grid; [apply pow2_pos|].
  now rewrite pow2_ulp.
Qed.

Lemma double_zero (x : Q) : double x == 0 <-> x == 0.
Proof.
  destruct (double_cases x) as [[Z0 E] | [(NZ & _ & E) | (b & B & H)]].
  - rewrite E. split; intro; [exact Z0 | reflexivity].
  - rewrite E. tauto.
  - apply binade_bounds in B. destruct B as [Lo _].
    pose proof (magnitude_ge _ _ Lo) as M. pose proof (pow2_pos b) as P.
    destruct H as [(S & E & _) | (S & E & _)]; rewrite E; split; intro; lra.
Qed.

(** The result has a significand of 53 bits: it is [m * 2^(b-52)] with
    [2^52 <= m <= 2^53]. *)
Lemma double_significand (x : Q) (b : Z) :
  ~ x == 0 -> binade (Qabs x) = Some b ->
  exists m : Z,
    (2 ^ 52 <= m <= 2 ^ 53)%Z
    /\ Qabs (double x) == inject_Z m * pow2 (b - 52).
Proof.
  intros NZ B.
  exists (round (Qabs x / pow2 (b - 52))).
  pose proof (pow2_pos (b - 52)) as U.
  pose proof (binade_bounds _ _ B) as [Lo Hi].
  assert (Hi' : Qabs x <= inject_Z (2 ^ 53) * pow2 (b - 52)).
  { rewrite <- (pow2_Z 53) by lia. rewrite <- pow2_plus.
    replace (53 + (b - 52))%Z with (b + 1)%Z by lia. lra. }
  assert (Lo' : inject_Z (2 ^ 52) * pow2 (b - 52) <= Qabs x)
    by now rewrite pow2_ulp.
  assert (M : (2 ^ 52 <= round (Qabs x / pow2 (b - 52)) <= 2 ^ 53)%Z).
  { apply round_between.
    - now apply Qle_shift_div_l.
    - now apply Qle_shift_div_r. }
  split; [exact M|].
  assert (P : 0 <= inject_Z (round (Qabs x / pow2 (b - 52))) * pow2 (b - 52)).
  { apply Qmult_le_0_compat; [|lra].
    change 0 with (inject_Z 0). rewrite <- Zle_Qle. lia. }
  unfold double. destruct (Qeq_bool x 0) eqn:Z0.
  - apply Qeq_bool_iff in Z0. contradiction.
  - rewrite B. destruct (Qle_bool 0 x).
    + now apply Qabs_pos.
    + rewrite Qabs_opp. now apply Qabs_pos.
Qed.

(** It is nearest: it differs from [x] by at most half the spacing. *)
Lemma round_error (y : Q) :
  - (1 # 2) <= inject_Z (round y) - y <= 1 # 2.
Proof.
  unfold round.
  pose proof (Qfloor_le y) as Fl. pose proof (Qlt_floor y) as Fu.
  rewrite inject_Z_plus in Fu. change (inject_Z 1) with 1 in Fu.
  destruct (lt (y - inject_Z (Qfloor y)) (1 # 2)) eqn:L1.
  - apply lt_true in L1. lra.
  - apply lt_false in L1.
    destruct (gt (y - inject_Z (Qfloor y)) (1 # 2)) eqn:L2.
    + rewrite inject_Z_plus. change (inject_Z 1) with 1. lra.
    + apply gt_false in L2. destruct (Z.even (Qfloor y)); [lra|].
      rewrite inject_Z_plus. change (inject_Z 1) with 1. lra.
Qed.

Lemma double_error (x : Q) (b : Z) :
  binade (Qabs x) = Some b ->
  Qabs (double x - x) <= pow2 (b - 53).
Proof.
  intro B. pose proof (pow2_pos (b - 52)) as U.
  assert (H : pow2 (b - 53) * 2 == pow2 (b - 52)).
  { change 2 with (pow2 1). rewrite <- pow2_plus.
    now replace (b - 53 + 1)%Z with (b - 52)%Z by lia. }
  pose proof (round_error (Qabs x / pow2 (b - 52))) as [E1 E2].
  assert (D : Qabs x / pow2 (b - 52) * pow2 (b - 52) == Qabs x)
    by (field; lra).
  set (m := inject_Z (round (Qabs x / pow2 (b - 52)))) in *.
  set (q := Qabs x / pow2 (b - 52)) in *.
  set (u := pow2 (b - 52)) in *. set (h := pow2 (b - 53)) in *.
  apply Qabs_Qle_condition.
  destruct (double_cases x) as [[Z0 E] | [(NZ & N & _) | (b' & B' & C)]].
  - rewrite E. pose proof (pow2_pos (b - 53)). fold h in H0. lra.
  - congruence.
  - rewrite B in B'. inversion B'; subst b'. fold u q m in C.
    destruct C as [(S & E & A) | (S & E & A)]; rewrite E; nra.
Qed.

(** Rounding does not go below a power of two, so what is out of range
    stays out of range when it is multiplied by 60: a quotient that is
    [inf] in the code gives a product that is [inf]. *)
Lemma double_ge_pow2 (x : Q) (e : Z) :
  pow2 e <= Qabs x -> pow2 e <= Qabs (double x).
Proof.
  intro H. pose proof (pow2_pos e) as P.
  destruct (double_cases x) as [[Z0 E] | [(NZ & _ & E) | (b & B & C)]].
  - rewrite Z0 in H. cbn in H. lra.
  - now rewrite E.
  - assert (NZ : ~ x == 0) by (destruct C as [(S & _) | (S & _)]; lra).
    destruct (double_significand x b NZ B) as (m & [M _] & E).
    destruct (binade_bounds _ _ B) as [_ Hi].
    assert (L : (e < b + 1)%Z).
    { apply (Qpower_lt_compat_l_inv 2); [|reflexivity].
      fold (pow2 e) (pow2 (b + 1)). lra. }
    assert (Pb : pow2 e <= pow2 b) by (apply pow2_le; lia).
    rewrite E. rewrite <- (pow2_ulp b) in Pb.
    pose proof (pow2_pos (b - 52)) as U.
    rewrite Zle_Qle in M. nra.
Qed.

Lemma finite_false (x : Q) : finite x = false <-> pow2 1024 <= Qabs x.
Proof.
  unfold finite. rewrite negb_false_iff. apply Qle_bool_iff.
Qed.

Lemma fmul_60_out_of_range (x : Q) :
  finite x = false -> finite (fmul x 60) = false.
Proof.
  rewrite !finite_false. intro H. unfold fmul.
  apply double_ge_pow2. rewrite Qabs_Qmult.
  change (Qabs 60) with 60. pose proof (Qabs_nonneg x). lra.
Qed.

(** The difference of two floats is zero only if they are equal. *)
Lemma fsub_zero (x y : Q) : fsub x y == 0 <-> x - y == 0.
Proof. apply double_zero. Qed.

Lemma double_sign (x : Q) :
  (0 <= x -> 0 <= double x) /\ (x <= 0 -> double x <= 0).
Proof.
  destruct (double_cases x) as [[Z0 E] | [(NZ & _ & E) | (b & B & H)]].
  - rewrite E. split; intro; lra.
  - rewrite E. tauto.
  - apply binade_bounds in B. destruct B as [Lo _].
    pose proof (magnitude_ge _ _ Lo) as M. pose proof (pow2_pos b) as P.
    destruct H as [(S & E & _) | (S & E & _)]; rewrite E; split; intro; lra.
Qed.

(** An integer of magnitude up to [2^53] is a double, and rounding is
    monotone: the rounded magnitude stays on the same side of it. *)
Lemma magnitude_le_int (a : Q) (b N : Z) :
  pow2 b <= a -> (0 <= N <= 2 ^ 53)%Z -> a <= inject_Z N ->
  inject_Z (round (a / pow2 (b - 52))) * pow2 (b - 52) <= inject_Z N.
Proof.
  intros Lo HN H. pose proof (pow2_pos (b - 52)) as U.
  destruct (Z_le_gt_dec b 52) as [Hb|Hb].
  - assert (E : inject_Z N
                == inject_Z (N * 2 ^ (52 - b)) * pow2 (b - 52)).
    { rewrite inject_Z_mult, <- (pow2_Z (52 - b)) by lia.
      rewrite <- Qmult_assoc, <- pow2_plus.
      replace (52 - b + (b - 52))%Z with 0%Z by lia.
      unfold pow2. cbn. ring. }
    rewrite E. apply round_grid; [exact U|]. now rewrite <- E.
  - assert (P53 : pow2 53 <= pow2 b) by (apply pow2_le; lia).
    assert (N53 : inject_Z N <= pow2 53).
    { rewrite (pow2_Z 53) by lia. rewrite <- Zle_Qle. lia. }
    assert (E : inject_Z N == inject_Z (2 ^ 52) * pow2 (b - 52)).
    { rewrite pow2_ulp. lra. }
    rewrite E. apply round_grid; [exact U|]. now rewrite <- E.
Qed.

Lemma magnitude_ge_int (a : Q) (b N : Z) :
  pow2 b <= a -> (0 <= N <= 2 ^ 53)%Z -> inject_Z N <= a ->
  inject_Z N <= inject_Z (round (a / pow2 (b - 52))) * pow2 (b - 52).
Proof.
  intros Lo HN H. pose proof (pow2_pos (b - 52)) as U.
  destruct (Z_le_gt_dec b 52) as [Hb|Hb].
  - assert (E : inject_Z N
                == inject_Z (N * 2 ^ (52 - b)) * pow2 (b - 52)).
    { rewrite inject_Z_mult, <- (pow2_Z (52 - b)) by lia.
      rewrite <- Qmult_assoc, <- pow2_plus.
      replace (52 - b + (b - 52))%Z with 0%Z by lia.
      unfold pow2. cbn. ring. }
    rewrite E at 1. apply round_grid; [exact U|]. now rewrite <- E.
  - assert (P53 : pow2 53 <= pow2 b) by (apply pow2_le; lia).
    assert (N53 : inject_Z N <= pow2 53).
    { rewrite (pow2_Z 53) by lia. rewrite <- Zle_Qle. lia. }
    pose proof (magnitude_ge _ _ Lo) as M. lra.
Qed.

Lemma double_le_int (x : Q) (N : Z) :
  (Z.abs N <= 2 ^ 53)%Z -> x <= inject_Z N -> double x <= inject_Z N.
Proof.
  intros HN H.
  destruct (double_cases x) as [[Z0 E] | [(NZ & _ & E) | (b & B & C)]].
  - rewrite E. lra.
  - now rewrite E.
  - apply binade_bounds in B. destruct B as [Lo _].
    destruct C as [(S & E & A) | (S & E & A)]; rewrite E.
    + apply magnitude_le_int; [exact Lo | | lra].
      assert (0 < inject_Z N) by lra.
      change 0 with (inject_Z 0) in H0. rewrite <- Zlt_Qlt in H0. lia.
    + destruct (Z_le_gt_dec 0 N) as [Hs|Hs].
      * pose proof (magnitude_ge _ _ Lo) as M. pose proof (pow2_pos b) as P.
        rewrite Zle_Qle in Hs. change (inject_Z 0) with 0 in Hs. lra.
      * assert (G : inject_Z (- N)
                    <= inject_Z (round (Qabs x / pow2 (b - 52)))
                       * pow2 (b - 52)).
        { apply magnitude_ge_int; [exact Lo | lia |].
          rewrite inject_Z_opp. lra. }
        rewrite inject_Z_opp in G. lra.
Qed.

Lemma double_ge_int (x : Q) (N : Z) :
  (Z.abs N <= 2 ^ 53)%Z -> inject_Z N <= x -> inject_Z N <= double x.
Proof.
  intros HN H.
  destruct (double_cases x) as [[Z0 E] | [(NZ & _ & E) | (b & B & C)]].
  - rewrite E. lra.
  - now rewrite E.
  - apply binade_bounds in B. destruct B as [Lo _].
    destruct C as [(S & E & A) | (S & E & A)]; rewrite E.
    + destruct (Z_le_gt_dec N 0) as [Hs|Hs].
      * pose proof (magnitude_ge _ _ Lo) as M. pose proof (pow2_pos b) as P.
        rewrite Zle_Qle in Hs. change (inject_Z 0) with 0 in Hs. lra.
      * apply magnitude_ge_int; [exact Lo | lia | lra].
    + assert (G : inject_Z (round (Qabs x / pow2 (b - 52))) * pow2 (b - 52)
                  <= inject_Z (- N)).
      { apply magnitude_le_int; [exact Lo | | rewrite inject_Z_opp; lra].
        assert (inject_Z N < 0) by lra.
        change 0 with (inject_Z 0) in H0. rewrite <- Zlt_Qlt in H0. lia. }
      rewrite inject_Z_opp in G. lra.
Qed.

(** [binade] finds the exponent of every positive number. *)
Lemma binade_total (a : Q) : 0 < a -> binade a <> None.
Proof.
  intro Ha. destruct a as [n d].
  assert (Hn : (0 < n)%Z) by (unfold Qlt in Ha; cbn in Ha; lia).
  unfold binade. cbn [Qnum Qden].
  set (ln := Z.log2 n). set (ld := Z.log2 (Z.pos d)).
  destruct (Z.log2_spec n Hn) as [Ln1 Ln2].
  destruct (Z.log2_spec (Z.pos d) (Pos2Z.is_pos d)) as [Ld1 Ld2].
  fold ln in Ln1, Ln2. fold ld in Ld1, Ld2.
  pose proof (Z.log2_nonneg n) as N0. pose proof (Z.log2_nonneg (Z.pos d)) as D0.
  fold ln in N0. fold ld in D0.
  assert (Qn1 : pow2 ln <= inject_Z n)
    by (rewrite pow2_Z by lia; now rewrite <- Zle_Qle).
  assert (Qn2 : inject_Z n < pow2 (ln + 1)).
  { rewrite pow2_Z by lia. rewrite <- Zlt_Qlt.
    now replace (ln + 1)%Z with (Z.succ ln) by lia. }
  assert (Qd1 : pow2 ld <= inject_Z (Z.pos d))
    by (rewrite pow2_Z by lia; now rewrite <- Zle_Qle).
  assert (Qd2 : inject_Z (Z.pos d) < pow2 (ld + 1)).
  { rewrite pow2_Z by lia. rewrite <- Zlt_Qlt.
    now replace (ld + 1)%Z with (Z.succ ld) by lia. }
  assert (A : (n # d) * inject_Z (Z.pos d) == inject_Z n).
  { unfold Qeq, inject_Z. cbn. lia. }
  assert (K1 : pow2 (ln - ld + 1) * pow2 ld == pow2 (ln + 1)).
  { rewrite <- pow2_plus. now replace (ln - ld + 1 + ld)%Z with (ln + 1)%Z by lia. }
  assert (K2 : pow2 (ln - ld - 1) * pow2 (ld + 1) == pow2 ln).
  { rewrite <- pow2_plus. now replace (ln - ld - 1 + (ld + 1))%Z with ln by lia. }
  pose proof (pow2_pos (ln - ld + 1)) as P1.
  pose proof (pow2_pos (ln - ld - 1)) as P2.
  pose proof (pow2_pos ld) as P3.
  destruct (Qle_bool (pow2 (ln - ld + 1)) (n # d)) eqn:E1.
  - apply Qle_bool_iff in E1. exfalso.
    set (a := n # d) in *. set (x := inject_Z (Z.pos d)) in *.
    set (u := pow2 (ln - ld + 1)) in *. set (v := pow2 ld) in *.
    nra.
  - destruct (Qle_bool (pow2 (ln - ld)) (n # d)); [discriminate|].
    destruct (Qle_bool (pow2 (ln - ld - 1)) (n # d)) eqn:E3; [discriminate|].
    apply (ge_false (n # d)) in E3. exfalso.
    set (a := n # d) in *. set (x := inject_Z (Z.pos d)) in *.
    set (u := pow2 (ln - ld - 1)) in *. set (v := pow2 (ld + 1)) in *.
    nra.
Qed.

End PyFacts.

(** ** Facts about the rate limiter *)

Module RateLimiterFacts.
Import RateLimiter LimiterSpec.

Lemma refresh_config now s :
  max_rpm (_refresh_windows now s) = max_rpm s
  /\ max_tpm (_refresh_windows now s) = max_tpm s
  /\ rpm_window_size (_refresh_windows now s) = rpm_window_size s
  /\ tpm_window_size (_refresh_windows now s) = tpm_window_size s
  /\ current_rpm (_refresh_windows now s) = current_rpm s
  /\ current_tpm (_refresh_windows now s) = current_tpm s.
Proof.
  unfold _refresh_windows.
  destruct (Py.ge (now - rpm_window_start_time s) (rpm_window_size s));
    cbn [set_rpm_window tpm_window_start_time tpm_window_size];
    match goal with |- context [if ?c then _ else _] => destruct c end;
    cbn; repeat split; reflexivity.
Qed.

Lemma refresh_rpm_window now s :
  (rpm_window_size s <= now - rpm_window_start_time s
   -> rpm_window_requests (_refresh_windows now s) = 0%N
      /\ rpm_window_start_time (_refresh_windows now s) = now)
  /\ (now - rpm_window_start_time s < rpm_window_size s
      -> rpm_window_requests (_refresh_windows now s) = rpm_window_requests s
         /\ rpm_window_start_time (_refresh_windows now s)
            = rpm_window_start_time s).
Proof.
  unfold _refresh_windows.
  destruct (Py.ge (now - rpm_window_start_time s) (rpm_window_size s)) eqn:E;
    cbn [set_rpm_window tpm_window_start_time tpm_window_size];
    match goal with |- context [if ?c then _ else _] => destruct c end;
    cbn; split; intro H; try (split; reflexivity).
  all: try (apply PyFacts.ge_true in E; lra).
  all: apply PyFacts.ge_false in E; lra.
Qed.

Lemma refresh_tpm_window now s :
  (tpm_window_size s <= now - tpm_window_start_time s
   -> tpm_window_tokens (_refresh_windows now s) = 0%Z
      /\ tpm_window_start_time (_refresh_windows now s) = now)
  /\ (now - tpm_window_start_time s < tpm_window_size s
      -> tpm_window_tokens (_refresh_windows now s) = tpm_window_tokens s
         /\ tpm_window_start_time (_refresh_windows now s)
            = tpm_window_start_time s).
Proof.
  unfold _refresh_windows.
  destruct (Py.ge (now - rpm_window_start_time s) (rpm_window_size s));
    cbn [set_rpm_window tpm_window_start_time tpm_window_size];
    match goal with |- context [if ?c then _ else _] => destruct c eqn:E end;
    cbn; split; intro H; try (split; reflexivity).
  all: try (apply PyFacts.ge_true in E; lra).
  all: apply PyFacts.ge_false in E; lra.
Qed.

Lemma refresh_histories now s :
  request_timestamps (_refresh_windows now s)
  = Py.popleft_while (fun ts => Py.lt ts (now - 60)) (request_timestamps s)
  /\ token_usage (_refresh_windows now s)
     = Py.popleft_while (fun e => Py.lt (fst e) (now - 60)) (token_usage s).
Proof.
  unfold _refresh_windows.
  destruct (Py.ge (now - rpm_window_start_time s) (rpm_window_size s));
    cbn [set_rpm_window tpm_window_start_time tpm_window_size];
    match goal with |- context [if ?c then _ else _] => destruct c end;
    cbn; split; reflexivity.
Qed.

Lemma should_limit_state now tokens s :
  fst (should_limit now tokens s) = _refresh_windows now s.
Proof.
  unfold should_limit.
  destruct (_calculate_window_limits (_refresh_windows now s)) as [qr qt].
  repeat match goal with |- context [if ?c then _ else _] => destruct c end;
    reflexivity.
Qed.

Lemma get_current_rates_state t1 t2 t3 s :
  fst (get_current_rates t1 t2 t3 s)
  = _calculate_rates t2 (_refresh_windows t1 s).
Proof.
  unfold get_current_rates.
  destruct (_calculate_window_rates t3 _) as [[wr wt]|]; [|reflexivity].
  destruct (_calculate_window_limits _); reflexivity.
Qed.

Lemma limits_after_refresh now s :
  _calculate_window_limits (_refresh_windows now s)
  = _calculate_window_limits s.
Proof.
  unfold _calculate_window_limits.
  destruct (refresh_config now s) as (-> & -> & -> & -> & _).
  reflexivity.
Qed.

Lemma quota_pos (m : Z) (w : Q) :
  (0 < m)%Z -> 0 < w -> 0 < inject_Z m * w / 60.
Proof.
  intros Hm Hw. unfold Qdiv.
  apply Qmult_lt_0_compat; [apply Qmult_lt_0_compat; trivial | reflexivity].
  change 0 with (inject_Z 0). now rewrite <- Zlt_Qlt.
Qed.


Lemma should_limit_bool now tokens s :
  snd (should_limit now tokens s)
  = let s' := _refresh_windows now s in
    let limits := _calculate_window_limits s in
    (Py.gt (fst limits) 0
     && Py.ge (inject_Z (Z.of_N (rpm_window_requests s'))) (fst limits))
    || (Py.gt (snd limits) 0 && Py.truthy tokens
        && match tokens with
           | Some t => Py.gt (inject_Z (tpm_window_tokens s' + t)) (snd limits)
           | None => false
           end).
Proof.
  unfold should_limit. rewrite limits_after_refresh.
  destruct (_calculate_window_limits s) as [qr qt]. cbn [fst snd].
  repeat match goal with
         | |- context [if ?c then _ else _] => destruct c; cbn [snd orb]
         end; reflexivity.
Qed.

Lemma estimate_exceeds tokens (c : Z) (q : Q) :
  Py.truthy tokens
  && match tokens with
     | Some t => Py.gt (inject_Z (c + t)) q
     | None => false
     end = true
  <-> exists t, tokens = Some t /\ t <> 0%Z /\ q < inject_Z (c + t).
Proof.
  destruct tokens as [t|]; cbn [Py.truthy].
  - rewrite andb_true_iff, negb_true_iff, Z.eqb_neq, PyFacts.gt_true.
    split.
    + intros [Hne Hq]. now exists t.
    + intros (t' & E & Hne & Hq). inversion E; subst. now split.
  - cbn. split; [discriminate|]. intros (t & E & _). discriminate.
Qed.

(** The decision of [should_limit] in terms of the quotas the code computes,
    for any window sizes. *)
Lemma should_limit_decision now tokens s :
  snd (should_limit now tokens s) = true <->
  let s' := _refresh_windows now s in
  let limits := _calculate_window_limits s in
  (0 < fst limits
   /\ fst limits <= inject_Z (Z.of_N (rpm_window_requests s')))
  \/ (0 < snd limits
      /\ exists t, tokens = Some t /\ t <> 0%Z
                   /\ snd limits < inject_Z (tpm_window_tokens s' + t)).
Proof.
  rewrite should_limit_bool. cbv zeta.
  rewrite orb_true_iff, andb_true_iff, <- andb_assoc, andb_true_iff.
  rewrite estimate_exceeds, !PyFacts.gt_true, PyFacts.ge_true.
  reflexivity.
Qed.





(** *** Fixed token window: recording and rollover *)

Lemma record_request_token_window t1 t2 (T : Z) s :
  tpm_window_tokens (record_request t1 t2 (Some T) s)
  = (tpm_window_tokens s + T)%Z
  /\ tpm_window_start_time (record_request t1 t2 (Some T) s)
     = tpm_window_start_time s
  /\ tpm_window_size (record_request t1 t2 (Some T) s) = tpm_window_size s.
Proof.
  unfold record_request, Py.truthy.
  destruct (Z.eqb_spec T 0) as [->|Hne]; cbn; repeat split; trivial; lia.
Qed.

Lemma record_requests_token_window calls (T : Z) s :
  tpm_window_tokens (record_requests calls T s)
  = (tpm_window_tokens s + Z.of_nat (List.length calls) * T)%Z
  /\ tpm_window_start_time (record_requests calls T s)
     = tpm_window_start_time s
  /\ tpm_window_size (record_requests calls T s) = tpm_window_size s.
Proof.
  revert s. induction calls as [|c calls IH]; intro s.
  - cbn. repeat split; trivial. lia.
  - change (record_requests (c :: calls) T s)
      with (record_requests calls T (record_request (fst c) (snd c) (Some T) s)).
    destruct (IH (record_request (fst c) (snd c) (Some T) s)) as (-> & -> & ->).
    destruct (record_request_token_window (fst c) (snd c) T s) as (-> & -> & ->).
    repeat split; trivial. cbn [List.length]. lia.
Qed.

Lemma calculate_rates_token_window t s :
  tpm_window_tokens (_calculate_rates t s) = tpm_window_tokens s.
Proof. reflexivity. Qed.

(** C4.  From an empty token window, [K] successive calls
    [record_request(tokens=T)] leave the token-window counter at [K * T] and
    the window's start untouched; the next access, [should_limit] or
    [get_current_rates], at a time [now] zeroes the counter when
    [now - start >= size] and leaves it at [K * T] when [now - start < size]. *)
Theorem token_window_counts_then_resets :
  forall (s : FixedWindowRateLimiter) (calls : list (Q * Q)) (T : Z),
    tpm_window_tokens s = 0%Z ->
    let K := Z.of_nat (List.length calls) in
    let s' := record_requests calls T s in
    tpm_window_tokens s' = (K * T)%Z
    /\ tpm_window_start_time s' = tpm_window_start_time s
    /\ forall (now t_rates t_window : Q) (estimate : option Z),
        (tpm_window_size s <= now - tpm_window_start_time s ->
         tpm_window_tokens (fst (should_limit now estimate s')) = 0%Z
         /\ tpm_window_tokens
              (fst (get_current_rates now t_rates t_window s')) = 0%Z)
        /\ (now - tpm_window_start_time s < tpm_window_size s ->
            tpm_window_tokens (fst (should_limit now estimate s'))
            = (K * T)%Z
            /\ tpm_window_tokens
                 (fst (get_current_rates now t_rates t_window s'))
               = (K * T)%Z).
Proof.
  intros s calls T Hempty K s'.
  destruct (record_requests_token_window calls T s) as (Hc & Hs & Hw).
  fold s' in Hc, Hs, Hw. rewrite Hempty in Hc. cbn [Z.add] in Hc.
  fold K in Hc. repeat split; trivial.
  - rewrite should_limit_state.
    apply (refresh_tpm_window now s'). now rewrite Hs, Hw.
  - rewrite get_current_rates_state, calculate_rates_token_window.
    apply (refresh_tpm_window now s'). now rewrite Hs, Hw.
  - rewrite should_limit_state, <- Hc.
    apply (refresh_tpm_window now s'). now rewrite Hs, Hw.
  - rewrite get_current_rates_state, calculate_rates_token_window, <- Hc.
    apply (refresh_tpm_window now s'). now rewrite Hs, Hw.
Qed.

Lemma token_window_counts_then_resets_witness :
  tpm_window_tokens
    (record_requests [(1, 1); (2, 2); (3, 3)] 7 (init 0 0 10 60 0 0))
  = 21%Z.
Proof.
  apply (token_window_counts_then_resets
           (init 0 0 10 60 0 0) [(1, 1); (2, 2); (3, 3)] 7).
  reflexivity.
Defined.

(** *** What [should_limit] changes *)

(** C5 (as amended).  [should_limit] appends nothing to either sliding
    history and advances no counter: each history loses only a prefix of
    entries older than 60 s, each window counter is either unchanged or
    zeroed by a rollover that restarts its window at [now], and the caps,
    the window sizes and the cached rates are unchanged. *)
Theorem should_limit_only_prunes_and_rolls_over :
  forall (now : Q) (tokens : option Z) (s : FixedWindowRateLimiter),
    let s' := fst (should_limit now tokens s) in
    (exists gone,
        request_timestamps s = gone ++ request_timestamps s'
        /\ Forall (fun ts => ts < now - 60) gone)
    /\ (exists gone,
           token_usage s = gone ++ token_usage s'
           /\ Forall (fun e => fst e < now - 60) gone)
    /\ ((rpm_window_requests s' = rpm_window_requests s
         /\ rpm_window_start_time s' = rpm_window_start_time s)
        \/ (rpm_window_requests s' = 0%N
            /\ rpm_window_start_time s' = now
            /\ rpm_window_size s <= now - rpm_window_start_time s))
    /\ ((tpm_window_tokens s' = tpm_window_tokens s
         /\ tpm_window_start_time s' = tpm_window_start_time s)
        \/ (tpm_window_tokens s' = 0%Z
            /\ tpm_window_start_time s' = now
            /\ tpm_window_size s <= now - tpm_window_start_time s))
    /\ max_rpm s' = max_rpm s /\ max_tpm s' = max_tpm s
    /\ rpm_window_size s' = rpm_window_size s
    /\ tpm_window_size s' = tpm_window_size s
    /\ current_rpm s' = current_rpm s /\ current_tpm s' = current_tpm s.
Proof.
  intros now tokens s s'. unfold s'. rewrite should_limit_state.
  destruct (refresh_histories now s) as [Hts Htu].
  split; [|split; [|split; [|split]]].
  - rewrite Hts.
    destruct (PyFacts.popleft_while_split
                (fun ts => Py.lt ts (now - 60)) (request_timestamps s))
      as (gone & Hd & Hall & _).
    exists gone. split; trivial.
    eapply Forall_impl; [|exact Hall]. intros a Ha.
    now apply PyFacts.lt_true.
  - rewrite Htu.
    destruct (PyFacts.popleft_while_split
                (fun e : Q * Z => Py.lt (fst e) (now - 60)) (token_usage s))
      as (gone & Hd & Hall & _).
    exists gone. split; trivial.
    eapply Forall_impl; [|exact Hall]. intros a Ha.
    now apply PyFacts.lt_true.
  - destruct (refresh_rpm_window now s) as [Hroll Hkeep].
    destruct (Qlt_le_dec (now - rpm_window_start_time s) (rpm_window_size s))
      as [L|L].
    + left. now apply Hkeep.
    + right. destruct (Hroll L). auto.
  - destruct (refresh_tpm_window now s) as [Hroll Hkeep].
    destruct (Qlt_le_dec (now - tpm_window_start_time s) (tpm_window_size s))
      as [L|L].
    + left. now apply Hkeep.
    + right. destruct (Hroll L). auto.
  - destruct (refresh_config now s) as (? & ? & ? & ? & ? & ?). auto 10.
Qed.

(** C5 as stated fails: a request recorded at time 0 is gone from the
    request history after a [should_limit] at time 100. *)
Lemma should_limit_prunes_history :
  request_timestamps one_request = [0]
  /\ request_timestamps (fst (should_limit 100 None one_request)) = []
  /\ request_timestamps (fst (should_limit 100 None one_request))
     <> request_timestamps one_request.
Proof.
  repeat split; try (vm_compute; reflexivity).
  vm_compute. discriminate.
Qed.

End RateLimiterFacts.

(** ** Facts about the batch processor *)

Module ProcessorFacts.
Import Processor ProcessorSpec.

(** *** The parts of the state each helper leaves alone *)

Lemma same_books_refl s : same_books s s.
Proof. unfold same_books. auto 12. Qed.

Lemma same_books_trans s1 s2 s3 :
  same_books s1 s2 -> same_books s2 s3 -> same_books s1 s3.
Proof.
  unfold same_books. intros H1 H2.
  decompose [and] H1. decompose [and] H2.
  repeat split; congruence.
Qed.

Ltac books := unfold same_books; cbn; auto 12.

Lemma calculate_tpm_books now s : same_books s (fst (_calculate_tpm now s)).
Proof.
  unfold _calculate_tpm.
  destruct (token_history s) as [|e h] eqn:E; [apply same_books_refl|].
  cbn [token_history set_token_history].
  destruct (Py.popleft_while _ _) as [|oldest rest]; [books|].
  destruct (Py.float_of_int _); [destruct (Qeq_bool _ _)|]; books.
Qed.

Lemma calculate_rpm_books now s : same_books s (fst (_calculate_rpm now s)).
Proof.
  unfold _calculate_rpm.
  destruct (request_history s) as [|e h] eqn:E; [apply same_books_refl|].
  cbn [request_history set_request_history].
  destruct (Py.popleft_while _ _) as [|oldest rest]; [books|].
  destruct (Py.lt _ _); books.
Qed.

Lemma calculate_qps_books now s : same_books s (fst (_calculate_qps now s)).
Proof.
  unfold _calculate_qps.
  destruct (Py.ge _ _); [|apply same_books_refl].
  destruct (0 <? _)%N; books.
Qed.

Lemma rate_limit_info_books clk s :
  same_books s (fst (progress_rate_limit_info clk s)).
Proof.
  unfold progress_rate_limit_info.
  destruct (limiter_active s) as [l|]; [|apply same_books_refl].
  destruct (RateLimiter.get_current_rates _ _ _ l) as [l' info]. books.
Qed.

Lemma get_progress_books clk s : same_books s (fst (get_progress clk s)).
Proof.
  unfold get_progress.
  destruct (progress_avg_overflows s); [apply same_books_refl|].
  pose proof (rate_limit_info_books clk s) as H1.
  destruct (progress_rate_limit_info clk s) as [s1 [info|]]; cbn [fst] in *;
    [|exact H1].
  pose proof (calculate_tpm_books (t_tpm clk) s1) as H2.
  destruct (_calculate_tpm (t_tpm clk) s1) as [s2 [tpm|]]; cbn [fst] in *;
    [|eapply same_books_trans; eassumption].
  pose proof (calculate_rpm_books (t_rpm clk) s2) as H3.
  destruct (_calculate_rpm (t_rpm clk) s2) as [s3 rpm]; cbn [fst] in *.
  pose proof (calculate_qps_books (t_qps clk) s3) as H4.
  destruct (_calculate_qps (t_qps clk) s3) as [s4 qps]; cbn [fst] in *.
  eauto using same_books_trans.
Qed.

(** *** One worker iteration *)

#[local] Arguments RateLimiter.should_limit : simpl never.
#[local] Arguments RateLimiter.record_request : simpl never.
#[local] Arguments RateLimiter.get_current_rates : simpl never.
#[local] Arguments RateLimiter.reset : simpl never.
#[local] Arguments String.eqb : simpl never.
#[local] Arguments is_rate_limit_error : simpl never.
#[local] Arguments Py.double : simpl never.

(** Case analysis on an innermost scrutinee of the goal. *)
Ltac break_match :=
  match goal with
  | |- context [match ?x with _ => _ end] =>
      lazymatch x with
      | context [match _ with _ => _ end] => fail
      | _ => destruct x eqn:?
      end
  end.

Ltac run_iteration :=
  unfold _executor_worker_iteration, admission_gate, execute_task,
    store_result, requeue, limiter_active;
  repeat (cbn; try break_match).

Lemma iteration_total_tasks executor_id clk exec s :
  total_tasks (_executor_worker_iteration executor_id clk exec s)
  = total_tasks s.
Proof. run_iteration; reflexivity. Qed.

Lemma iteration_window_seconds executor_id clk exec s :
  tpm_window_seconds (_executor_worker_iteration executor_id clk exec s)
  = tpm_window_seconds s
  /\ rpm_window_seconds (_executor_worker_iteration executor_id clk exec s)
     = rpm_window_seconds s.
Proof. run_iteration; split; reflexivity. Qed.

Lemma iteration_token_min executor_id clk exec s :
  (token_count s = 0%N -> min_tokens s = Infinity) ->
  token_count (_executor_worker_iteration executor_id clk exec s) = 0%N ->
  min_tokens (_executor_worker_iteration executor_id clk exec s) = Infinity.
Proof. intro Inv. run_iteration; trivial; lia. Qed.

Lemma iteration_unfold executor_id clk exec s task rest :
  task_queue s = task :: rest ->
  _executor_worker_iteration executor_id clk exec s
  = let '(s1, should_limit) := admission_gate clk (set_task_queue rest s) in
    if should_limit then requeue task s1
    else
      let '(s2, task_result, error, requeued) :=
        execute_task task clk exec s1 in
      if negb requeued
      then store_result executor_id clk task_result
                        (m_end clk - m_start clk) error s2
      else s2.
Proof. intro H. unfold _executor_worker_iteration. now rewrite H. Qed.

(** The gate touches the limiter only, and does not look at the queue. *)
Lemma gate_queue q clk s :
  admission_gate clk (set_task_queue q s)
  = (set_task_queue q (fst (admission_gate clk s)),
     snd (admission_gate clk s)).
Proof.
  unfold admission_gate, limiter_active. cbn.
  repeat break_match; reflexivity.
Qed.

Lemma gate_limiter_only clk s :
  exists rl, fst (admission_gate clk s) = set_rate_limiter rl s.
Proof.
  unfold admission_gate. destruct (limiter_active s) as [l|].
  - destruct (RateLimiter.should_limit _ _ l) as [l' b]. now eexists.
  - exists (rate_limiter s). now destruct s.
Qed.

(** The iteration when the gate refuses the task. *)
Lemma iteration_refused executor_id clk exec s task rest :
  task_queue s = task :: rest ->
  snd (admission_gate clk s) = true ->
  _executor_worker_iteration executor_id clk exec s
  = requeue task (set_task_queue rest (fst (admission_gate clk s))).
Proof.
  intros Hq Hg. rewrite (iteration_unfold _ _ _ _ _ _ Hq), gate_queue, Hg.
  reflexivity.
Qed.

(** The iteration when the gate lets the task through and the call raises. *)
Lemma iteration_raises executor_id clk msg s task rest :
  task_queue s = task :: rest ->
  snd (admission_gate clk s) = false ->
  _executor_worker_iteration executor_id clk (Raises msg) s
  = let s1 := set_task_queue rest (fst (admission_gate clk s)) in
    let s2 := set_query_history (query_history s1 ++ [t_query clk]) s1 in
    let s3 :=
      set_queries_since_last_calculation
        (queries_since_last_calculation s2 + 1)%N s2 in
    if is_rate_limit_error msg then requeue task s3
    else store_result executor_id clk None (m_end clk - m_start clk)
                      (Some msg) s3.
Proof.
  intros Hq Hg. rewrite (iteration_unfold _ _ _ _ _ _ Hq), gate_queue, Hg.
  unfold execute_task. cbv zeta.
  destruct (is_rate_limit_error msg); reflexivity.
Qed.

(** What an iteration does with a task whose call raises, by error text. *)
Lemma iteration_error_paths executor_id clk msg s task rest :
  task_queue s = task :: rest ->
  snd (admission_gate clk s) = false ->
  let s' := _executor_worker_iteration executor_id clk (Raises msg) s in
  (is_rate_limit_error msg = true ->
   task_queue s' = rest ++ [task]
   /\ requeued_tasks s' = (requeued_tasks s + 1)%N
   /\ results s' = results s
   /\ completed_tasks s' = completed_tasks s
   /\ error_count s' = error_count s
   /\ total_tasks s' = total_tasks s)
  /\ (is_rate_limit_error msg = false -> msg <> EmptyString ->
      results s'
      = results s ++ [mkOutcome executor_id None (m_end clk - m_start clk)
                                (Some msg) "error"]
      /\ completed_tasks s' = (completed_tasks s + 1)%N
      /\ error_count s' = (error_count s + 1)%N
      /\ task_queue s' = rest
      /\ requeued_tasks s' = requeued_tasks s)
  /\ (msg = EmptyString ->
      results s'
      = results s ++ [mkOutcome executor_id None (m_end clk - m_start clk)
                                (Some msg) "success"]
      /\ completed_tasks s' = (completed_tasks s + 1)%N
      /\ error_count s' = error_count s
      /\ request_history s' = request_history s ++ [t_request clk]).
Proof.
  intros Hq Hg s'. unfold s'.
  rewrite (iteration_raises _ _ _ _ _ _ Hq Hg).
  destruct (gate_limiter_only clk s) as [rl ->]. cbv zeta.
  split; [|split].
  - intros ->. unfold requeue. cbn. auto 10.
  - intros -> Hne. destruct msg as [|c m]; [congruence|].
    unfold store_result. cbn. auto 10.
  - intros ->. change (is_rate_limit_error "") with false.
    unfold store_result. cbn. auto 10.
Qed.

(** C2, the case the code misses.  A task whose call raises an exception
    with an empty message (as [raise Exception()] does) is not a rate-limit
    failure, yet its outcome is logged with status ['success'],
    [error_count] stays as it was and the failure is stamped into the
    history of successful requests. *)
Theorem empty_error_text_logged_as_success :
  let s' := _executor_worker_iteration 0 (all_at 10) (Raises "") started in
  task_queue started = [a_task]
  /\ snd (admission_gate (all_at 10) started) = false
  /\ is_rate_limit_error "" = false
  /\ results s' = [mkOutcome 0 None 0 (Some EmptyString) "success"]
  /\ completed_tasks s' = 1%N
  /\ error_count s' = 0%N
  /\ request_history s' = [10]
  /\ task_queue s' = [].
Proof. vm_compute. repeat split; reflexivity. Qed.

(** *** Requeues and the two task counters *)

Lemma apply_total_tasks op s :
  (exists task, op = OpAddTask task)
  \/ (total_tasks (apply op s) <= total_tasks s)%N.
Proof.
  destruct op as [task|eid clk exec|t1 t2| |n tq t1 t2|mode mr mt t1 t2|clk];
    cbn [apply].
  - left. now eexists.
  - right. rewrite iteration_total_tasks. lia.
  - right. unfold start. cbn. destruct (rate_limiter s); cbn; lia.
  - right. cbn. lia.
  - right. cbn. lia.
  - right. unfold set_rate_limits. cbn.
    repeat break_match; cbn; lia.
  - right. destruct (get_progress_books clk s) as (_ & _ & _ & -> & _). lia.
Qed.

(** C3.  An iteration that puts its task back, because the admission gate
    refused it or because the call failed with a rate-limit error, adds
    exactly 1 to [requeued_tasks], leaves [total_tasks] alone and appends
    the task at the tail of the queue; [add_task] adds 1 to [total_tasks],
    and no other operation increases it. *)
Theorem requeue_counts_once_total_unchanged :
  (forall (executor_id : nat) (clk : WorkerClock) (exec : Execution)
          (s : BatchProcessor) (task : Task) (rest : list Task),
      task_queue s = task :: rest ->
      snd (admission_gate clk s) = true
      \/ (snd (admission_gate clk s) = false
          /\ exists msg, exec = Raises msg /\ is_rate_limit_error msg = true) ->
      let s' := _executor_worker_iteration executor_id clk exec s in
      requeued_tasks s' = (requeued_tasks s + 1)%N
      /\ total_tasks s' = total_tasks s
      /\ task_queue s' = rest ++ [task])
  /\ (forall (task : Task) (s : BatchProcessor),
         total_tasks (add_task task s) = (total_tasks s + 1)%N)
  /\ (forall (op : Op) (s : BatchProcessor),
         (total_tasks s < total_tasks (apply op s))%N ->
         exists task, op = OpAddTask task).
Proof.
  split; [|split].
  - intros executor_id clk exec s task rest Hq [Hg|(Hg & msg & -> & He)] s';
      unfold s'.
    + rewrite (iteration_refused _ _ _ _ _ _ Hq Hg).
      destruct (gate_limiter_only clk s) as [rl ->].
      unfold requeue. cbn. auto.
    + destruct (iteration_error_paths executor_id clk msg s task rest Hq Hg)
        as (H & _).
      destruct (H He) as (? & ? & _ & _ & _ & ?). auto.
  - intros task s. reflexivity.
  - intros op s Hlt. destruct (apply_total_tasks op s) as [H|H]; [exact H|lia].
Qed.

Lemma requeue_counts_once_total_unchanged_witness :
  (requeued_tasks
     (_executor_worker_iteration 1 (all_at 2) (Raises "") limited_after_one)
   = (requeued_tasks limited_after_one + 1)%N
   /\ total_tasks
        (_executor_worker_iteration 1 (all_at 2) (Raises "") limited_after_one)
      = total_tasks limited_after_one
   /\ task_queue
        (_executor_worker_iteration 1 (all_at 2) (Raises "") limited_after_one)
      = [] ++ [a_task])
  /\ (requeued_tasks
        (_executor_worker_iteration 0 (all_at 10)
           (Raises "Error code: 429 - Rate limit is exceeded") started)
      = (requeued_tasks started + 1)%N
      /\ total_tasks
           (_executor_worker_iteration 0 (all_at 10)
              (Raises "Error code: 429 - Rate limit is exceeded") started)
         = total_tasks started
      /\ task_queue
           (_executor_worker_iteration 0 (all_at 10)
              (Raises "Error code: 429 - Rate limit is exceeded") started)
         = [] ++ [a_task])
  /\ exists task, OpAddTask a_task = OpAddTask task.
Proof.
  destruct requeue_counts_once_total_unchanged as (Hrequeue & _ & Honly).
  split; [|split].
  - apply (Hrequeue 1%nat (all_at 2) (Raises "") limited_after_one a_task []).
    + reflexivity.
    + left. vm_compute. reflexivity.
  - apply (Hrequeue 0%nat (all_at 10)
             (Raises "Error code: 429 - Rate limit is exceeded")
             started a_task []).
    + reflexivity.
    + right. split; [reflexivity|].
      eexists. split; reflexivity.
  - apply (Honly (OpAddTask a_task) started). vm_compute. reflexivity.
Defined.

(** *** [start] *)

(** C8.  [start] zeroes [completed_tasks], [error_count] and
    [requeued_tasks], empties the results log and, when there is a limiter,
    replaces it by its [reset], which has empty histories, zero window
    counters and rates, both windows restarted at the clock readings, and
    the caps and window sizes it had; [total_tasks] and the queue are
    unchanged. *)
Theorem start_resets_run_counters_only :
  forall (t_rpm t_tpm : Q) (s : BatchProcessor),
    let s' := start t_rpm t_tpm s in
    completed_tasks s' = 0%N
    /\ error_count s' = 0%N
    /\ requeued_tasks s' = 0%N
    /\ results s' = []
    /\ rate_limiter s'
       = option_map (RateLimiter.reset t_rpm t_tpm) (rate_limiter s)
    /\ (forall l : RateLimiter.FixedWindowRateLimiter,
           let l' := RateLimiter.reset t_rpm t_tpm l in
           RateLimiter.request_timestamps l' = []
           /\ RateLimiter.token_usage l' = []
           /\ RateLimiter.rpm_window_requests l' = 0%N
           /\ RateLimiter.tpm_window_tokens l' = 0%Z
           /\ RateLimiter.rpm_window_start_time l' = t_rpm
           /\ RateLimiter.tpm_window_start_time l' = t_tpm
           /\ RateLimiter.current_rpm l' = 0%N
           /\ RateLimiter.current_tpm l' = 0%Z
           /\ RateLimiter.max_rpm l' = RateLimiter.max_rpm l
           /\ RateLimiter.max_tpm l' = RateLimiter.max_tpm l
           /\ RateLimiter.rpm_window_size l' = RateLimiter.rpm_window_size l
           /\ RateLimiter.tpm_window_size l' = RateLimiter.tpm_window_size l)
    /\ total_tasks s' = total_tasks s
    /\ task_queue s' = task_queue s.
Proof.
  intros t_rpm t_tpm s s'. unfold s', start. cbn.
  destruct (rate_limiter s) as [l|] eqn:E; cbn; rewrite ?E;
    repeat split; reflexivity.
Qed.

(** *** Invariants of the reachable states *)

Lemma reachable_invariant s :
  reachable s ->
  tpm_window_seconds s = 60
  /\ rpm_window_seconds s = 10
  /\ (token_count s = 0%N -> min_tokens s = Infinity).
Proof.
  induction 1 as [|op s Hs (IHt & IHr & IHm) He].
  - cbn. auto.
  - destruct op as [task|eid clk exec|t1 t2| |n tq t1 t2|mode mr mt t1 t2|clk];
    cbn [apply].
    + cbn. auto.
    + destruct (iteration_window_seconds eid clk exec s) as [-> ->].
      repeat split; trivial. now apply iteration_token_min.
    + unfold start. cbn. destruct (rate_limiter s); cbn; auto.
    + cbn. auto.
    + cbn. auto.
    + unfold set_rate_limits. cbn. repeat break_match; cbn; auto.
    + destruct (get_progress_books clk s)
        as (_ & _ & _ & _ & _ & _ & -> & -> & -> & ->). auto.
Qed.

Lemma reachable_started : reachable started.
Proof.
  apply (reachable_step (OpStart 0 0)); [|reflexivity].
  apply (reachable_step (OpAddTask a_task)); [|reflexivity].
  apply reachable_init.
Qed.

(** *** Token statistics in a progress snapshot *)

Lemma get_progress_token_stats clk s p :
  snd (get_progress clk s) = Some p ->
  p_min_tokens p = progress_min_tokens s
  /\ p_avg_tokens p = progress_avg_tokens s.
Proof.
  unfold get_progress.
  destruct (progress_avg_overflows s); [discriminate|].
  destruct (progress_rate_limit_info clk s) as [s1 [info|]];
    [|discriminate].
  destruct (_calculate_tpm (t_tpm clk) s1) as [s2 [tpm|]]; [|discriminate].
  destruct (_calculate_rpm (t_rpm clk) s2) as [s3 rpm].
  destruct (_calculate_qps (t_qps clk) s3) as [s4 qps].
  cbn [snd]. intro E. inversion E; subst. cbn. auto.
Qed.

(** C10.  In every reachable state with [token_count = 0] the minimum and
    the average that [get_progress] reports are both 0, although
    [min_tokens] itself is then infinity; in every state whatsoever the
    reported minimum is not infinity; and these two values are what a
    snapshot carries in its [min_tokens] and [avg_tokens] entries. *)
Theorem progress_reports_zero_min_without_tokens :
  (forall s : BatchProcessor,
      reachable s -> token_count s = 0%N ->
      min_tokens s = Infinity
      /\ progress_min_tokens s = Finite 0
      /\ progress_avg_tokens s = 0%Z)
  /\ (forall s : BatchProcessor, progress_min_tokens s <> Infinity)
  /\ (forall (clk : ProgressClock) (s : BatchProcessor) (p : Progress),
         snd (get_progress clk s) = Some p ->
         p_min_tokens p = progress_min_tokens s
         /\ p_avg_tokens p = progress_avg_tokens s
         /\ p_min_tokens p <> Infinity).
Proof.
  split; [|split].
  - intros s Hs Hc. destruct (reachable_invariant s Hs) as (_ & _ & Hm).
    unfold progress_min_tokens, progress_avg_tokens.
    rewrite (Hm Hc), Hc. auto.
  - intro s. unfold progress_min_tokens. destruct (min_tokens s); discriminate.
  - intros clk s p Hp.
    destruct (get_progress_token_stats clk s p Hp) as [Hmin Havg].
    repeat split; trivial. rewrite Hmin.
    unfold progress_min_tokens. destruct (min_tokens s); discriminate.
Qed.

Lemma progress_reports_zero_min_without_tokens_witness :
  (min_tokens started = Infinity
   /\ progress_min_tokens started = Finite 0
   /\ progress_avg_tokens started = 0%Z)
  /\ exists p,
      snd (get_progress (snapshot_at 1) started) = Some p
      /\ p_min_tokens p = progress_min_tokens started
      /\ p_avg_tokens p = progress_avg_tokens started
      /\ p_min_tokens p <> Infinity.
Proof.
  destruct progress_reports_zero_min_without_tokens as (Hzero & _ & Hsnap).
  split.
  - apply (Hzero started reachable_started). reflexivity.
  - eexists. split; [vm_compute; reflexivity|].
    apply (Hsnap (snapshot_at 1) started). vm_compute. reflexivity.
Defined.

(** *** Sliding-window rates of a progress snapshot *)

(** [_calculate_rpm] in terms of the history it reads. *)
Lemma calculate_rpm_cases now s :
  let h := Py.popleft_while
             (fun ts => Py.lt ts (Py.fsub now (rpm_window_seconds s)))
             (request_history s) in
  request_history (fst (_calculate_rpm now s)) = h
  /\ (h = [] -> snd (_calculate_rpm now s) = 0%Z)
  /\ (forall oldest rest, h = oldest :: rest ->
        (1 <= Py.fsub now oldest ->
         snd (_calculate_rpm now s)
         = rate_in_doubles
             (Py.float_of_count (Z.of_nat (List.length h)))
             (Py.fsub now oldest))
        /\ (Py.fsub now oldest < 1 -> snd (_calculate_rpm now s) = 0%Z)).
Proof.
  intro h. unfold h, _calculate_rpm.
  destruct (request_history s) as [|e hist] eqn:E.
  - cbn. rewrite E. repeat split; trivial; discriminate.
  - cbn [request_history set_request_history].
    destruct (Py.popleft_while _ (e :: hist)) as [|oldest rest] eqn:P.
    + cbn. repeat split; trivial; discriminate.
    + destruct (Py.lt (Py.fsub now oldest) 1) eqn:L;
        cbn [fst snd request_history];
        (split; [reflexivity | split; [discriminate|]]);
        intros o r Heq; inversion Heq; subst o r.
      * apply PyFacts.lt_true in L. split; [intro; lra | reflexivity].
      * apply PyFacts.lt_false in L.
        split; [intros _; reflexivity | intro; lra].
Qed.

(** [_calculate_tpm] in terms of the history it reads: the sum of what is
    left must convert to a float, the span must not be zero and the rate
    must stay in range, or the helper raises. *)
Lemma calculate_tpm_cases now s :
  let h := Py.popleft_while
             (fun e => Py.lt (fst e) (Py.fsub now (tpm_window_seconds s)))
             (token_history s) in
  token_history (fst (_calculate_tpm now s)) = h
  /\ (h = [] -> snd (_calculate_tpm now s) = Some 0%Z)
  /\ (forall oldest rest, h = oldest :: rest ->
        let span := Py.fsub now (fst oldest) in
        (Py.float_of_int (Py.sum_tokens h) = None ->
         snd (_calculate_tpm now s) = None)
        /\ (forall amount,
              Py.float_of_int (Py.sum_tokens h) = Some amount ->
              (now - fst oldest == 0 -> snd (_calculate_tpm now s) = None)
              /\ (~ now - fst oldest == 0 ->
                  snd (_calculate_tpm now s)
                  = Py.int_of_float (Py.fmul (Py.fdiv amount span) 60)))).
Proof.
  intro h. unfold h, _calculate_tpm.
  destruct (token_history s) as [|e hist] eqn:E.
  - cbn. rewrite E. repeat split; trivial; discriminate.
  - cbn [token_history set_token_history].
    destruct (Py.popleft_while _ (e :: hist)) as [|oldest rest] eqn:P.
    + cbn. repeat split; trivial; discriminate.
    + split; [|split; [discriminate|]].
      * destruct (Py.float_of_int _); [destruct (Qeq_bool _ _)|]; reflexivity.
      * intros o r Heq; inversion Heq; subst o r. cbv zeta.
        destruct (Py.float_of_int (Py.sum_tokens (oldest :: rest)))
          as [amount|]; (split; [|intros a Ha]); try discriminate;
          [|reflexivity].
        inversion Ha; subst a.
        destruct (Qeq_bool (Py.fsub now (fst oldest)) 0) eqn:Z0;
          cbn [snd].
        -- apply Qeq_bool_iff in Z0. rewrite PyFacts.fsub_zero in Z0.
           split; [reflexivity | intro; contradiction].
        -- apply Qeq_bool_neq in Z0. rewrite PyFacts.fsub_zero in Z0.
           split; [intro; contradiction | reflexivity].
Qed.

Lemma calculate_tpm_reads now s1 s2 :
  token_history s1 = token_history s2 ->
  tpm_window_seconds s1 = tpm_window_seconds s2 ->
  snd (_calculate_tpm now s1) = snd (_calculate_tpm now s2).
Proof.
  intros Hh Hw. unfold _calculate_tpm. rewrite Hh, Hw.
  destruct (token_history s2) as [|e hist]; [reflexivity|].
  cbn [token_history set_token_history].
  destruct (Py.popleft_while _ (e :: hist)); [reflexivity|].
  destruct (Py.float_of_int _); [destruct (Qeq_bool _ _)|]; reflexivity.
Qed.

Lemma calculate_rpm_reads now s1 s2 :
  request_history s1 = request_history s2 ->
  rpm_window_seconds s1 = rpm_window_seconds s2 ->
  snd (_calculate_rpm now s1) = snd (_calculate_rpm now s2).
Proof.
  intros Hh Hw. unfold _calculate_rpm. rewrite Hh, Hw.
  destruct (request_history s2) as [|e hist]; [reflexivity|].
  cbn [request_history set_request_history].
  destruct (Py.popleft_while _ (e :: hist)); [reflexivity|].
  destruct (Py.lt _ _); reflexivity.
Qed.

Lemma rate_limit_info_histories clk s :
  token_history (fst (progress_rate_limit_info clk s)) = token_history s
  /\ request_history (fst (progress_rate_limit_info clk s))
     = request_history s.
Proof.
  unfold progress_rate_limit_info.
  destruct (limiter_active s) as [l|]; [|auto].
  destruct (RateLimiter.get_current_rates _ _ _ l) as [l' info]. cbn. auto.
Qed.

Lemma calculate_tpm_request_history now s :
  request_history (fst (_calculate_tpm now s)) = request_history s.
Proof.
  unfold _calculate_tpm.
  destruct (token_history s) as [|e h]; [reflexivity|].
  cbn [token_history set_token_history].
  destruct (Py.popleft_while _ _) as [|oldest rest]; [reflexivity|].
  destruct (Py.float_of_int _); [destruct (Qeq_bool _ _)|]; reflexivity.
Qed.

(** The [tpm] and [rpm] entries of a snapshot are the results of the two
    helpers on the state [get_progress] was called in. *)
Lemma get_progress_rates clk s p :
  snd (get_progress clk s) = Some p ->
  snd (_calculate_tpm (t_tpm clk) s) = Some (p_tpm p)
  /\ snd (_calculate_rpm (t_rpm clk) s) = p_rpm p.
Proof.
  unfold get_progress.
  destruct (progress_avg_overflows s); [discriminate|].
  pose proof (rate_limit_info_histories clk s) as [Ht Hr].
  pose proof (rate_limit_info_books clk s)
    as (_ & _ & _ & _ & _ & _ & _ & _ & Wt & Wr).
  destruct (progress_rate_limit_info clk s) as [s1 [info|]];
    [|discriminate].
  cbn [fst] in *.
  pose proof (calculate_tpm_request_history (t_tpm clk) s1) as Hr2.
  pose proof (calculate_tpm_books (t_tpm clk) s1)
    as (_ & _ & _ & _ & _ & _ & _ & _ & _ & Wr2).
  rewrite <- (calculate_tpm_reads (t_tpm clk) s1 s Ht Wt).
  destruct (_calculate_tpm (t_tpm clk) s1) as [s2 [tpm|]]; [|discriminate].
  cbn [fst snd] in *.
  assert (Hrpm : snd (_calculate_rpm (t_rpm clk) s2)
                 = snd (_calculate_rpm (t_rpm clk) s))
    by (apply calculate_rpm_reads; congruence).
  destruct (_calculate_rpm (t_rpm clk) s2) as [s3 rpm].
  destruct (_calculate_qps (t_qps clk) s3) as [s4 qps].
  cbn [snd] in *. intro E. inversion E; subst. cbn. auto.
Qed.

(** C6 (as amended).  In a reachable state the two helpers prune, from the
    head, the entries older than 10 s (requests) and 60 s (tokens) and keep
    the rest as the history.  An empty rest gives 0.  Otherwise, with
    [oldest] the first entry left and [span] the double [now - oldest]: the
    request rate is 0 when [span < 1], and when [span >= 1] it is the count
    of entries left divided by [span], times 60, computed in doubles and
    truncated; the token rate is the sum of the amounts left divided by
    [span], times 60, computed in doubles and truncated, when [now] is not
    [oldest] and the sum and the rate are in the range of a double.  The
    [rpm] and [tpm] entries of a snapshot are these results. *)
Theorem snapshot_rates_scale_by_covered_span :
  (forall (now : Q) (s : BatchProcessor),
      reachable s ->
      let hr := Py.popleft_while (fun ts => Py.lt ts (Py.fsub now 10))
                                 (request_history s) in
      let ht := Py.popleft_while (fun e => Py.lt (fst e) (Py.fsub now 60))
                                 (token_history s) in
      request_history (fst (_calculate_rpm now s)) = hr
      /\ (hr = [] -> snd (_calculate_rpm now s) = 0%Z)
      /\ (forall oldest rest, hr = oldest :: rest ->
            (1 <= Py.fsub now oldest ->
             snd (_calculate_rpm now s)
             = rate_in_doubles
                 (Py.float_of_count (Z.of_nat (List.length hr)))
                 (Py.fsub now oldest))
            /\ (Py.fsub now oldest < 1 -> snd (_calculate_rpm now s) = 0%Z))
      /\ token_history (fst (_calculate_tpm now s)) = ht
      /\ (ht = [] -> snd (_calculate_tpm now s) = Some 0%Z)
      /\ (forall oldest rest amount, ht = oldest :: rest ->
            Py.float_of_int (Py.sum_tokens ht) = Some amount ->
            ~ now - fst oldest == 0 ->
            Py.finite
              (Py.fmul (Py.fdiv amount (Py.fsub now (fst oldest))) 60)
            = true ->
            snd (_calculate_tpm now s)
            = Some (rate_in_doubles amount (Py.fsub now (fst oldest)))))
  /\ (forall (clk : ProgressClock) (s : BatchProcessor) (p : Progress),
         snd (get_progress clk s) = Some p ->
         snd (_calculate_tpm (t_tpm clk) s) = Some (p_tpm p)
         /\ snd (_calculate_rpm (t_rpm clk) s) = p_rpm p).
Proof.
  split; [|exact get_progress_rates].
  intros now s Hs.
  destruct (reachable_invariant s Hs) as (Wt & Wr & _).
  pose proof (calculate_rpm_cases now s) as Hr.
  pose proof (calculate_tpm_cases now s) as Ht.
  rewrite Wr in Hr. rewrite Wt in Ht. cbv zeta in *.
  destruct Hr as (Hr1 & Hr2 & Hr3). destruct Ht as (Ht1 & Ht2 & Ht3).
  repeat (split; trivial).
  intros oldest rest amount Heq Ha Hne Hfin.
  destruct (Ht3 oldest rest Heq) as [_ H].
  destruct (H amount Ha) as [_ Hv]. rewrite (Hv Hne).
  unfold Py.int_of_float. now rewrite Hfin.
Qed.

Lemma reachable_after_success : reachable after_success.
Proof.
  apply (reachable_step
           (OpWorker 0 (all_at 10)
                     (Returns (Some (mkTaskResult 1 (Some 42%Z)))))
           started reachable_started).
  reflexivity.
Qed.

Lemma reachable_after_41_tokens : reachable after_41_tokens.
Proof.
  apply (reachable_step
           (OpWorker 0 (all_at 10)
                     (Returns (Some (mkTaskResult 1 (Some 41%Z)))))
           started reachable_started).
  reflexivity.
Qed.

Lemma snapshot_rates_scale_by_covered_span_witness :
  snd (_calculate_rpm 13 after_success)
  = rate_in_doubles (Py.float_of_count 1) (Py.fsub 13 10)
  /\ snd (_calculate_tpm 15 after_41_tokens)
     = Some (rate_in_doubles (Py.double 41) (Py.fsub 15 10))
  /\ rate_in_doubles (Py.double 41) (Py.fsub 15 10) = 491%Z
  /\ exists p,
      snd (get_progress (snapshot_at 13) after_success) = Some p
      /\ snd (_calculate_tpm 13 after_success) = Some (p_tpm p)
      /\ snd (_calculate_rpm 13 after_success) = p_rpm p.
Proof.
  destruct snapshot_rates_scale_by_covered_span as [Hcalc Hsnap].
  destruct (Hcalc 13 after_success reachable_after_success)
    as (_ & _ & Hr & _).
  destruct (Hcalc 15 after_41_tokens reachable_after_41_tokens)
    as (_ & _ & _ & _ & _ & Ht).
  split; [|split; [|split]].
  - apply (Hr 10 []); [reflexivity | vm_compute; discriminate].
  - apply (Ht (10, 41%Z) []);
      [reflexivity | reflexivity | vm_compute; discriminate
      | vm_compute; reflexivity].
  - vm_compute. reflexivity.
  - assert (Hp : exists p,
               snd (get_progress (snapshot_at 13) after_success) = Some p)
      by (eexists; vm_compute; reflexivity).
    destruct Hp as [p Hp]. exists p. split; [exact Hp|].
    now apply (Hsnap (snapshot_at 13) after_success).
Defined.

(** C6 as stated fails in two ways.  For the request rate: half a second
    after the only request in the history, the history left is not empty,
    the scaled count would be 120, and [_calculate_rpm] returns 0.  For the
    value: with 41 tokens recorded 5 s ago the scaled sum is 492, and
    [_calculate_tpm] returns 491, the quotient 41 / 5 being rounded to a
    double before it is multiplied by 60. *)
Lemma rpm_is_zero_within_first_second :
  (Py.popleft_while (fun ts => Py.lt ts (Py.fsub (21 # 2) 10))
                    (request_history after_success) = [10]
   /\ scaled_rate 1 (21 # 2) 10 = 120%Z
   /\ snd (_calculate_rpm (21 # 2) after_success) = 0%Z
   /\ snd (_calculate_rpm (21 # 2) after_success)
      <> scaled_rate (Z.of_nat (List.length [10])) (21 # 2) 10)
  /\ (Py.popleft_while (fun e => Py.lt (fst e) (Py.fsub 15 60))
                       (token_history after_41_tokens) = [(10, 41%Z)]
      /\ scaled_rate (Py.sum_tokens [(10, 41%Z)]) 15 10 = 492%Z
      /\ snd (_calculate_tpm 15 after_41_tokens) = Some 491%Z).
Proof.
  repeat split; try (vm_compute; reflexivity).
  vm_compute. discriminate.
Qed.

(** *** Division by zero in the token rate *)

(** C9, the failing run.  After a task has returned 42 tokens, stamped at
    time 10, a snapshot whose clock still reads 10 finds a non-empty pruned
    token history, a zero divisor, and [_calculate_tpm] raises
    [ZeroDivisionError], which [get_progress] lets through. *)
Theorem tpm_divides_by_zero_at_same_instant :
  reachable after_success
  /\ token_history after_success = [(10, 42%Z)]
  /\ Py.popleft_while
       (fun e => Py.lt (fst e) (10 - tpm_window_seconds after_success))
       (token_history after_success) = [(10, 42%Z)]
  /\ 10 - fst (10, 42%Z) == 0
  /\ snd (_calculate_tpm 10 after_success) = None
  /\ snd (get_progress (snapshot_at 10) after_success) = None.
Proof.
  split; [exact reachable_after_success|].
  repeat split; vm_compute; reflexivity.
Qed.

(** *** Queries per second *)

(** C7 (as amended).  With [elapsed] the double
    [now - last_qps_calculation_time]: when [elapsed >= 0.1],
    [_calculate_qps] caches the double
    [queries_since_last_calculation / elapsed], zeroes the query counter and
    sets the last-calculation time to [now]; when [elapsed < 0.1] it changes
    nothing.  In both cases it returns the cached value rounded to two
    decimal places. *)
Theorem qps_recomputed_after_a_tenth_of_a_second :
  forall (now : Q) (s : BatchProcessor),
    let elapsed := Py.fsub now (last_qps_calculation_time s) in
    let s' := fst (_calculate_qps now s) in
    (Py.double (1 # 10) <= elapsed ->
     instantaneous_qps s'
     == Py.fdiv
          (Py.float_of_count (Z.of_N (queries_since_last_calculation s)))
          elapsed
     /\ queries_since_last_calculation s' = 0%N
     /\ last_qps_calculation_time s' = now)
    /\ (elapsed < Py.double (1 # 10) -> s' = s)
    /\ snd (_calculate_qps now s) = Py.round2 (instantaneous_qps s').
Proof.
  intros now s elapsed s'. unfold s', elapsed, _calculate_qps.
  set (tenth := Py.double (1 # 10)).
  destruct (Py.ge (Py.fsub now (last_qps_calculation_time s)) tenth) eqn:G.
  - apply PyFacts.ge_true in G.
    split; [|split; [intro; lra | reflexivity]].
    intros _. destruct (N.ltb_spec 0 (queries_since_last_calculation s)).
    + cbn [fst instantaneous_qps queries_since_last_calculation
             last_qps_calculation_time set_instantaneous_qps
             set_queries_since_last_calculation
             set_last_qps_calculation_time].
      repeat split; reflexivity.
    + cbn [fst instantaneous_qps queries_since_last_calculation
             last_qps_calculation_time set_instantaneous_qps
             set_queries_since_last_calculation
             set_last_qps_calculation_time].
      replace (queries_since_last_calculation s) with 0%N by lia.
      repeat split; trivial.
  - apply PyFacts.ge_false in G.
    split; [intro; lra | split; [reflexivity | reflexivity]].
Qed.

Lemma qps_recomputed_after_a_tenth_of_a_second_witness :
  (instantaneous_qps (fst (_calculate_qps 40 after_success))
   == Py.fdiv
        (Py.float_of_count
           (Z.of_N (queries_since_last_calculation after_success)))
        (Py.fsub 40 (last_qps_calculation_time after_success))
   /\ queries_since_last_calculation (fst (_calculate_qps 40 after_success))
      = 0%N
   /\ last_qps_calculation_time (fst (_calculate_qps 40 after_success)) = 40)
  /\ fst (_calculate_qps (1 # 16) after_success) = after_success
  /\ snd (_calculate_qps 40 after_success)
     = Py.round2 (instantaneous_qps (fst (_calculate_qps 40 after_success)))
  /\ snd (_calculate_qps 40 after_success) == Py.double (3 # 100).
Proof.
  split; [|split; [|split]].
  - apply (qps_recomputed_after_a_tenth_of_a_second 40 after_success).
    vm_compute. discriminate.
  - apply (qps_recomputed_after_a_tenth_of_a_second (1 # 16) after_success).
    vm_compute. reflexivity.
  - apply (qps_recomputed_after_a_tenth_of_a_second 40 after_success).
  - vm_compute. reflexivity.
Defined.

(** C7 as stated fails on the value returned: with the double nearest to
    1/13 cached, a call 0.0625 s after the last calculation returns 0.08,
    not the cached value. *)
Lemma qps_returns_rounded_cache :
  let cached := fst (_calculate_qps 13 after_success) in
  instantaneous_qps cached == Py.double (1 # 13)
  /\ Py.fsub (209 # 16) (last_qps_calculation_time cached)
     < Py.double (1 # 10)
  /\ snd (_calculate_qps (209 # 16) cached) == Py.double (8 # 100)
  /\ ~ snd (_calculate_qps (209 # 16) cached) == instantaneous_qps cached.
Proof.
  repeat split; try (vm_compute; reflexivity).
  vm_compute. discriminate.
Qed.

End ProcessorFacts.

(** ** Further properties: error texts *)

Module ErrorTextFacts.
Import Processor.

Local Open Scope string_scope.

Lemma prefix_iff (p s : string) :
  prefix p s = true <-> exists b, s = p ++ b.
Proof.
  revert s. induction p as [|c p IH]; intro s.
  - split; [intros _; now exists s | intros _; now destruct s].
  - destruct s as [|d s]; cbn.
    + split; [discriminate | intros [b Hb]; discriminate].
    + destruct (Ascii.ascii_dec c d) as [->|Hne].
      * rewrite IH. split; intros [b Hb]; exists b; congruence.
      * split; [discriminate|]. intros [b Hb]. congruence.
Qed.

Lemma contains_iff (needle hay : string) :
  Py.contains needle hay = true <-> exists a b, hay = a ++ needle ++ b.
Proof.
  induction hay as [|c hay IH].
  - cbn [Py.contains]. rewrite prefix_iff. split.
    + intros [b Hb]. now exists "", b.
    + intros (a & b & H). destruct a; [now exists b | discriminate].
  - cbn [Py.contains]. rewrite orb_true_iff, prefix_iff, IH. split.
    + intros [[b Hb]|(a & b & H)].
      * now exists "", b.
      * exists (String c a), b. cbn. now rewrite H.
    + intros (a & b & H). destruct a as [|d a].
      * left. now exists b.
      * right. exists a, b. cbn in H. congruence.
Qed.

Lemma append_assoc (a b c : string) : (a ++ b) ++ c = a ++ (b ++ c).
Proof. induction a as [|x a IH]; cbn; [reflexivity | now rewrite IH]. Qed.

Lemma lower_app (a b : string) :
  Py.lower (a ++ b) = Py.lower a ++ Py.lower b.
Proof. induction a as [|c a IH]; cbn; [reflexivity | now rewrite IH]. Qed.

(** X1.  An error text is taken for a rate-limit rejection exactly when it
    has ["429"] as a substring and its lower-cased form has ["rate limit"]
    as a substring; so the two markers may come in either order, anywhere in
    the text, and the words in any mix of upper and lower case. *)
Theorem rate_limit_error_iff_both_markers :
  (forall msg : string,
      is_rate_limit_error msg = true
      <-> (exists a b, msg = a ++ "429" ++ b)
          /\ (exists a b, Py.lower msg = a ++ "rate limit" ++ b))
  /\ (forall a b c words : string,
         Py.lower words = "rate limit" ->
         is_rate_limit_error (a ++ "429" ++ b ++ words ++ c) = true
         /\ is_rate_limit_error (a ++ words ++ b ++ "429" ++ c) = true).
Proof.
  assert (Hiff : forall msg : string,
             is_rate_limit_error msg = true
             <-> (exists a b, msg = a ++ "429" ++ b)
                 /\ (exists a b, Py.lower msg = a ++ "rate limit" ++ b)).
  { intro msg. unfold is_rate_limit_error.
    now rewrite andb_true_iff, !contains_iff. }
  split; [exact Hiff|].
  intros a b c words Hw. split; apply Hiff; split.
  - now exists a, (b ++ words ++ c).
  - exists (Py.lower (a ++ "429" ++ b)), (Py.lower c).
    rewrite <- Hw, <- !lower_app. f_equal.
    now rewrite <- !append_assoc.
  - exists (a ++ words ++ b), c. now rewrite <- !append_assoc.
  - exists (Py.lower a), (Py.lower (b ++ "429" ++ c)).
    now rewrite <- Hw, <- !lower_app.
Qed.

Lemma rate_limit_error_iff_both_markers_witness :
  is_rate_limit_error
    ("HTTP " ++ "429" ++ ": " ++ "Rate LIMIT" ++ " reached") = true
  /\ is_rate_limit_error
       ("HTTP " ++ "Rate LIMIT" ++ ": " ++ "429" ++ " reached") = true.
Proof.
  destruct rate_limit_error_iff_both_markers as [_ H].
  apply (H "HTTP " ": " " reached" "Rate LIMIT"). reflexivity.
Defined.

End ErrorTextFacts.

(** ** Further properties: the rate limiter *)

Module LimiterBehaviour.
Import RateLimiter LimiterSpec MoreSpec.



(** Pruning a time-ordered history from the head removes every old entry. *)
Lemma popleft_while_sorted {A : Type} (key : A -> Q) (c : Q) (d : list A) :
  Sorted (fun a b => key a <= key b) d ->
  Py.popleft_while (fun e => Py.lt (key e) c) d
  = filter (fun e => Py.ge (key e) c) d.
Proof.
  intro S. apply Sorted_StronglySorted in S.
  2:{ intros x y z Hxy Hyz. eapply Qle_trans; eassumption. }
  induction S as [|x d S IH Hall]; [reflexivity|].
  cbn [Py.popleft_while filter].
  destruct (Py.lt (key x) c) eqn:L.
  - apply PyFacts.lt_true in L.
    assert (G : Py.ge (key x) c = false) by now apply PyFacts.ge_false.
    rewrite G. exact IH.
  - apply PyFacts.lt_false in L.
    assert (G : Py.ge (key x) c = true) by now apply PyFacts.ge_true.
    rewrite G. f_equal. symmetry. apply forallb_filter_id.
    apply forallb_forall. intros y Hy. apply PyFacts.ge_true.
    rewrite Forall_forall in Hall. specialize (Hall y Hy). lra.
Qed.

Lemma filter_idem {A : Type} (f : A -> bool) (d : list A) :
  filter f (filter f d) = filter f d.
Proof.
  induction d as [|x d IH]; [reflexivity|]. cbn.
  destruct (f x) eqn:E; cbn; rewrite ?E, IH; reflexivity.
Qed.

Lemma window_rates_raise t l :
  _calculate_window_rates t l = None
  <-> rpm_window_size l == 0 \/ tpm_window_size l == 0.
Proof.
  unfold _calculate_window_rates.
  destruct (Qeq_bool (rpm_window_size l) 0) eqn:R.
  - apply Qeq_bool_iff in R. split; auto.
  - apply Qeq_bool_neq in R.
    destruct (Qeq_bool (tpm_window_size l) 0) eqn:T.
    + apply Qeq_bool_iff in T. split; auto.
    + apply Qeq_bool_neq in T. split; [discriminate|]. intros [H|H]; tauto.
Qed.

(** X2.  [get_current_rates] raises, a [ZeroDivisionError], exactly when one
    of the two window sizes is zero; it has by then already rolled over the
    windows, pruned the histories and refreshed the cached rates. *)
Theorem get_current_rates_raises_iff_zero_window :
  forall (t1 t2 t3 : Q) (l : FixedWindowRateLimiter),
    (snd (get_current_rates t1 t2 t3 l) = None
     <-> rpm_window_size l == 0 \/ tpm_window_size l == 0)
    /\ fst (get_current_rates t1 t2 t3 l)
       = _calculate_rates t2 (_refresh_windows t1 l).
Proof.
  intros t1 t2 t3 l. split; [|apply RateLimiterFacts.get_current_rates_state].
  unfold get_current_rates.
  pose proof (window_rates_raise t3 (_calculate_rates t2 (_refresh_windows t1 l)))
    as H.
  destruct (RateLimiterFacts.refresh_config t1 l) as (_ & _ & Er & Et & _).
  cbn [_calculate_rates set_current rpm_window_size tpm_window_size] in H.
  rewrite Er, Et in H.
  destruct (_calculate_window_rates t3 _) as [[wr wt]|].
  - destruct (_calculate_window_limits _). cbn [snd].
    split; [discriminate|]. intro Hz. apply H in Hz. discriminate.
  - cbn [snd]. split; [intros _; now apply H | reflexivity].
Qed.

(** With the default window sizes [get_current_rates] returns. *)
Lemma get_current_rates_default_sizes t1 t2 t3 l :
  rpm_window_size l = 10 -> tpm_window_size l = 60 ->
  snd (get_current_rates t1 t2 t3 l) <> None.
Proof.
  intros Wr Wt. unfold get_current_rates.
  pose proof (window_rates_raise t3 (_calculate_rates t2 (_refresh_windows t1 l)))
    as H.
  destruct (RateLimiterFacts.refresh_config t1 l) as (_ & _ & Er & Et & _).
  cbn [_calculate_rates set_current rpm_window_size tpm_window_size] in H.
  rewrite Er, Et, Wr, Wt in H.
  destruct (_calculate_window_rates t3 _) as [[wr wt]|].
  - destruct (_calculate_window_limits _). discriminate.
  - exfalso. destruct H as [H _]. destruct (H eq_refl) as [Hz|Hz];
      discriminate Hz.
Qed.

Lemma get_current_rates_snapshot t1 t2 t3 l snap :
  snd (get_current_rates t1 t2 t3 l) = Some snap ->
  let l' := fst (get_current_rates t1 t2 t3 l) in
  rs_rpm snap = Z.of_N (current_rpm l')
  /\ rs_tpm snap = current_tpm l'
  /\ rs_window_rpm snap
     = Py.int (inject_Z (Z.of_N (Py.count_if
                                   (fun ts => Py.ge ts (t3 - rpm_window_size l'))
                                   (request_timestamps l')))
               * (60 / rpm_window_size l'))
  /\ rs_window_tpm snap
     = Py.int (inject_Z (Py.sum_tokens_if
                           (fun ts => Py.ge ts (t3 - tpm_window_size l'))
                           (token_usage l'))
               * (60 / tpm_window_size l'))
  /\ rs_rpm_window_requests snap = rpm_window_requests l'
  /\ rs_tpm_window_tokens snap = tpm_window_tokens l'.
Proof.
  rewrite RateLimiterFacts.get_current_rates_state.
  unfold get_current_rates, _calculate_window_rates.
  set (l2 := _calculate_rates t2 (_refresh_windows t1 l)).
  destruct (Qeq_bool (rpm_window_size l2) 0); [discriminate|].
  destruct (Qeq_bool (tpm_window_size l2) 0); [discriminate|].
  destruct (_calculate_window_limits l2). cbn [snd].
  intro E. inversion E; subst. cbn. auto 10.
Qed.

Lemma sum_tokens_if_filter (keep : Q -> bool) (d : list (Q * Z)) :
  Py.sum_tokens_if keep (filter (fun e => keep (fst e)) d)
  = Py.sum_tokens (filter (fun e => keep (fst e)) d).
Proof. unfold Py.sum_tokens_if, Py.sum_tokens. now rewrite filter_idem. Qed.

(** X3.  When both sliding histories are time-ordered and the snapshot's
    clock readings fall on one instant [t], [get_current_rates] leaves in
    each history exactly the entries stamped within the 60 s before [t], and
    the [rpm] and [tpm] it reports are the number of requests and the sum of
    tokens left in them. *)
Theorem snapshot_keeps_and_counts_last_minute :
  forall (t : Q) (l : FixedWindowRateLimiter) (snap : RateSnapshot),
    time_ordered (request_timestamps l) ->
    usage_time_ordered (token_usage l) ->
    snd (get_current_rates t t t l) = Some snap ->
    let l' := fst (get_current_rates t t t l) in
    request_timestamps l'
    = filter (fun ts => Py.ge ts (t - 60)) (request_timestamps l)
    /\ token_usage l'
       = filter (fun e => Py.ge (fst e) (t - 60)) (token_usage l)
    /\ rs_rpm snap = Z.of_nat (List.length (request_timestamps l'))
    /\ rs_tpm snap = Py.sum_tokens (token_usage l').
Proof.
  intros t l snap Sr St Hsnap l'.
  destruct (get_current_rates_snapshot t t t l snap Hsnap)
    as (Hrpm & Htpm & _).
  fold l' in Hrpm, Htpm. unfold l' in *.
  rewrite RateLimiterFacts.get_current_rates_state in *.
  cbn [_calculate_rates set_current request_timestamps token_usage
         current_rpm current_tpm] in *.
  destruct (RateLimiterFacts.refresh_histories t l) as [Hts Htu].
  rewrite Hts, Htu in *.
  rewrite (popleft_while_sorted (fun ts => ts) (t - 60) _ Sr) in *.
  rewrite (popleft_while_sorted fst (t - 60) _ St) in *.
  repeat split; trivial.
  - rewrite Hrpm. unfold Py.count_if. rewrite filter_idem.
    apply nat_N_Z.
  - rewrite Htpm. apply sum_tokens_if_filter.
Qed.

Lemma snapshot_keeps_and_counts_last_minute_witness :
  exists snap,
    snd (get_current_rates 70 70 70 (record_request 20 20 (Some 7%Z) over_quota))
    = Some snap
    /\ rs_rpm snap
       = Z.of_nat
           (List.length
              (request_timestamps
                 (fst (get_current_rates 70 70 70
                         (record_request 20 20 (Some 7%Z) over_quota))))).
Proof.
  assert (Hs : exists snap,
             snd (get_current_rates 70 70 70
                    (record_request 20 20 (Some 7%Z) over_quota)) = Some snap)
    by (eexists; vm_compute; reflexivity).
  destruct Hs as [snap E]. exists snap. split; [exact E|].
  apply (snapshot_keeps_and_counts_last_minute 70
           (record_request 20 20 (Some 7%Z) over_quota) snap); trivial.
  - repeat constructor; vm_compute; discriminate.
  - repeat constructor; vm_compute; discriminate.
Defined.



(** *** The request window under check-then-record *)

Lemma refresh_rpm_counter_cases now l :
  rpm_window_requests (_refresh_windows now l) = rpm_window_requests l
  \/ rpm_window_requests (_refresh_windows now l) = 0%N.
Proof.
  destruct (RateLimiterFacts.refresh_rpm_window now l) as [Hroll Hkeep].
  destruct (Qlt_le_dec (now - rpm_window_start_time l) (rpm_window_size l))
    as [L|L].
  - left. now apply Hkeep.
  - right. now apply Hroll.
Qed.

Lemma record_request_rpm t1 t2 tok l :
  rpm_window_requests (record_request t1 t2 tok l)
  = (rpm_window_requests l + 1)%N
  /\ rpm_window_start_time (record_request t1 t2 tok l)
     = rpm_window_start_time l
  /\ max_rpm (record_request t1 t2 tok l) = max_rpm l
  /\ rpm_window_size (record_request t1 t2 tok l) = rpm_window_size l.
Proof.
  unfold record_request. destruct tok as [t|]; [|cbn; auto].
  destruct (Py.truthy (Some t)); cbn; auto.
Qed.

(** X5.  For a positive request window: a [should_limit] call keeps the
    request-window counter below quota + 1 if it was, and a request that is
    recorded right after [should_limit] returned false leaves the counter
    below quota + 1, whatever it was before the check. *)
Theorem admitted_request_stays_within_quota :
  forall (now t1 t2 : Q) (estimate tokens : option Z)
         (l : FixedWindowRateLimiter),
    0 < rpm_window_size l ->
    (within_request_quota l ->
     within_request_quota (fst (should_limit now estimate l)))
    /\ (snd (should_limit now estimate l) = false ->
        within_request_quota
          (record_request t1 t2 tokens (fst (should_limit now estimate l)))).
Proof.
  intros now t1 t2 estimate tokens l W.
  rewrite RateLimiterFacts.should_limit_state.
  destruct (RateLimiterFacts.refresh_config now l) as (Em & _ & Es & _).
  split.
  - intros Hin P. unfold within_request_quota in Hin.
    rewrite Em, Es in *. specialize (Hin P).
    pose proof (RateLimiterFacts.quota_pos _ _ P W) as Q0.
    destruct (refresh_rpm_counter_cases now l) as [->| ->]; [exact Hin|].
    change (inject_Z (Z.of_N 0)) with 0.
    set (q := inject_Z (max_rpm l) * rpm_window_size l / 60) in *. lra.
  - intros Hfalse P.
    destruct (record_request_rpm t1 t2 tokens (_refresh_windows now l))
      as (Ec & _ & Em' & Es').
    rewrite Em', Es', Em, Es, Ec in *.
    pose proof (RateLimiterFacts.quota_pos _ _ P W) as Q0.
    assert (Hnot : ~ snd (should_limit now estimate l) = true) by congruence.
    rewrite RateLimiterFacts.should_limit_decision in Hnot. cbv zeta in Hnot.
    assert (E : fst (_calculate_window_limits l)
                = inject_Z (max_rpm l) * rpm_window_size l / 60).
    { unfold _calculate_window_limits. cbn [fst].
      destruct (Z.gtb_spec (max_rpm l) 0); [reflexivity | lia]. }
    rewrite E in Hnot.
    assert (C : inject_Z (Z.of_N (rpm_window_requests (_refresh_windows now l)))
                < inject_Z (max_rpm l) * rpm_window_size l / 60).
    { apply Qnot_le_lt. intro Hle. apply Hnot. left. split; assumption. }
    rewrite N2Z.inj_add, inject_Z_plus.
    change (inject_Z (Z.of_N 1)) with 1.
    set (q := inject_Z (max_rpm l) * rpm_window_size l / 60) in *. lra.
Qed.

Lemma admitted_request_stays_within_quota_witness :
  within_request_quota
    (record_request 2 2 None (fst (should_limit 1 None (init 6 0 10 60 0 0)))).
Proof.
  apply (admitted_request_stays_within_quota 1 2 2 None None
           (init 6 0 10 60 0 0)); reflexivity.
Defined.

(** *** The request window: recording and rollover *)

Lemma record_all_rpm calls l :
  rpm_window_requests (record_all calls l)
  = (rpm_window_requests l + N.of_nat (List.length calls))%N
  /\ rpm_window_start_time (record_all calls l) = rpm_window_start_time l
  /\ rpm_window_size (record_all calls l) = rpm_window_size l.
Proof.
  revert l. induction calls as [|c calls IH]; intro l.
  - cbn. repeat split; trivial. lia.
  - change (record_all (c :: calls) l)
      with (record_all calls
              (record_request (fst (fst c)) (snd (fst c)) (snd c) l)).
    destruct (IH (record_request (fst (fst c)) (snd (fst c)) (snd c) l))
      as (-> & -> & ->).
    destruct (record_request_rpm (fst (fst c)) (snd (fst c)) (snd c) l)
      as (-> & -> & _ & ->).
    repeat split; trivial. cbn [List.length]. lia.
Qed.

(** X6.  Every recorded request counts once in the request window, with or
    without tokens: after [K] calls of [record_request] the counter has
    grown by [K] and the window's start has not moved, even when the calls
    come after the window has run out; the next [should_limit] then zeroes
    the counter if the window has run out and leaves it otherwise. *)
Theorem request_window_counts_every_record :
  forall (calls : list (Q * Q * option Z)) (l : FixedWindowRateLimiter)
         (now : Q) (estimate : option Z),
    let K := N.of_nat (List.length calls) in
    let l' := record_all calls l in
    rpm_window_requests l' = (rpm_window_requests l + K)%N
    /\ rpm_window_start_time l' = rpm_window_start_time l
    /\ (rpm_window_size l <= now - rpm_window_start_time l ->
        rpm_window_requests (fst (should_limit now estimate l')) = 0%N)
    /\ (now - rpm_window_start_time l < rpm_window_size l ->
        rpm_window_requests (fst (should_limit now estimate l'))
        = (rpm_window_requests l + K)%N).
Proof.
  intros calls l now estimate K l'.
  destruct (record_all_rpm calls l) as (Hc & Hs & Hw).
  fold l' in Hc, Hs, Hw. fold K in Hc.
  rewrite RateLimiterFacts.should_limit_state.
  destruct (RateLimiterFacts.refresh_rpm_window now l') as [Hroll Hkeep].
  rewrite Hs, Hw in *. repeat split; trivial.
  - intro H. now apply Hroll.
  - intro H. rewrite <- Hc. now apply Hkeep.
Qed.

Lemma request_window_counts_every_record_witness :
  rpm_window_requests
    (fst (should_limit 11 None
            (record_all [(10, 10, None); (21 # 2, 21 # 2, Some 5%Z)]
                        (init 6 0 10 60 0 0)))) = 0%N
  /\ rpm_window_requests
       (fst (should_limit 3 None
               (record_all [(1, 1, None); (2, 2, Some 5%Z)]
                           (init 6 0 10 60 0 0)))) = (0 + 2)%N.
Proof.
  split.
  - apply (request_window_counts_every_record
             [(10, 10, None); (21 # 2, 21 # 2, Some 5%Z)]
             (init 6 0 10 60 0 0) 11 None).
    vm_compute. discriminate.
  - apply (request_window_counts_every_record
             [(1, 1, None); (2, 2, Some 5%Z)] (init 6 0 10 60 0 0) 3 None).
    vm_compute. reflexivity.
Defined.

(** *** The token window under check-then-record *)



(** *** Time order of the histories *)

Lemma sorted_snoc {A : Type} (key : A -> Q) (d : list A) (x : A) :
  Sorted (fun a b => key a <= key b) d ->
  Forall (fun a => key a <= key x) d ->
  Sorted (fun a b => key a <= key b) (d ++ [x]).
Proof.
  intros S F. induction S as [|a d S IH Hd]; cbn.
  - repeat constructor.
  - inversion F as [|? ? Ha Fd]; subst. constructor; [now apply IH|].
    destruct d as [|b d]; cbn; constructor.
    + exact Ha.
    + now inversion Hd.
Qed.

Lemma sorted_popleft {A : Type} (key : A -> Q) (old : A -> bool) (d : list A) :
  Sorted (fun a b => key a <= key b) d ->
  Sorted (fun a b => key a <= key b) (Py.popleft_while old d).
Proof.
  induction 1 as [|a d S IH Hd]; cbn; [constructor|].
  destruct (old a); [exact IH | now constructor].
Qed.

Lemma forall_popleft {A : Type} (P : A -> Prop) (old : A -> bool) (d : list A) :
  Forall P d -> Forall P (Py.popleft_while old d).
Proof.
  induction 1 as [|a d Ha F IH]; cbn; [constructor|].
  destruct (old a); [exact IH | now constructor].
Qed.

(** X23.  The sliding histories stay time-ordered as long as the clock does
    not run backwards: if both are time-ordered and hold no stamp later
    than [t], they are still so after a [record_request] at [t], and after
    any [should_limit] or [get_current_rates], which only prune them. *)
Theorem histories_stay_time_ordered :
  forall (t t' : Q) (tokens : option Z) (l : FixedWindowRateLimiter),
    time_ordered (request_timestamps l) ->
    usage_time_ordered (token_usage l) ->
    Forall (fun ts => ts <= t) (request_timestamps l) ->
    Forall (fun e => fst e <= t) (token_usage l) ->
    (forall l',
        l' = record_request t t' tokens l
        \/ (exists now est, l' = fst (should_limit now est l))
        \/ (exists t1 t2 t3, l' = fst (get_current_rates t1 t2 t3 l)) ->
        time_ordered (request_timestamps l')
        /\ usage_time_ordered (token_usage l')
        /\ Forall (fun ts => ts <= t) (request_timestamps l')
        /\ Forall (fun e => fst e <= t) (token_usage l')).
Proof.
  intros t t' tokens l Sr Su Fr Fu l' Hl'.
  assert (Hrefresh : forall now,
             time_ordered (request_timestamps (_refresh_windows now l))
             /\ usage_time_ordered (token_usage (_refresh_windows now l))
             /\ Forall (fun ts => ts <= t)
                       (request_timestamps (_refresh_windows now l))
             /\ Forall (fun e => fst e <= t)
                       (token_usage (_refresh_windows now l))).
  { intro now. destruct (RateLimiterFacts.refresh_histories now l) as [-> ->].
    repeat split.
    - apply (sorted_popleft (fun ts => ts)). exact Sr.
    - apply (sorted_popleft fst). exact Su.
    - now apply forall_popleft.
    - now apply forall_popleft. }
  destruct Hl' as [->|[(now & est & ->)|(t1 & t2 & t3 & ->)]].
  - unfold record_request, time_ordered, usage_time_ordered.
    assert (Sr' : Sorted Qle (request_timestamps l ++ [t]))
      by (apply (sorted_snoc (fun ts => ts)); assumption).
    assert (Fr' : Forall (fun ts => ts <= t) (request_timestamps l ++ [t])).
    { apply Forall_app. split; [exact Fr|]. repeat constructor. apply Qle_refl. }
    destruct tokens as [T|]; [|cbn; auto].
    destruct (Py.truthy (Some T)); cbn; [|auto].
    repeat split; trivial.
    + apply (sorted_snoc fst); assumption.
    + apply Forall_app. split; [exact Fu|]. repeat constructor.
      cbn. apply Qle_refl.
  - rewrite RateLimiterFacts.should_limit_state. apply Hrefresh.
  - rewrite RateLimiterFacts.get_current_rates_state. cbn. apply Hrefresh.
Qed.

Lemma histories_stay_time_ordered_witness :
  time_ordered
    (request_timestamps (record_request 20 20 (Some 7%Z) over_quota))
  /\ usage_time_ordered
       (token_usage (record_request 20 20 (Some 7%Z) over_quota)).
Proof.
  destruct (histories_stay_time_ordered 20 20 (Some 7%Z) over_quota)
    with (l' := record_request 20 20 (Some 7%Z) over_quota)
    as (H1 & H2 & _).
  - repeat constructor.
  - repeat constructor.
  - repeat constructor. vm_compute. discriminate.
  - repeat constructor. vm_compute. discriminate.
  - left. reflexivity.
  - split; assumption.
Defined.

End LimiterBehaviour.

(** ** Further properties: the batch processor *)

Module ProcessorBehaviour.
Import Processor ProcessorSpec MoreSpec.
Import ProcessorFacts.

#[local] Arguments RateLimiter.should_limit : simpl never.
#[local] Arguments RateLimiter.record_request : simpl never.
#[local] Arguments RateLimiter.get_current_rates : simpl never.
#[local] Arguments RateLimiter.reset : simpl never.
#[local] Arguments String.eqb : simpl never.
#[local] Arguments is_rate_limit_error : simpl never.
#[local] Arguments Py.double : simpl never.

(** *** The admission gate *)

Lemma limits_request_side (l : RateLimiter.FixedWindowRateLimiter) :
  ((RateLimiter.max_rpm l <= 0)%Z ->
   fst (RateLimiter._calculate_window_limits l) = 0)
  /\ ((0 < RateLimiter.max_rpm l)%Z ->
      fst (RateLimiter._calculate_window_limits l)
      = LimiterSpec.request_quota l).
Proof.
  unfold RateLimiter._calculate_window_limits, LimiterSpec.request_quota.
  cbn [fst]. destruct (Z.gtb_spec (RateLimiter.max_rpm l) 0); split;
    intros; trivial; lia.
Qed.

Lemma gate_is_should_limit clk s :
  snd (admission_gate clk s)
  = match limiter_active s with
    | Some l => snd (RateLimiter.should_limit (t_gate clk) None l)
    | None => false
    end.
Proof.
  unfold admission_gate. destruct (limiter_active s) as [l|]; [|reflexivity].
  now destruct (RateLimiter.should_limit (t_gate clk) None l).
Qed.

(** X7.  The worker's gate enforces the request cap only: without an
    active limiter, or with [max_rpm <= 0], no task is ever refused,
    whatever [max_tpm] is and however many tokens the window has used; and
    a task is refused only when [max_rpm > 0] and the request-window
    counter, after any due rollover, has reached
    [max_rpm * rpm_window_size / 60]. *)
Theorem gate_enforces_request_cap_only :
  forall (clk : WorkerClock) (s : BatchProcessor),
    (limiter_active s = None -> snd (admission_gate clk s) = false)
    /\ (forall l, limiter_active s = Some l ->
                  (RateLimiter.max_rpm l <= 0)%Z ->
                  snd (admission_gate clk s) = false)
    /\ (forall l, limiter_active s = Some l ->
                  snd (admission_gate clk s) = true ->
                  (0 < RateLimiter.max_rpm l)%Z
                  /\ LimiterSpec.request_quota l
                     <= inject_Z
                          (Z.of_N (RateLimiter.rpm_window_requests
                                     (RateLimiter._refresh_windows
                                        (t_gate clk) l)))).
Proof.
  intros clk s. rewrite gate_is_should_limit. split; [|split].
  - now intros ->.
  - intros l -> Hcap.
    destruct (RateLimiter.should_limit (t_gate clk) None l) as [l' b] eqn:E.
    cbn [snd]. destruct b; trivial.
    assert (H : snd (RateLimiter.should_limit (t_gate clk) None l) = true)
      by now rewrite E.
    apply RateLimiterFacts.should_limit_decision in H. cbv zeta in H.
    destruct (limits_request_side l) as [Hz _]. rewrite (Hz Hcap) in H.
    destruct H as [[H _]|[_ (t & Ht & _)]]; [lra | discriminate].
  - intros l -> H.
    apply RateLimiterFacts.should_limit_decision in H. cbv zeta in H.
    destruct H as [[Hpos Hle]|[_ (t & Ht & _)]]; [|discriminate].
    destruct (limits_request_side l) as [Hz Hq].
    destruct (Z_lt_dec 0 (RateLimiter.max_rpm l)) as [P|P].
    + split; trivial. now rewrite <- (Hq P).
    + rewrite Hz in Hpos by lia. lra.
Qed.

Lemma gate_enforces_request_cap_only_witness :
  snd (admission_gate (all_at 2) started) = false
  /\ (0 < 6)%Z.
Proof.
  destruct (gate_enforces_request_cap_only (all_at 2) started) as (H0 & _).
  destruct (gate_enforces_request_cap_only (all_at 2) limited_after_one)
    as (_ & _ & H2).
  split.
  - apply H0. reflexivity.
  - apply (H2 (RateLimiter.record_request 1 1 (Some 42%Z)
                 (fst (RateLimiter.should_limit 1 None
                         (RateLimiter.reset 0 0
                            (RateLimiter.init 6 0 10 60 0 0)))))).
    + vm_compute. reflexivity.
    + vm_compute. reflexivity.
Defined.

(** *** What one iteration does to the queue and the log *)

Lemma iteration_outcome eid clk exec s task rest :
  task_queue s = task :: rest ->
  let s' := _executor_worker_iteration eid clk exec s in
  (task_queue s' = rest ++ [task]
   /\ requeued_tasks s' = (requeued_tasks s + 1)%N
   /\ results s' = results s
   /\ completed_tasks s' = completed_tasks s
   /\ error_count s' = error_count s)
  \/ (task_queue s' = rest
      /\ requeued_tasks s' = requeued_tasks s
      /\ completed_tasks s' = (completed_tasks s + 1)%N
      /\ exists o, results s' = results s ++ [o]
                   /\ executor_id o = eid
                   /\ execution_time o = m_end clk - m_start clk).
Proof.
  intros Hq. cbv zeta.
  rewrite (iteration_unfold _ _ _ _ _ _ Hq), gate_queue.
  destruct (gate_limiter_only clk s) as [rl ->].
  destruct (snd (admission_gate clk s)).
  - left. unfold requeue. cbn. auto.
  - unfold execute_task, store_result, requeue, limiter_active.
    repeat (cbn; try break_match);
      first [ left; repeat split; reflexivity
            | right; repeat split; try reflexivity;
              eexists; repeat split; reflexivity ].
Qed.

(** X8.  An iteration that finds a task does exactly one of two things
    with it: it puts the task back at the tail of the queue, adds 1 to
    [requeued_tasks] and records nothing; or it removes the task, appends
    exactly one outcome, stamped with the worker's id and the measured
    execution time, and adds 1 to [completed_tasks].  The tasks that were
    waiting behind it keep their order.  With an empty queue the iteration
    changes nothing. *)
Theorem dequeued_task_requeued_or_recorded :
  (forall (eid : nat) (clk : WorkerClock) (exec : Execution)
          (s : BatchProcessor) (task : Task) (rest : list Task),
      task_queue s = task :: rest ->
      let s' := _executor_worker_iteration eid clk exec s in
      (task_queue s' = rest ++ [task]
       /\ requeued_tasks s' = (requeued_tasks s + 1)%N
       /\ results s' = results s
       /\ completed_tasks s' = completed_tasks s
       /\ error_count s' = error_count s)
      \/ (task_queue s' = rest
          /\ requeued_tasks s' = requeued_tasks s
          /\ completed_tasks s' = (completed_tasks s + 1)%N
          /\ exists o, results s' = results s ++ [o]
                       /\ executor_id o = eid
                       /\ execution_time o = m_end clk - m_start clk))
  /\ (forall (eid : nat) (clk : WorkerClock) (exec : Execution)
             (s : BatchProcessor),
         task_queue s = [] ->
         _executor_worker_iteration eid clk exec s = s).
Proof.
  split; [exact iteration_outcome|].
  intros eid clk exec s Hq. unfold _executor_worker_iteration.
  now rewrite Hq.
Qed.

Lemma dequeued_task_requeued_or_recorded_witness :
  (task_queue after_success = [] ++ [a_task]
   /\ requeued_tasks after_success = (requeued_tasks started + 1)%N
   /\ results after_success = results started
   /\ completed_tasks after_success = completed_tasks started
   /\ error_count after_success = error_count started)
  \/ (task_queue after_success = []
      /\ requeued_tasks after_success = requeued_tasks started
      /\ completed_tasks after_success = (completed_tasks started + 1)%N
      /\ exists o, results after_success = results started ++ [o]
                   /\ executor_id o = 0%nat
                   /\ execution_time o
                      = m_end (all_at 10) - m_start (all_at 10)).
Proof.
  destruct dequeued_task_requeued_or_recorded as [H _].
  apply (H 0%nat (all_at 10) (Returns (Some (mkTaskResult 1 (Some 42%Z))))
           started a_task []).
  reflexivity.
Defined.

(** *** Conservation of tasks *)

Lemma get_progress_conserved clk s :
  conserved s -> conserved (fst (get_progress clk s)).
Proof.
  unfold conserved. intro H.
  destruct (get_progress_books clk s) as (-> & _ & -> & -> & _). exact H.
Qed.

Lemma iteration_conserved eid clk exec s :
  conserved s -> conserved (_executor_worker_iteration eid clk exec s).
Proof.
  unfold conserved. intro H.
  pose proof (iteration_total_tasks eid clk exec s) as Ht.
  destruct (task_queue s) as [|task rest] eqn:Hq.
  - unfold _executor_worker_iteration. now rewrite Hq, H, Hq.
  - destruct (iteration_outcome eid clk exec s task rest Hq)
      as [(Q & _ & _ & C & _)|(Q & _ & C & _)];
      rewrite Ht, Q, C, H; cbn [List.length];
      rewrite ?length_app; cbn [List.length]; lia.
Qed.

(** X9.  A processor keeps [total_tasks = completed_tasks + queue size]:
    it holds when the processor is constructed and after a [reset], and
    every operation other than [start] preserves it; [start] preserves it
    when nothing has been completed since the tasks were submitted.  While
    it holds, [remaining_tasks] is the size of the queue. *)
Theorem tasks_are_conserved :
  (forall n mode max_rpm max_tpm t1 t2 t3 t4 t5,
      conserved (init n mode max_rpm max_tpm t1 t2 t3 t4 t5))
  /\ (forall (op : Op) (s : BatchProcessor),
         (forall t_rpm t_tpm, op <> OpStart t_rpm t_tpm) ->
         conserved s -> conserved (apply op s))
  /\ (forall (t_rpm t_tpm : Q) (s : BatchProcessor),
         completed_tasks s = 0%N ->
         conserved s -> conserved (start t_rpm t_tpm s))
  /\ (forall s : BatchProcessor,
         conserved s ->
         remaining_tasks s = Z.of_nat (List.length (task_queue s))).
Proof.
  split; [|split; [|split]].
  - intros. reflexivity.
  - intros op s Hop H.
    destruct op as [task|eid clk exec|t1 t2| |n tq t1 t2|mode mr mt t1 t2|clk];
      cbn [apply].
    + unfold conserved in *. cbn. rewrite H, length_app. cbn. lia.
    + now apply iteration_conserved.
    + now destruct (Hop t1 t2).
    + exact H.
    + reflexivity.
    + unfold conserved in *. unfold set_rate_limits.
      repeat (cbn; try break_match); exact H.
    + now apply get_progress_conserved.
  - intros t_rpm t_tpm s Hc H. unfold conserved in *. unfold start.
    cbn. destruct (rate_limiter s); cbn; rewrite H, Hc; reflexivity.
  - intros s H. unfold remaining_tasks. rewrite H. lia.
Qed.

Lemma tasks_are_conserved_witness :
  conserved after_success
  /\ remaining_tasks after_success
     = Z.of_nat (List.length (task_queue after_success)).
Proof.
  destruct tasks_are_conserved as (Hinit & Hop & Hstart & Hrem).
  assert (C : conserved after_success).
  { apply (Hop (OpWorker 0 (all_at 10)
                         (Returns (Some (mkTaskResult 1 (Some 42%Z)))))
               started); [discriminate|].
    apply (Hstart 0 0 (add_task a_task (init 2 "unlimited" 0 0 0 0 0 0 0)));
      [reflexivity|].
    apply (Hop (OpAddTask a_task) (init 2 "unlimited" 0 0 0 0 0 0 0));
      [discriminate|].
    apply Hinit. }
  split; [exact C | now apply Hrem].
Defined.

(** *** Token statistics *)

(** A snapshot writes the limiter, the two pruned histories and the QPS
    bookkeeping, and nothing else. *)
Lemma get_progress_writes clk s :
  exists rl th rh iq lt qs,
    fst (get_progress clk s)
    = set_queries_since_last_calculation qs
        (set_last_qps_calculation_time lt
           (set_instantaneous_qps iq
              (set_request_history rh
                 (set_token_history th (set_rate_limiter rl s))))).
Proof.
  assert (Hl : exists rl,
             fst (progress_rate_limit_info clk s) = set_rate_limiter rl s).
  { unfold progress_rate_limit_info.
    destruct (limiter_active s) as [l|].
    - destruct (RateLimiter.get_current_rates _ _ _ l). now eexists.
    - exists (rate_limiter s). now destruct s. }
  assert (Ht : forall now s0, exists th,
               fst (_calculate_tpm now s0) = set_token_history th s0).
  { intros now s0. unfold _calculate_tpm.
    destruct (token_history s0) as [|e h] eqn:E.
    - exists []. destruct s0. cbn in *. now subst.
    - cbn [token_history set_token_history].
      destruct (Py.popleft_while _ _); [now eexists|].
      destruct (Py.float_of_int _); [destruct (Qeq_bool _ _)|];
        now eexists. }
  assert (Hr : forall now s0, exists rh,
               fst (_calculate_rpm now s0) = set_request_history rh s0).
  { intros now s0. unfold _calculate_rpm.
    destruct (request_history s0) as [|e h] eqn:E.
    - exists []. destruct s0. cbn in *. now subst.
    - cbn [request_history set_request_history].
      destruct (Py.popleft_while _ _); [now eexists|].
      destruct (Py.lt _ _); now eexists. }
  assert (Hq : forall now s0, exists iq lt qs,
               fst (_calculate_qps now s0)
               = set_queries_since_last_calculation qs
                   (set_last_qps_calculation_time lt
                      (set_instantaneous_qps iq s0))).
  { intros now s0. unfold _calculate_qps.
    destruct (Py.ge _ _).
    - destruct (0 <? _)%N; cbn [fst]; now do 3 eexists.
    - exists (instantaneous_qps s0), (last_qps_calculation_time s0),
        (queries_since_last_calculation s0). now destruct s0. }
  unfold get_progress.
  destruct (progress_avg_overflows s).
  { exists (rate_limiter s), (token_history s), (request_history s),
      (instantaneous_qps s), (last_qps_calculation_time s),
      (queries_since_last_calculation s). now destruct s. }
  destruct Hl as [rl Hl].
  destruct (progress_rate_limit_info clk s) as [s1 [info|]]; cbn [fst] in Hl;
    subst s1.
  2:{ exists rl, (token_history s), (request_history s),
        (instantaneous_qps s), (last_qps_calculation_time s),
        (queries_since_last_calculation s). now destruct s. }
  destruct (Ht (t_tpm clk) (set_rate_limiter rl s)) as [th Hth].
  destruct (_calculate_tpm (t_tpm clk) (set_rate_limiter rl s))
    as [s2 [tpm|]]; cbn [fst] in Hth; subst s2.
  2:{ exists rl, th, (request_history s),
        (instantaneous_qps s), (last_qps_calculation_time s),
        (queries_since_last_calculation s). now destruct s. }
  destruct (Hr (t_rpm clk) (set_token_history th (set_rate_limiter rl s)))
    as [rh Hrh].
  destruct (_calculate_rpm (t_rpm clk) _) as [s3 rpm]; cbn [fst] in Hrh;
    subst s3.
  destruct (Hq (t_qps clk)
               (set_request_history rh
                  (set_token_history th (set_rate_limiter rl s))))
    as (iq & lt & qs & Hqs).
  destruct (_calculate_qps (t_qps clk) _) as [s4 qps]; cbn [fst] in *;
    subst s4.
  now exists rl, th, rh, iq, lt, qs.
Qed.

Lemma iteration_token_stats eid clk exec s :
  let s' := _executor_worker_iteration eid clk exec s in
  (total_tokens s' = total_tokens s /\ min_tokens s' = min_tokens s
   /\ max_tokens s' = max_tokens s /\ token_count s' = token_count s)
  \/ (exists t,
         total_tokens s' = (total_tokens s + t)%Z
         /\ min_tokens s' = min_with (min_tokens s) t
         /\ max_tokens s' = Z.max (max_tokens s) t
         /\ token_count s' = (token_count s + 1)%N).
Proof.
  run_iteration;
    first [ left; repeat split; reflexivity
          | right; eexists; repeat split; reflexivity ].
Qed.

Lemma stats_after_token (c : N) (total mx t : Z) (mn : TokenMin) :
  match mn with
  | Infinity => c = 0%N /\ total = 0%Z /\ mx = 0%Z
  | Finite m =>
      (0 < c)%N /\ (m <= mx)%Z
      /\ (Z.of_N c * m <= total)%Z /\ (total <= Z.of_N c * mx)%Z
  end ->
  match min_with mn t with
  | Infinity => False
  | Finite m =>
      (0 < c + 1)%N /\ (m <= Z.max mx t)%Z
      /\ (Z.of_N (c + 1) * m <= total + t)%Z
      /\ (total + t <= Z.of_N (c + 1) * Z.max mx t)%Z
  end.
Proof.
  destruct mn as [|m]; cbn [min_with].
  - intros (-> & -> & ->). change (Z.of_N (0 + 1)) with 1%Z. lia.
  - intros (Hc & Hm & Hlo & Hhi).
    rewrite N2Z.inj_add. change (Z.of_N 1) with 1%Z.
    assert (0 < Z.of_N c)%Z by lia.
    repeat split; try lia; nia.
Qed.

Lemma reachable_token_stats s : reachable s -> token_stats_consistent s.
Proof.
  induction 1 as [|op s Hs IH He].
  - cbn. auto.
  - destruct op as [task|eid clk exec|t1 t2| |n tq t1 t2|mode mr mt t1 t2|clk];
      cbn [apply].
    + exact IH.
    + unfold token_stats_consistent in *.
      destruct (iteration_token_stats eid clk exec s)
        as [(-> & -> & -> & ->)|(t & -> & -> & -> & ->)]; [exact IH|].
      pose proof (stats_after_token _ _ _ t _ IH) as H.
      destruct (min_with (min_tokens s) t); [contradiction | exact H].
    + unfold token_stats_consistent in *. unfold start. cbn.
      destruct (rate_limiter s); exact IH.
    + exact IH.
    + cbn. auto.
    + unfold token_stats_consistent in *. unfold set_rate_limits.
      repeat (cbn; try break_match); exact IH.
    + destruct (get_progress_writes clk s)
        as (rl & th & rh & iq & lt & qs & ->). exact IH.
Qed.

(** X10.  In every reachable state the minimum a snapshot reports is a
    number, and when the smallest and the largest token count recorded are
    of magnitude at most [2^53] the statistics are ordered: the reported
    minimum is at most the reported average, and the average is at most
    [max_tokens]. *)
Theorem reported_average_between_min_and_max :
  forall s : BatchProcessor,
    reachable s ->
    exists m : Z,
      progress_min_tokens s = Finite m
      /\ ((- 2 ^ 53 <= m)%Z -> (max_tokens s <= 2 ^ 53)%Z ->
          (m <= progress_avg_tokens s <= max_tokens s)%Z).
Proof.
  intros s Hs. pose proof (reachable_token_stats s Hs) as H.
  unfold token_stats_consistent in H.
  unfold progress_min_tokens, progress_avg_tokens.
  destruct (min_tokens s) as [|m].
  - destruct H as (-> & _ & ->). exists 0%Z. cbn. split; [reflexivity | lia].
  - destruct H as (Hc & Hm & Hlo & Hhi). exists m. split; [reflexivity|].
    intros Bm BM.
    destruct (N.ltb_spec 0 (token_count s)); [|lia].
    assert (Cpos : 0 < inject_Z (Z.of_N (token_count s))).
    { change 0 with (inject_Z 0). rewrite <- Zlt_Qlt. lia. }
    unfold Py.truediv_int.
    apply PyFacts.round_between.
    + apply PyFacts.double_ge_int; [lia|].
      apply Qle_shift_div_l; [exact Cpos|].
      rewrite <- inject_Z_mult, <- Zle_Qle. lia.
    + apply PyFacts.double_le_int; [lia|].
      apply Qle_shift_div_r; [exact Cpos|].
      rewrite <- inject_Z_mult, <- Zle_Qle. lia.
Qed.

Lemma reported_average_between_min_and_max_witness :
  exists m : Z,
    progress_min_tokens after_success = Finite m
    /\ (m <= progress_avg_tokens after_success <= max_tokens after_success)%Z.
Proof.
  destruct (reported_average_between_min_and_max
              after_success reachable_after_success) as (m & E & H).
  exists m. split; [exact E|].
  assert (M : m = 42%Z) by (vm_compute in E; congruence).
  apply H; [rewrite M; vm_compute; discriminate | vm_compute; discriminate].
Defined.

(** Beyond that magnitude the order can fail: a single result of
    [2^53 + 1] tokens is reported with that minimum and that maximum and
    with the average [2^53], the quotient having gone through a double. *)
Lemma average_below_minimum_beyond_2_53 :
  reachable after_large_result
  /\ progress_min_tokens after_large_result = Finite (2 ^ 53 + 1)
  /\ max_tokens after_large_result = (2 ^ 53 + 1)%Z
  /\ progress_avg_tokens after_large_result = (2 ^ 53)%Z.
Proof.
  split; [|repeat split; vm_compute; reflexivity].
  apply (reachable_step
           (OpWorker 0 (all_at 10)
                     (Returns (Some (mkTaskResult 1 (Some (2 ^ 53 + 1)%Z)))))
           started reachable_started).
  reflexivity.
Qed.

(** *** Mode, limiter and window sizes *)

Lemma keeps_refl s : keeps_limiter_config s s.
Proof. split; [reflexivity|]. destruct (rate_limiter s); auto. Qed.

Lemma keeps_trans s1 s2 s3 :
  keeps_limiter_config s1 s2 -> keeps_limiter_config s2 s3 ->
  keeps_limiter_config s1 s3.
Proof.
  intros [M1 L1] [M2 L2]. split; [congruence|].
  destruct (rate_limiter s1), (rate_limiter s2), (rate_limiter s3);
    try contradiction; trivial.
  destruct L1 as (? & ? & ? & ?), L2 as (? & ? & ? & ?).
  repeat split; congruence.
Qed.

(** A step that writes neither the mode nor the limiter keeps both. *)
Lemma keeps_untouched s s' :
  rate_limit_mode s' = rate_limit_mode s ->
  rate_limiter s' = rate_limiter s ->
  keeps_limiter_config s s'.
Proof.
  intros M L. split; [exact M|]. rewrite L.
  destruct (rate_limiter s); auto.
Qed.

Lemma limiter_active_some s l :
  limiter_active s = Some l -> rate_limiter s = Some l.
Proof.
  unfold limiter_active. destruct (String.eqb _ _); [auto | discriminate].
Qed.

Lemma should_limit_config now est l :
  let l' := fst (RateLimiter.should_limit now est l) in
  RateLimiter.rpm_window_size l' = RateLimiter.rpm_window_size l
  /\ RateLimiter.tpm_window_size l' = RateLimiter.tpm_window_size l
  /\ RateLimiter.max_rpm l' = RateLimiter.max_rpm l
  /\ RateLimiter.max_tpm l' = RateLimiter.max_tpm l.
Proof.
  cbv zeta. rewrite RateLimiterFacts.should_limit_state.
  destruct (RateLimiterFacts.refresh_config now l) as (? & ? & ? & ? & _).
  auto.
Qed.

Lemma record_request_config t1 t2 tok l :
  let l' := RateLimiter.record_request t1 t2 tok l in
  RateLimiter.rpm_window_size l' = RateLimiter.rpm_window_size l
  /\ RateLimiter.tpm_window_size l' = RateLimiter.tpm_window_size l
  /\ RateLimiter.max_rpm l' = RateLimiter.max_rpm l
  /\ RateLimiter.max_tpm l' = RateLimiter.max_tpm l.
Proof.
  unfold RateLimiter.record_request. destruct tok as [t|]; [|cbn; auto].
  destruct (Py.truthy (Some t)); cbn; auto.
Qed.

Lemma get_current_rates_config t1 t2 t3 l :
  let l' := fst (RateLimiter.get_current_rates t1 t2 t3 l) in
  RateLimiter.rpm_window_size l' = RateLimiter.rpm_window_size l
  /\ RateLimiter.tpm_window_size l' = RateLimiter.tpm_window_size l
  /\ RateLimiter.max_rpm l' = RateLimiter.max_rpm l
  /\ RateLimiter.max_tpm l' = RateLimiter.max_tpm l.
Proof.
  cbv zeta. rewrite RateLimiterFacts.get_current_rates_state.
  destruct (RateLimiterFacts.refresh_config t1 l) as (? & ? & ? & ? & _).
  cbn. auto.
Qed.

(** The state the gate leaves. *)
Lemma gate_state clk s :
  fst (admission_gate clk s)
  = match limiter_active s with
    | Some l =>
        set_rate_limiter
          (Some (fst (RateLimiter.should_limit (t_gate clk) None l))) s
    | None => s
    end.
Proof.
  unfold admission_gate. destruct (limiter_active s) as [l|]; [|reflexivity].
  now destruct (RateLimiter.should_limit (t_gate clk) None l).
Qed.

Lemma gate_keeps clk s : keeps_limiter_config s (fst (admission_gate clk s)).
Proof.
  rewrite gate_state. destruct (limiter_active s) as [l|] eqn:E;
    [|apply keeps_refl].
  apply limiter_active_some in E. split; [reflexivity|]. rewrite E. cbn.
  apply should_limit_config.
Qed.

Lemma execute_keeps task clk exec s :
  keeps_limiter_config s (fst (fst (fst (execute_task task clk exec s)))).
Proof.
  unfold execute_task. destruct exec as [r|msg].
  - destruct (limiter_active _) as [l|] eqn:E; cbn [fst].
    + apply limiter_active_some in E. cbn in E.
      split; [reflexivity|]. rewrite E. cbn. apply record_request_config.
    + now apply keeps_untouched.
  - destruct (is_rate_limit_error msg); cbn [fst];
      now apply keeps_untouched.
Qed.

Lemma store_keeps eid clk r x e s :
  keeps_limiter_config s (store_result eid clk r x e s).
Proof.
  apply keeps_untouched; unfold store_result;
    repeat (cbn; try break_match); reflexivity.
Qed.

Lemma iteration_keeps eid clk exec s :
  keeps_limiter_config s (_executor_worker_iteration eid clk exec s).
Proof.
  unfold _executor_worker_iteration.
  destruct (task_queue s) as [|task rest]; [apply keeps_refl|].
  pose proof (gate_keeps clk (set_task_queue rest s)) as G.
  assert (K0 : keeps_limiter_config s (set_task_queue rest s))
    by now apply keeps_untouched.
  destruct (admission_gate clk (set_task_queue rest s)) as [s1 b].
  cbn [fst] in G. pose proof (keeps_trans _ _ _ K0 G) as K1.
  destruct b.
  - eapply keeps_trans; [exact K1|]. now apply keeps_untouched.
  - pose proof (execute_keeps task clk exec s1) as E.
    destruct (execute_task task clk exec s1) as [[[s2 r] e] rq].
    cbn [fst] in E. pose proof (keeps_trans _ _ _ K1 E) as K2.
    destruct rq; cbn [negb]; [exact K2|].
    eapply keeps_trans; [exact K2 | apply store_keeps].
Qed.

Lemma calculate_tpm_writes now s :
  exists th, fst (_calculate_tpm now s) = set_token_history th s.
Proof.
  unfold _calculate_tpm.
  destruct (token_history s) as [|e h] eqn:E.
  - exists []. destruct s. cbn in *. now subst.
  - cbn [token_history set_token_history].
    destruct (Py.popleft_while _ _); [now eexists|].
    destruct (Py.float_of_int _); [destruct (Qeq_bool _ _)|]; now eexists.
Qed.

Lemma calculate_rpm_writes now s :
  exists rh, fst (_calculate_rpm now s) = set_request_history rh s.
Proof.
  unfold _calculate_rpm.
  destruct (request_history s) as [|e h] eqn:E.
  - exists []. destruct s. cbn in *. now subst.
  - cbn [request_history set_request_history].
    destruct (Py.popleft_while _ _); [now eexists|].
    destruct (Py.lt _ _); now eexists.
Qed.

Lemma get_progress_limiter clk s :
  progress_avg_overflows s = false ->
  rate_limit_mode (fst (get_progress clk s)) = rate_limit_mode s
  /\ rate_limiter (fst (get_progress clk s))
     = match limiter_active s with
       | Some l =>
           Some (fst (RateLimiter.get_current_rates
                        (t_refresh clk) (t_limiter_rates clk) (t_window clk) l))
       | None => rate_limiter s
       end.
Proof.
  intro Ov.
  destruct (get_progress_writes clk s) as (rl & th & rh & iq & lt & qs & E).
  rewrite E. cbn. split; [reflexivity|].
  assert (H : rate_limiter (fst (get_progress clk s)) = rl)
    by now rewrite E.
  rewrite <- H. clear E H.
  unfold get_progress, progress_rate_limit_info. rewrite Ov.
  destruct (limiter_active s) as [l|].
  - destruct (RateLimiter.get_current_rates _ _ _ l) as [l' info].
    cbn [fst].
    assert (K : forall p : BatchProcessor * option Progress,
               match info with
               | Some i => Some (Some i)
               | None => @None (option RateLimiter.RateSnapshot)
               end = None ->
               rate_limiter (fst (set_rate_limiter (Some l') s, @None Progress))
               = Some l') by reflexivity.
    destruct info as [i|]; [|reflexivity].
    destruct (calculate_tpm_writes (t_tpm clk) (set_rate_limiter (Some l') s))
      as [th' Hth].
    destruct (_calculate_tpm _ _) as [s2 [tpm|]]; cbn [fst] in Hth; subst s2;
      [|reflexivity].
    destruct (calculate_rpm_writes (t_rpm clk)
                (set_token_history th' (set_rate_limiter (Some l') s)))
      as [rh' Hrh].
    destruct (_calculate_rpm _ _) as [s3 rpm]; cbn [fst] in Hrh; subst s3.
    unfold _calculate_qps.
    repeat (cbn; try break_match); reflexivity.
  - destruct (calculate_tpm_writes (t_tpm clk) s) as [th' Hth].
    destruct (_calculate_tpm _ _) as [s2 [tpm|]]; cbn [fst] in Hth; subst s2;
      [|reflexivity].
    destruct (calculate_rpm_writes (t_rpm clk) (set_token_history th' s))
      as [rh' Hrh].
    destruct (_calculate_rpm _ _) as [s3 rpm]; cbn [fst] in Hrh; subst s3.
    unfold _calculate_qps.
    repeat (cbn; try break_match); reflexivity.
Qed.

Lemma get_progress_keeps clk s :
  keeps_limiter_config s (fst (get_progress clk s)).
Proof.
  destruct (progress_avg_overflows s) eqn:Ov.
  { unfold get_progress. rewrite Ov. apply keeps_refl. }
  destruct (get_progress_limiter clk s Ov) as [M L]. split; [exact M|].
  rewrite L. destruct (limiter_active s) as [l|] eqn:E.
  - apply limiter_active_some in E. rewrite E. apply get_current_rates_config.
  - destruct (rate_limiter s); auto.
Qed.

Lemma matches_mode_kept s s' :
  keeps_limiter_config s s' ->
  limiter_matches_mode s -> limiter_matches_mode s'.
Proof.
  unfold limiter_matches_mode. intros [M L] H.
  destruct (rate_limiter s), (rate_limiter s'); try contradiction.
  - destruct L as (-> & -> & _). now rewrite M.
  - now rewrite M.
Qed.

Lemma reset_matches_mode n tq t1 t2 s :
  limiter_matches_mode s -> limiter_matches_mode (reset n tq t1 t2 s).
Proof.
  unfold limiter_matches_mode, reset. cbn.
  destruct (rate_limiter s); cbn; auto.
Qed.

Lemma reachable_matches_mode s : reachable s -> limiter_matches_mode s.
Proof.
  induction 1 as [n mode mr mt a b c d e|op s Hs IH He].
  - unfold init. apply reset_matches_mode. unfold limiter_matches_mode. cbn.
    destruct (String.eqb_spec mode "limited"); cbn; auto.
  - destruct op as [task|eid clk exec|t1 t2| |n tq t1 t2|mode mr mt t1 t2|clk];
      cbn [apply].
    + exact IH.
    + eapply matches_mode_kept; [apply iteration_keeps | exact IH].
    + unfold limiter_matches_mode in *. unfold start. cbn.
      destruct (rate_limiter s) as [l|] eqn:E; cbn; rewrite ?E; exact IH.
    + exact IH.
    + now apply reset_matches_mode.
    + unfold limiter_matches_mode in *. unfold set_rate_limits. cbn.
      destruct (String.eqb_spec mode "limited") as [->|Hne].
      * destruct (rate_limiter s); cbn; [|auto].
        destruct IH as (_ & ? & ?). auto.
      * cbn. exact Hne.
    + eapply matches_mode_kept; [apply get_progress_keeps | exact IH].
Qed.

(** X11.  In every reachable state the processor has a limiter exactly when
    its mode is ["limited"], and that limiter has the default window sizes,
    10 s for requests and 60 s for tokens; so the limiter of a reachable
    state is always the active one. *)
Theorem limiter_present_iff_limited_mode :
  forall s : BatchProcessor,
    reachable s ->
    (rate_limiter s <> None <-> rate_limit_mode s = "limited"%string)
    /\ limiter_active s = rate_limiter s
    /\ (forall l, rate_limiter s = Some l ->
                  RateLimiter.rpm_window_size l = 10
                  /\ RateLimiter.tpm_window_size l = 60).
Proof.
  intros s Hs. pose proof (reachable_matches_mode s Hs) as H.
  unfold limiter_matches_mode in H. unfold limiter_active.
  destruct (rate_limiter s) as [l|].
  - destruct H as (M & Wr & Wt). rewrite M.
    split; [split; [trivial | discriminate]|].
    split; [reflexivity|].
    intros l1 E. inversion E; subst. now split.
  - split; [split; congruence|].
    split; [now destruct (String.eqb _ _) | discriminate].
Qed.

Lemma limiter_present_iff_limited_mode_witness :
  limiter_active limited_after_one = rate_limiter limited_after_one.
Proof.
  apply (limiter_present_iff_limited_mode limited_after_one).
  apply (reachable_step
           (OpWorker 0 (all_at 1)
                     (Returns (Some (mkTaskResult 1 (Some 42%Z)))))
           started_limited); [|reflexivity].
  apply (reachable_step (OpStart 0 0)); [|reflexivity].
  apply (reachable_step (OpAddTask a_task)); [|reflexivity].
  apply (reachable_step (OpAddTask a_task)); [|reflexivity].
  apply reachable_init.
Defined.

(** *** When a snapshot fails *)

Lemma rate_limit_info_succeeds clk s :
  limiter_matches_mode s ->
  snd (progress_rate_limit_info clk s) <> None.
Proof.
  intro H. unfold progress_rate_limit_info.
  destruct (limiter_active s) as [l|] eqn:E; [|discriminate].
  apply limiter_active_some in E. unfold limiter_matches_mode in H.
  rewrite E in H. destruct H as (_ & Wr & Wt).
  pose proof (LimiterBehaviour.get_current_rates_default_sizes
                (t_refresh clk) (t_limiter_rates clk) (t_window clk) l Wr Wt)
    as Hok.
  destruct (RateLimiter.get_current_rates _ _ _ l) as [l' [i|]];
    cbn [snd] in *; [discriminate | contradiction].
Qed.



(** *** What a snapshot carries *)

Lemma qps_returns_round2 now s :
  snd (_calculate_qps now s)
  = Py.round2 (instantaneous_qps (fst (_calculate_qps now s))).
Proof. reflexivity. Qed.

Lemma get_progress_fields clk s p :
  snd (get_progress clk s) = Some p ->
  let s1 := fst (progress_rate_limit_info clk s) in
  p_completed p = completed_tasks s1
  /\ p_total p = total_tasks s1
  /\ p_queue_size p = List.length (task_queue s1)
  /\ p_results p = results s1
  /\ p_error_count p = error_count s1
  /\ p_requeued_tasks p = requeued_tasks s1
  /\ p_total_tokens p = total_tokens s1
  /\ p_max_tokens p = max_tokens s1
  /\ p_rate_limit_mode p = rate_limit_mode s1
  /\ p_qps p = Py.round2 (instantaneous_qps (fst (get_progress clk s))).
Proof.
  unfold get_progress.
  destruct (progress_avg_overflows s); [discriminate|].
  destruct (progress_rate_limit_info clk s) as [s1 [info|]];
    [|discriminate].
  destruct (_calculate_tpm (t_tpm clk) s1) as [s2 [tpm|]]; [|discriminate].
  destruct (_calculate_rpm (t_rpm clk) s2) as [s3 rpm].
  pose proof (qps_returns_round2 (t_qps clk) s3) as Hq.
  destruct (_calculate_qps (t_qps clk) s3) as [s4 qps].
  cbn [fst snd] in *. intro E. inversion E; subst. cbn. auto 12.
Qed.

(** X13.  A snapshot reports the counters, the results log, the queue size
    and the mode as they were when [get_progress] was called, and
    [get_progress] changes none of them, nor the token statistics, whether
    it returns or raises. *)
Theorem snapshot_reports_state_on_entry :
  forall (clk : ProgressClock) (s : BatchProcessor),
    same_books s (fst (get_progress clk s))
    /\ total_tokens (fst (get_progress clk s)) = total_tokens s
    /\ max_tokens (fst (get_progress clk s)) = max_tokens s
    /\ query_history (fst (get_progress clk s)) = query_history s
    /\ (forall p : Progress,
           snd (get_progress clk s) = Some p ->
           p_completed p = completed_tasks s
           /\ p_total p = total_tasks s
           /\ p_queue_size p = List.length (task_queue s)
           /\ p_results p = results s
           /\ p_error_count p = error_count s
           /\ p_requeued_tasks p = requeued_tasks s
           /\ p_total_tokens p = total_tokens s
           /\ p_max_tokens p = max_tokens s
           /\ p_rate_limit_mode p = rate_limit_mode s).
Proof.
  intros clk s.
  destruct (get_progress_writes clk s) as (rl & th & rh & iq & lt & qs & E).
  split; [apply get_progress_books|].
  rewrite E. cbn. repeat split; trivial.
  all: destruct (get_progress_fields clk s p H)
    as (H1 & H2 & H3 & H4 & H5 & H6 & H7 & H8 & H9 & _).
  all: assert (W : exists rl1,
                 fst (progress_rate_limit_info clk s) = set_rate_limiter rl1 s).
  all: try (unfold progress_rate_limit_info;
            destruct (limiter_active s) as [l|];
            [ destruct (RateLimiter.get_current_rates _ _ _ l); now eexists
            | exists (rate_limiter s); now destruct s ]).
  all: destruct W as [rl1 W]; rewrite W in *; cbn in *; congruence.
Qed.

Lemma snapshot_reports_state_on_entry_witness :
  exists p,
    snd (get_progress (snapshot_at 13) after_success) = Some p
    /\ p_completed p = completed_tasks after_success
    /\ p_results p = results after_success.
Proof.
  assert (Hs : exists p,
             snd (get_progress (snapshot_at 13) after_success) = Some p)
    by (eexists; vm_compute; reflexivity).
  destruct Hs as [p E]. exists p. split; [exact E|].
  destruct (snapshot_reports_state_on_entry (snapshot_at 13) after_success)
    as (_ & _ & _ & _ & H).
  destruct (H p E) as (H1 & _ & _ & H4 & _). split; assumption.
Defined.

(** *** After a reset *)

Lemma rate_limit_info_writes clk s :
  exists rl, fst (progress_rate_limit_info clk s) = set_rate_limiter rl s.
Proof.
  unfold progress_rate_limit_info.
  destruct (limiter_active s) as [l|].
  - destruct (RateLimiter.get_current_rates _ _ _ l). now eexists.
  - exists (rate_limiter s). now destruct s.
Qed.

(** X14.  Right after [reset], from any reachable state, [get_progress]
    returns, and its snapshot is all zeroes: no task completed, submitted,
    queued, failed or requeued, an empty results log, token statistics at
    0, and [tpm], [rpm] and [qps] at 0. *)
Theorem snapshot_after_reset_is_zero :
  forall (n : nat) (t_qps t_rpm t_tpm : Q) (clk : ProgressClock)
         (s : BatchProcessor),
    reachable s ->
    exists p : Progress,
      snd (get_progress clk (reset n t_qps t_rpm t_tpm s)) = Some p
      /\ p_completed p = 0%N /\ p_total p = 0%N /\ p_queue_size p = 0%nat
      /\ p_results p = [] /\ p_error_count p = 0%N
      /\ p_requeued_tasks p = 0%N /\ p_total_tokens p = 0%Z
      /\ p_min_tokens p = Finite 0 /\ p_max_tokens p = 0%Z
      /\ p_avg_tokens p = 0%Z /\ p_tpm p = 0%Z /\ p_rpm p = 0%Z
      /\ p_qps p == 0.
Proof.
  intros n tq t1 t2 clk s Hs.
  set (r := reset n tq t1 t2 s).
  assert (Hm : limiter_matches_mode r)
    by (apply reset_matches_mode; now apply reachable_matches_mode).
  pose proof (rate_limit_info_succeeds clk r Hm) as Hinfo.
  destruct (rate_limit_info_writes clk r) as [rl W].
  unfold get_progress.
  destruct (progress_rate_limit_info clk r) as [s1 [info|]];
    cbn [fst snd] in *; [|contradiction].
  subst s1. unfold r, reset, stop, _calculate_tpm, _calculate_rpm,
              _calculate_qps, progress_avg_tokens, progress_min_tokens.
  cbn. destruct (Py.ge _ _); cbn; eexists; repeat split; reflexivity.
Qed.

Lemma snapshot_after_reset_is_zero_witness :
  exists p : Progress,
    snd (get_progress (snapshot_at 20) (reset 3 15 15 15 after_success))
    = Some p
    /\ p_completed p = 0%N /\ p_total p = 0%N /\ p_queue_size p = 0%nat.
Proof.
  destruct (snapshot_after_reset_is_zero 3 15 15 15 (snapshot_at 20)
              after_success reachable_after_success)
    as (p & E & H1 & H2 & H3 & _).
  exists p. auto.
Defined.

(** *** A task that returns *)

(** X15.  When the gate lets a task through and its call returns, the
    iteration removes the task, logs one ['success'] outcome carrying the
    returned record, adds 1 to [completed_tasks], stamps the query and the
    request histories, and leaves [error_count] and [requeued_tasks] alone.
    If the record has a token count [T], [T] is added to [total_tokens],
    [token_count] grows by 1, the minimum and maximum take [T] in, and
    [(t, T)] is appended to the token history; otherwise the token
    statistics are unchanged.  An active limiter records the request with
    the token count, or with 0 when there is none. *)
Theorem returned_task_is_logged_as_success :
  forall (eid : nat) (clk : WorkerClock) (r : option TaskResult)
         (s : BatchProcessor) (task : Task) (rest : list Task),
    task_queue s = task :: rest ->
    snd (admission_gate clk s) = false ->
    let s' := _executor_worker_iteration eid clk (Returns r) s in
    let T := match r with Some x => tokens x | None => None end in
    task_queue s' = rest
    /\ results s'
       = results s ++ [mkOutcome eid r (m_end clk - m_start clk) None "success"]
    /\ completed_tasks s' = (completed_tasks s + 1)%N
    /\ error_count s' = error_count s
    /\ requeued_tasks s' = requeued_tasks s
    /\ query_history s' = query_history s ++ [t_query clk]
    /\ request_history s' = request_history s ++ [t_request clk]
    /\ match T with
       | Some t =>
           total_tokens s' = (total_tokens s + t)%Z
           /\ token_count s' = (token_count s + 1)%N
           /\ min_tokens s' = min_with (min_tokens s) t
           /\ max_tokens s' = Z.max (max_tokens s) t
           /\ token_history s' = token_history s ++ [(t_token clk, t)]
       | None =>
           total_tokens s' = total_tokens s
           /\ token_count s' = token_count s
           /\ min_tokens s' = min_tokens s
           /\ max_tokens s' = max_tokens s
           /\ token_history s' = token_history s
       end
    /\ rate_limiter s'
       = match limiter_active s with
         | Some l =>
             Some (RateLimiter.record_request (t_record clk) (t_rates clk)
                     (Some (match T with Some t => t | None => 0%Z end))
                     (fst (RateLimiter.should_limit (t_gate clk) None l)))
         | None => rate_limiter s
         end.
Proof.
  intros eid clk r s task rest Hq Hg. cbv zeta.
  rewrite (iteration_unfold _ _ _ _ _ _ Hq), gate_queue, Hg, gate_state.
  unfold limiter_active.
  destruct (String.eqb (rate_limit_mode s) "limited") eqn:M;
    destruct (rate_limiter s) as [l|] eqn:L;
    destruct r as [[tid [t|]]|];
    unfold execute_task, limiter_active; cbn [fst snd];
    cbn [rate_limit_mode rate_limiter set_rate_limiter set_task_queue
           set_query_history set_queries_since_last_calculation];
    rewrite ?M, ?L; cbv iota beta zeta;
    unfold store_result; cbn; rewrite ?L; auto 20.
Qed.

Lemma returned_task_is_logged_as_success_witness :
  task_queue after_success = []
  /\ results after_success
     = results started
       ++ [mkOutcome 0 (Some (mkTaskResult 1 (Some 42%Z)))
                     (m_end (all_at 10) - m_start (all_at 10)) None "success"].
Proof.
  destruct (returned_task_is_logged_as_success 0 (all_at 10)
              (Some (mkTaskResult 1 (Some 42%Z))) started a_task []
              eq_refl eq_refl)
    as (H1 & H2 & _).
  split; assumption.
Defined.

(** *** Bounds on the request rate *)

Lemma int_nonneg_le (x : Q) (n : Z) :
  0 <= x -> x <= inject_Z n -> (0 <= Py.int x <= n)%Z.
Proof.
  intros H0 Hn. unfold Py.int.
  destruct (Py.lt x 0) eqn:L.
  - apply PyFacts.lt_true in L. lra.
  - split.
    + rewrite <- (Qfloor_Z 0). now apply Qfloor_resp_le.
    + rewrite <- (Qfloor_Z n). now apply Qfloor_resp_le.
Qed.

(** X16.  The request rate of a snapshot is never negative, and it is
    never more than 60 times the number of requests left in the history,
    as long as that product is at most [2^53]: the rate is computed only
    when the entries left span at least one second. *)
Theorem rpm_between_zero_and_sixty_per_request :
  forall (now : Q) (s : BatchProcessor),
    let left := request_history (fst (_calculate_rpm now s)) in
    (0 <= snd (_calculate_rpm now s))%Z
    /\ ((60 * Z.of_nat (List.length left) <= 2 ^ 53)%Z ->
        (snd (_calculate_rpm now s) <= 60 * Z.of_nat (List.length left))%Z).
Proof.
  intros now s. cbv zeta.
  destruct (calculate_rpm_cases now s) as (Hh & Hempty & Hcons).
  rewrite Hh.
  destruct (Py.popleft_while _ (request_history s)) as [|oldest rest] eqn:P.
  - rewrite (Hempty eq_refl). cbn. lia.
  - destruct (Hcons oldest rest eq_refl) as [Hge Hlt].
    destruct (Qlt_le_dec (Py.fsub now oldest) 1) as [L|L].
    + rewrite (Hlt L). lia.
    + rewrite (Hge L). unfold rate_in_doubles, Py.fmul, Py.fdiv,
                        Py.float_of_count.
      set (n := Z.of_nat (List.length (oldest :: rest))).
      set (d := Py.fsub now oldest) in *.
      assert (N0 : (0 <= n)%Z) by (unfold n; lia).
      assert (Q0 : 0 <= inject_Z n)
        by (change 0 with (inject_Z 0); now rewrite <- Zle_Qle).
      set (f := Py.double (inject_Z n)).
      assert (F0 : 0 <= f) by now apply PyFacts.double_sign.
      assert (D : 0 < d) by lra.
      assert (A0 : 0 <= f / d) by (apply Qle_shift_div_l; lra).
      set (q := Py.double (f / d)).
      assert (G0 : 0 <= q) by now apply PyFacts.double_sign.
      assert (P0 : 0 <= Py.double (q * 60))
        by (apply PyFacts.double_sign; lra).
      split.
      * apply (int_nonneg_le _ (Qceiling (Py.double (q * 60))));
          [exact P0 | apply Qle_ceiling].
      * intro B.
        assert (F1 : f <= inject_Z n)
          by (apply PyFacts.double_le_int; [lia | lra]).
        assert (A1 : f / d <= inject_Z n)
          by (apply Qle_shift_div_r; [exact D | nra]).
        assert (G1 : q <= inject_Z n)
          by (apply PyFacts.double_le_int; [lia | exact A1]).
        apply int_nonneg_le; [exact P0|].
        apply PyFacts.double_le_int; [lia|].
        rewrite inject_Z_mult. change (inject_Z 60) with 60. lra.
Qed.

Lemma rpm_between_zero_and_sixty_per_request_witness :
  (0 <= snd (_calculate_rpm 13 after_success))%Z
  /\ (snd (_calculate_rpm 13 after_success)
      <= 60 * Z.of_nat
                (List.length
                   (request_history (fst (_calculate_rpm 13 after_success)))))%Z.
Proof.
  destruct (rpm_between_zero_and_sixty_per_request 13 after_success)
    as [H0 H1].
  split; [exact H0 | apply H1; vm_compute; discriminate].
Defined.

(** *** The first task after a restart *)

Lemma empty_window_admits now l :
  RateLimiter.rpm_window_requests l = 0%N ->
  snd (RateLimiter.should_limit now None l) = false.
Proof.
  intro Hz.
  destruct (snd (RateLimiter.should_limit now None l)) eqn:E; trivial.
  apply RateLimiterFacts.should_limit_decision in E. cbv zeta in E.
  destruct E as [[Hpos Hle]|[_ (t & Ht & _)]]; [|discriminate].
  destruct (LimiterBehaviour.refresh_rpm_counter_cases now l) as [H|H];
    rewrite H in Hle; rewrite ?Hz in Hle;
    change (inject_Z (Z.of_N 0)) with 0 in Hle;
    set (q := fst (RateLimiter._calculate_window_limits l)) in *; lra.
Qed.

Lemma gate_admits_empty_window clk s :
  (forall l, limiter_active s = Some l ->
             RateLimiter.rpm_window_requests l = 0%N) ->
  snd (admission_gate clk s) = false.
Proof.
  intro H. rewrite gate_is_should_limit.
  destruct (limiter_active s) as [l|]; [|reflexivity].
  apply empty_window_admits. now apply H.
Qed.

Lemma start_limiter t_rpm t_tpm s :
  rate_limiter (start t_rpm t_tpm s)
  = option_map (RateLimiter.reset t_rpm t_tpm) (rate_limiter s).
Proof.
  unfold start. cbn.
  destruct (rate_limiter s) as [l|] eqn:E; cbn; now rewrite ?E.
Qed.

Lemma reset_limiter n t_qps t_rpm t_tpm s :
  rate_limiter (reset n t_qps t_rpm t_tpm s)
  = option_map (RateLimiter.reset t_rpm t_tpm) (rate_limiter s).
Proof. unfold reset. cbn. now destruct (rate_limiter s). Qed.

Lemma set_rate_limits_limiter mode max_rpm max_tpm t_rpm t_tpm s :
  rate_limiter (set_rate_limits mode max_rpm max_tpm t_rpm t_tpm s)
  = if String.eqb mode "limited"
    then Some (match rate_limiter s with
               | Some l =>
                   RateLimiter.reset t_rpm t_tpm
                     (RateLimiter.set_caps max_rpm max_tpm l)
               | None => RateLimiter.init max_rpm max_tpm 10 60 t_rpm t_tpm
               end)
    else None.
Proof.
  unfold set_rate_limits. destruct (String.eqb mode "limited").
  - cbn. now destruct (rate_limiter s).
  - reflexivity.
Qed.

(** X24.  Right after [start], [reset] or [set_rate_limits] the admission
    gate lets the next task through, whatever the caps are and whatever the
    limiter had counted before: each of them leaves the request window
    empty. *)
Theorem gate_open_after_restart :
  forall (clk : WorkerClock) (s : BatchProcessor) (t_rpm t_tpm t_qps : Q)
         (n : nat) (mode : string) (max_rpm max_tpm : Z),
    snd (admission_gate clk (start t_rpm t_tpm s)) = false
    /\ snd (admission_gate clk (reset n t_qps t_rpm t_tpm s)) = false
    /\ snd (admission_gate clk
              (set_rate_limits mode max_rpm max_tpm t_rpm t_tpm s)) = false.
Proof.
  intros clk s t_rpm t_tpm t_qps n mode max_rpm max_tpm.
  split; [|split]; apply gate_admits_empty_window; intros l Hl;
    apply limiter_active_some in Hl.
  - rewrite start_limiter in Hl.
    destruct (rate_limiter s) as [l0|]; [|discriminate].
    inversion Hl; subst. reflexivity.
  - rewrite reset_limiter in Hl.
    destruct (rate_limiter s) as [l0|]; [|discriminate].
    inversion Hl; subst. reflexivity.
  - rewrite set_rate_limits_limiter in Hl.
    destruct (String.eqb mode "limited"); [|discriminate].
    destruct (rate_limiter s) as [l0|]; inversion Hl; subst; reflexivity.
Qed.

End ProcessorBehaviour.

(** ** Further properties: the session drivers of [app.py] *)

Module AppFacts.
Import Processor MoreSpec App.

Lemma add_tasks_from first count p :
  fold_left
    (fun acc i => add_task (mkTask "openai_task" [Z.of_nat i]) acc)
    (seq first count) p
  = set_total_tasks (total_tasks p + N.of_nat count)%N
      (set_task_queue (task_queue p ++ numbered_tasks first count) p).
Proof.
  revert first p. induction count as [|count IH]; intros first p.
  - cbn. rewrite app_nil_r, N.add_0_r. now destruct p.
  - cbn [seq fold_left]. rewrite IH. unfold add_task, numbered_tasks. cbn.
    rewrite <- app_assoc. cbn.
    replace (total_tasks p + 1 + N.of_nat count)%N
      with (total_tasks p + N.pos (Pos.of_succ_nat count))%N by lia.
    reflexivity.
Qed.

(** X19.  Whatever the session held before, [start_processing] leaves a
    running processor with [num_tasks] tasks queued in order, numbered from
    0, [total_tasks = num_tasks], nothing completed, failed or requeued,
    an empty results log and [num_executors] workers; the requested mode,
    with a fresh limiter carrying the requested caps in limited mode and no
    limiter otherwise; a running timer; and empty metric histories. *)
Theorem start_processing_loads_a_fresh_run :
  forall (num_executors num_tasks : nat) (mode : string)
         (max_rpm max_tpm : Z) (clk : StartClock) (sess : Session),
    let sess' :=
      start_processing num_executors num_tasks mode max_rpm max_tpm clk sess in
    let p := processor sess' in
    task_queue p = numbered_tasks 0 num_tasks
    /\ total_tasks p = N.of_nat num_tasks
    /\ completed_tasks p = 0%N /\ error_count p = 0%N
    /\ requeued_tasks p = 0%N /\ results p = []
    /\ running p = true
    /\ executors p = num_executors /\ Processor.num_executors p = num_executors
    /\ rate_limit_mode p = mode
    /\ conserved p
    /\ (mode = "limited"%string ->
        exists l,
          rate_limiter p = Some l
          /\ RateLimiter.max_rpm l = max_rpm
          /\ RateLimiter.max_tpm l = max_tpm
          /\ RateLimiter.rpm_window_requests l = 0%N
          /\ RateLimiter.tpm_window_tokens l = 0%Z
          /\ RateLimiter.request_timestamps l = []
          /\ RateLimiter.token_usage l = []
          /\ RateLimiter.rpm_window_start_time l = c_start_rpm clk
          /\ RateLimiter.tpm_window_start_time l = c_start_tpm clk)
    /\ (mode <> "limited"%string -> rate_limiter p = None)
    /\ Timer.running (timer sess') = true
    /\ (forall now, Timer.elapsed now (timer sess') = Some (now - c_timer clk))
    /\ tpm_history sess' = [] /\ rpm_history sess' = []
    /\ token_history sess' = [] /\ metric_times sess' = [].
Proof.
  intros num_executors num_tasks mode max_rpm max_tpm clk sess.
  cbv zeta. unfold start_processing. cbn [processor timer tpm_history
    rpm_history token_history metric_times].
  unfold add_tasks. rewrite add_tasks_from.
  unfold Processor.start, Processor.set_rate_limits, Processor.reset,
    Processor.stop, conserved.
  destruct (String.eqb_spec mode "limited") as [->|Hne].
  - destruct (rate_limiter (processor sess)) as [l|] eqn:L; cbn;
      rewrite ?L; cbn;
      unfold numbered_tasks; rewrite ?length_map, ?length_seq;
      repeat match goal with |- _ /\ _ => split end;
      first [ reflexivity | lia
            | intros _; eexists; repeat split; reflexivity
            | intro H; now destruct H
            | intros; reflexivity ].
  - cbn. unfold numbered_tasks. rewrite ?length_map, ?length_seq.
    repeat match goal with |- _ /\ _ => split end;
      first [ reflexivity | lia | intro H; now destruct (Hne H)
            | intros; reflexivity ].
Qed.

Lemma start_processing_loads_a_fresh_run_witness :
  exists l,
    rate_limiter
      (processor
         (start_processing 3 10 "limited" 100 10000
            (mkStartClock 0 0 0 0 0 0 0 0)
            (mkSession ProcessorSpec.after_success Timer.init
                       0 0 0 0 0 0 [] [] [] []))) = Some l
    /\ RateLimiter.max_rpm l = 100%Z.
Proof.
  destruct (start_processing_loads_a_fresh_run 3 10 "limited" 100 10000
              (mkStartClock 0 0 0 0 0 0 0 0)
              (mkSession ProcessorSpec.after_success Timer.init
                         0 0 0 0 0 0 [] [] [] []))
    as (_ & _ & _ & _ & _ & _ & _ & _ & _ & _ & _ & H & _).
  destruct (H eq_refl) as (l & E & Hm & _). exists l. split; assumption.
Defined.

(** *** The metric histories *)

Lemma last_n_length {A : Type} (n : nat) (l : list A) :
  List.length (last_n n l) = Nat.min n (List.length l).
Proof. unfold last_n. rewrite length_skipn. lia. Qed.

Lemma last_n_short {A : Type} (n : nat) (l : list A) :
  (List.length l <= n)%nat -> last_n n l = l.
Proof.
  intro H. unfold last_n.
  replace (List.length l - n)%nat with 0%nat by lia. reflexivity.
Qed.

(** What [update_metrics] keeps of a history: the new list when it is not
    trimmed, its last [MAX_HISTORY] entries when it is. *)
Lemma trimmed_is_last_n {A : Type} (trim : bool) (ref : nat) (l : list A) :
  trim = (MAX_HISTORY <? ref)%nat -> List.length l = ref ->
  (if trim then last_n MAX_HISTORY l else l) = last_n MAX_HISTORY l.
Proof.
  intros -> Hl. destruct (Nat.ltb_spec MAX_HISTORY ref); [reflexivity|].
  symmetry. apply last_n_short. lia.
Qed.

(** X20.  When the four metric histories have the same length, an
    [update_metrics] that gets its snapshot appends the new [tpm], [rpm],
    token delta and clock reading and keeps of each history its last 60
    entries, so that the four stay aligned and never hold more than 60;
    the token delta it records is never negative; and the remembered
    previous values become those of this snapshot.  When [get_progress]
    raises, histories and remembered values are left as they were. *)
Theorem update_metrics_keeps_latest_sixty :
  forall (clk : ProgressClock) (now : Q) (sess : Session) (n : nat),
    List.length (tpm_history sess) = n ->
    List.length (rpm_history sess) = n ->
    List.length (token_history sess) = n ->
    List.length (metric_times sess) = n ->
    let sess' := fst (update_metrics clk now sess) in
    (snd (update_metrics clk now sess) = None ->
     tpm_history sess' = tpm_history sess
     /\ rpm_history sess' = rpm_history sess
     /\ token_history sess' = token_history sess
     /\ metric_times sess' = metric_times sess
     /\ prev_tpm sess' = prev_tpm sess
     /\ prev_rpm sess' = prev_rpm sess
     /\ prev_tokens sess' = prev_tokens sess
     /\ prev_completed_tasks sess' = prev_completed_tasks sess)
    /\ (forall mt : Metrics,
           snd (update_metrics clk now sess) = Some mt ->
           tpm_history sess' = last_n 60 (tpm_history sess ++ [m_tpm mt])
           /\ rpm_history sess' = last_n 60 (rpm_history sess ++ [m_rpm mt])
           /\ token_history sess'
              = last_n 60 (token_history sess ++ [m_tokens_delta mt])
           /\ metric_times sess' = last_n 60 (metric_times sess ++ [now])
           /\ List.length (tpm_history sess') = Nat.min 60 (n + 1)
           /\ List.length (rpm_history sess') = Nat.min 60 (n + 1)
           /\ List.length (token_history sess') = Nat.min 60 (n + 1)
           /\ List.length (metric_times sess') = Nat.min 60 (n + 1)
           /\ (0 <= m_tokens_delta mt)%Z
           /\ m_tokens_delta mt
              = Z.max (m_tokens mt - prev_tokens sess) 0
           /\ prev_tpm sess' = m_tpm mt
           /\ prev_rpm sess' = m_rpm mt
           /\ prev_tokens sess' = m_tokens mt
           /\ prev_completed_tasks sess' = p_completed (m_progress mt)
           /\ prev_queue_size sess' = p_queue_size (m_progress mt)).
Proof.
  intros clk now sess n Ht Hr Hk Hm. cbv zeta. unfold update_metrics.
  destruct (get_progress clk (processor sess)) as [p [progress|]].
  - split; [discriminate|]. intros mt E. cbn [snd] in E.
    inversion E; subst mt; clear E.
    cbn [fst tpm_history rpm_history token_history metric_times prev_tpm
           prev_rpm prev_tokens prev_completed_tasks prev_queue_size
           m_tpm m_rpm m_tokens_delta m_tokens m_progress].
    set (ref := List.length (tpm_history sess ++ [p_tpm progress])).
    assert (Href : ref = (n + 1)%nat)
      by (unfold ref; rewrite length_app, Ht; reflexivity).
    rewrite !(trimmed_is_last_n _ ref) by
      (try reflexivity; rewrite length_app; cbn [List.length]; lia).
    rewrite !last_n_length, !length_app. cbn [List.length].
    rewrite Ht, Hr, Hk, Hm.
    repeat split; trivial; lia.
  - split; [|discriminate]. intros _. cbn. auto 10.
Qed.

Lemma update_metrics_keeps_latest_sixty_witness :
  exists mt,
    snd (update_metrics (ProcessorSpec.snapshot_at 13) 13
           (mkSession ProcessorSpec.after_success Timer.init
                      0 0 0 0 0 0 [] [] [] [])) = Some mt
    /\ (0 <= m_tokens_delta mt)%Z.
Proof.
  assert (Hs : exists mt,
             snd (update_metrics (ProcessorSpec.snapshot_at 13) 13
                    (mkSession ProcessorSpec.after_success Timer.init
                               0 0 0 0 0 0 [] [] [] [])) = Some mt)
    by (eexists; vm_compute; reflexivity).
  destruct Hs as [mt E]. exists mt. split; [exact E|].
  destruct (update_metrics_keeps_latest_sixty
              (ProcessorSpec.snapshot_at 13) 13
              (mkSession ProcessorSpec.after_success Timer.init
                         0 0 0 0 0 0 [] [] [] [])
              0%nat eq_refl eq_refl eq_refl eq_refl) as [_ H].
  destruct (H mt E) as (_ & _ & _ & _ & _ & _ & _ & _ & H0 & _). exact H0.
Defined.

(** *** The progress bar *)

(** X21.  The percentage of the progress bar exists exactly when some task
    was submitted; it lies between 0 and 100, and it is 100 exactly when
    [completed] has reached [total]. *)
Theorem progress_pct_full_iff_all_completed :
  forall p : Progress,
    (progress_pct p = None <-> p_total p = 0%N)
    /\ (forall v : Z,
           progress_pct p = Some v ->
           (0 <= v <= 100)%Z
           /\ (v = 100%Z <-> (p_total p <= p_completed p)%N)).
Proof.
  intro p. unfold progress_pct.
  destruct (N.ltb_spec 0 (p_total p)) as [Hpos|Hz].
  - split; [split; [discriminate | lia]|].
    intros v E.
    replace v
      with (Z.min 100
              (Py.int (inject_Z (100 * Z.of_N (p_completed p))
                       / inject_Z (Z.of_N (p_total p)))))
      by congruence.
    clear E.
    set (c := Z.of_N (p_completed p)). set (t := Z.of_N (p_total p)).
    assert (Ht : (0 < t)%Z) by (unfold t; lia).
    assert (Hc : (0 <= c)%Z) by (unfold c; lia).
    assert (Hint : Py.int (inject_Z (100 * c) / inject_Z t)
                   = (100 * c / t)%Z).
    { unfold Py.int.
      assert (N0 : 0 <= inject_Z (100 * c) / inject_Z t).
      { apply Qle_shift_div_l.
        - change 0 with (inject_Z 0). rewrite <- Zlt_Qlt. exact Ht.
        - rewrite Qmult_0_l. change 0 with (inject_Z 0).
          rewrite <- Zle_Qle. lia. }
      destruct (Py.lt _ 0) eqn:L.
      - apply PyFacts.lt_true in L. lra.
      - symmetry. apply Zdiv_Qdiv. }
    rewrite Hint.
    assert (D0 : (0 <= 100 * c / t)%Z) by (apply Z.div_pos; lia).
    split; [lia|].
    assert (Hfull : (100 <= 100 * c / t)%Z <-> (t <= c)%Z).
    { split; intro H.
      - destruct (Z_le_gt_dec t c) as [|G]; trivial.
        assert (100 * c / t < 100)%Z
          by (apply Z.div_lt_upper_bound; lia). lia.
      - apply Z.div_le_lower_bound; lia. }
    unfold c, t in *. split; intro H.
    + assert (100 <= 100 * Z.of_N (p_completed p) / Z.of_N (p_total p))%Z
        by lia. apply Hfull in H0. lia.
    + assert (Z.of_N (p_total p) <= Z.of_N (p_completed p))%Z by lia.
      apply Hfull in H0. lia.
  - split; [split; [lia | reflexivity]|]. discriminate.
Qed.

Lemma progress_pct_full_iff_all_completed_witness :
  exists p : Progress,
    snd (get_progress (ProcessorSpec.snapshot_at 13) ProcessorSpec.after_success)
    = Some p
    /\ progress_pct p = Some 100%Z
    /\ (p_total p <= p_completed p)%N.
Proof.
  assert (Hs : exists p,
             snd (get_progress (ProcessorSpec.snapshot_at 13)
                               ProcessorSpec.after_success) = Some p
             /\ progress_pct p = Some 100%Z)
    by (eexists; split; vm_compute; reflexivity).
  destruct Hs as (p & E & Hp). exists p. split; [exact E|].
  split; [exact Hp|].
  destruct (progress_pct_full_iff_all_completed p) as [_ H].
  destruct (H 100%Z Hp) as [_ Hiff]. now apply Hiff.
Defined.

End AppFacts.

(** ** Further properties: the timer *)

Module TimerFacts.
Import Timer.

Lemma apply_running_has_start op t :
  (running t = true -> start_time t <> None) ->
  running (apply op t) = true -> start_time (apply op t) <> None.
Proof.
  intro Inv. destruct op as [m|m|]; cbn.
  - discriminate.
  - unfold stop. destruct (running t) eqn:R; cbn; [discriminate|].
    rewrite R. discriminate.
  - discriminate.
Qed.

Lemma run_running_has_start ops t :
  (running t = true -> start_time t <> None) ->
  running (run ops t) = true -> start_time (run ops t) <> None.
Proof.
  revert t. induction ops as [|op ops IH]; intros t Inv; [exact Inv|].
  cbn. apply IH. now apply apply_running_has_start.
Qed.

(** X17.  Whatever sequence of [start], [stop] and [reset] a new timer has
    gone through, [elapsed] returns a number: it never fails on a missing
    start time. *)
Theorem elapsed_never_raises :
  forall (ops : list Op) (m : Q), elapsed m (run ops init) <> None.
Proof.
  intros ops m. unfold elapsed.
  pose proof (run_running_has_start ops init) as Inv.
  destruct (running (run ops init)).
  - destruct (start_time (run ops init)); [discriminate|].
    exfalso. apply Inv; [discriminate | reflexivity | reflexivity].
  - unfold truthy_time.
    destruct (start_time (run ops init)) as [s|]; [|discriminate].
    destruct (end_time (run ops init)) as [e|].
    + destruct (negb (Qeq_bool s 0) && negb (Qeq_bool e 0)); discriminate.
    + rewrite andb_false_r. discriminate.
Qed.

Lemma stops_when_stopped later t :
  running t = false -> run (map OpStop later) t = t.
Proof.
  intro R. induction later as [|m later IH]; [reflexivity|].
  change (run (map OpStop (m :: later)) t)
    with (run (map OpStop later) (stop m t)).
  assert (E : stop m t = t) by (unfold stop; now rewrite R).
  now rewrite E.
Qed.

(** X18.  A timer started at reading [m0] reports [now - m0] while it runs.
    Once stopped at reading [m1] it reports [m1 - m0] from then on, further
    calls of [stop] notwithstanding; except that it reports 0 when [m0] or
    [m1] is the reading 0, which the truth test in [elapsed] takes for a
    missing time.  After [reset] it reports 0. *)
Theorem stopwatch_readings :
  forall (t : Timer) (m0 m1 now : Q) (later : list Q),
    elapsed now (start m0 t) = Some (now - m0)
    /\ elapsed now (run (OpStart m0 :: OpStop m1 :: map OpStop later) t)
       = Some (if Qeq_bool m0 0 || Qeq_bool m1 0 then 0 else m1 - m0)
    /\ elapsed now (reset t) = Some 0.
Proof.
  intros t m0 m1 now later. split; [reflexivity|]. split; [|reflexivity].
  change (run (OpStart m0 :: OpStop m1 :: map OpStop later) t)
    with (run (map OpStop later) (stop m1 (start m0 t))).
  rewrite stops_when_stopped by reflexivity.
  unfold elapsed, stop, start, truthy_time. cbn.
  destruct (Qeq_bool m0 0), (Qeq_bool m1 0); reflexivity.
Qed.

End TimerFacts.
